(** * Verification of the workflow execution engine

    A shallow embedding of [src/engine/workflow_engine.py] (class
    [WorkflowEngine]) and of the parts of the Python standard library it
    calls ([str], [re.sub] on three fixed patterns, [datetime.strptime],
    [datetime.strftime], [timedelta]).

    Conventions.
    - Python [str] is [string]; the model covers ASCII text: [\w], [\d],
      [\s] and [str.strip] are the ASCII parts of the Python classes.
    - A Python [dict] used as a map is a [gmap]; [d.get(k)] is [d !! k].
    - A raised exception is the [Raise] result; [StepFailedError] is
      kept apart from every other [Exception] because the engine does.
    - The browser is an oracle over an abstract world.
    - Logging through [_emit_log] and [asyncio.sleep] change nothing the
      engine can observe and are left out. *)

From Stdlib Require Import ZArith Ascii String List Lia Bool DecimalString.
From Stdlib Require DecimalPos.
From stdpp Require Import gmap strings list.

Set Warnings "-register-all".
Local Open Scope Z_scope.

(** ** Python strings *)

Module PyStr.

Definition code (c : ascii) : nat := nat_of_ascii c.

Definition between (lo hi : nat) (c : ascii) : bool :=
  (Nat.leb lo (code c)) && (Nat.leb (code c) hi).

(** [\d] on ASCII. *)
Definition is_digit (c : ascii) : bool := between 48 57 c.

(** [\w] on ASCII: letters, digits and the underscore. *)
Definition is_word (c : ascii) : bool :=
  between 48 57 c || between 65 90 c || between 97 122 c || Nat.eqb (code c) 95.

(** [str.isspace] and [\s] on ASCII: TAB..CR, FS..US and the space. *)
Definition is_space (c : ascii) : bool := between 9 13 c || between 28 32 c.

Definition lower (c : ascii) : ascii :=
  if between 65 90 c then ascii_of_nat (code c + 32) else c.

Fixpoint lower_str (s : string) : string :=
  match s with
  | EmptyString => EmptyString
  | String c r => String (lower c) (lower_str r)
  end.

Definition is_empty (s : string) : bool :=
  match s with EmptyString => true | _ => false end.

(** Python truthiness of a string. *)
Definition truthy (s : string) : bool := negb (is_empty s).

Fixpoint lstrip (s : string) : string :=
  match s with
  | EmptyString => EmptyString
  | String c r => if is_space c then lstrip r else s
  end.

Fixpoint rstrip (s : string) : string :=
  match s with
  | EmptyString => EmptyString
  | String c r =>
      let r' := rstrip r in
      if is_space c && is_empty r' then EmptyString else String c r'
  end.

(** [s.strip()] *)
Definition strip (s : string) : string := rstrip (lstrip s).

(** The longest prefix of [s] whose characters satisfy [p], and the rest. *)
Fixpoint span (p : ascii -> bool) (s : string) : string * string :=
  match s with
  | EmptyString => (EmptyString, EmptyString)
  | String c r =>
      if p c then let '(a, b) := span p r in (String c a, b)
      else (EmptyString, s)
  end.

(** [Some rest] when [s = p ++ rest]. *)
Fixpoint strip_prefix (p s : string) : option string :=
  match p with
  | EmptyString => Some s
  | String a p' =>
      match s with
      | String b s' => if Ascii.eqb a b then strip_prefix p' s' else None
      | EmptyString => None
      end
  end.

(** The same, comparing without case (the regex flag IGNORECASE). *)
Fixpoint strip_prefix_ci (p s : string) : option string :=
  match p with
  | EmptyString => Some s
  | String a p' =>
      match s with
      | String b s' =>
          if Ascii.eqb (lower a) (lower b) then strip_prefix_ci p' s' else None
      | EmptyString => None
      end
  end.

Fixpoint drop (n : nat) (s : string) : string :=
  match n, s with
  | O, _ => s
  | S k, String _ r => drop k r
  | S _, EmptyString => EmptyString
  end.

(** [sub in s] *)
Fixpoint contains (sub s : string) : bool :=
  match strip_prefix sub s with
  | Some _ => true
  | None => match s with
            | EmptyString => false
            | String _ r => contains sub r
            end
  end.

Fixpoint mem_char (c : ascii) (s : string) : bool :=
  match s with
  | EmptyString => false
  | String a r => Ascii.eqb a c || mem_char c r
  end.

(** Keep the characters of [s] that satisfy [p]. *)
Fixpoint filter_chars (p : ascii -> bool) (s : string) : string :=
  match s with
  | EmptyString => EmptyString
  | String c r => if p c then String c (filter_chars p r) else filter_chars p r
  end.

(** [s.replace(c, '')] for a one-character [c]. *)
Definition remove_char (c : ascii) (s : string) : string :=
  filter_chars (fun a => negb (Ascii.eqb a c)) s.

(** [s.split(sep)] for a non-empty [sep]: [cur] is the piece being read,
    [skip] counts the characters of a separator still to pass over. *)
Fixpoint split_aux (sep : string) (skip : nat) (cur s : string) : list string :=
  match s with
  | EmptyString => [cur]
  | String c r =>
      match skip with
      | S k => split_aux sep k cur r
      | O =>
          match strip_prefix sep s with
          | Some _ => cur :: split_aux sep (String.length sep - 1) EmptyString r
          | None => split_aux sep O (cur +:+ String c EmptyString) r
          end
      end
  end.

Definition split (sep s : string) : list string := split_aux sep O EmptyString s.

(** [str(n)] for an integer. *)
Definition str_of_Z (n : Z) : string := NilZero.string_of_int (Z.to_int n).

(** A run of decimal digits read as a number. *)
Fixpoint digits_value (acc : Z) (s : string) : Z :=
  match s with
  | EmptyString => acc
  | String c r => digits_value (10 * acc + (Z.of_nat (code c) - 48)) r
  end.

(** [int(s)] for [s] matching [-?\d+]; the limit that recent versions of
    Python put on the number of digits is not modelled. *)
Definition int_of_str (s : string) : Z :=
  match s with
  | String "-" r => - digits_value 0 r
  | _ => digits_value 0 s
  end.

(** [n] written with at least [w] digits, zero padded ([%02d], [%04d]). *)
Definition zero_pad (w : nat) (n : Z) : string :=
  let d := str_of_Z n in
  let fix zeros (k : nat) : string :=
    match k with O => EmptyString | S k' => String "0" (zeros k') end in
  zeros (w - String.length d)%nat +:+ d.

End PyStr.

(** ** Results and exceptions *)

(** The engine tells [StepFailedError] from every other exception. *)
Inductive exn : Type :=
  | StepFailedError (msg : string)
  | Exception (msg : string).

Inductive result (A : Type) : Type :=
  | Ok (a : A)
  | Raise (e : exn).
Arguments Ok {A} a.
Arguments Raise {A} e.

(** [str(e)] *)
Definition exn_msg (e : exn) : string :=
  match e with StepFailedError m => m | Exception m => m end.

(** ** The [datetime] library *)

Module PyDate.
Import PyStr.

(** A [datetime] at midnight, as [strptime] builds it from the four
    formats of [_parse_date]; the time of day is not modelled. *)
Record datetime : Type := mkDate { year : Z; month : Z; day : Z }.

Definition is_leap (y : Z) : bool :=
  (y mod 4 =? 0) && (negb (y mod 100 =? 0) || (y mod 400 =? 0)).

Definition days_in_month (y m : Z) : Z :=
  if m =? 2 then (if is_leap y then 29 else 28)
  else if (m =? 4) || (m =? 6) || (m =? 9) || (m =? 11) then 30
  else 31.

(** [_DAYS_BEFORE_MONTH] *)
Definition days_before_month_tbl (m : Z) : Z :=
  nth (Z.to_nat m) [-1; 0; 31; 59; 90; 120; 151; 181; 212; 243; 273; 304; 334] 0.

Definition days_before_month (y m : Z) : Z :=
  days_before_month_tbl m + (if (2 <? m) && is_leap y then 1 else 0).

Definition days_before_year (y : Z) : Z :=
  let p := y - 1 in p * 365 + p / 4 - p / 100 + p / 400.

(** The constructor's check: [ValueError] outside these bounds. *)
Definition valid_date (y m d : Z) : bool :=
  (1 <=? y) && (y <=? 9999) && (1 <=? m) && (m <=? 12) &&
  (1 <=? d) && (d <=? days_in_month y m).

(** [date.toordinal()]: 1 is 0001-01-01. *)
Definition toordinal (dt : datetime) : Z :=
  days_before_year (year dt) + days_before_month (year dt) (month dt) + day dt.

(** [_ord2ymd], the inverse, as the library computes it. *)
Definition fromordinal (n0 : Z) : datetime :=
  let n := n0 - 1 in
  let n400 := n / 146097 in
  let n := n mod 146097 in
  let y := n400 * 400 + 1 in
  let n100 := n / 36524 in
  let n := n mod 36524 in
  let n4 := n / 1461 in
  let n := n mod 1461 in
  let n1 := n / 365 in
  let n := n mod 365 in
  let y := y + n100 * 100 + n4 * 4 + n1 in
  if (n1 =? 4) || (n100 =? 4) then mkDate (y - 1) 12 31
  else
    let leapyear := (n1 =? 3) && (negb (n4 =? 24) || (n100 =? 3)) in
    let m := Z.shiftr (n + 50) 5 in
    let preceding :=
      days_before_month_tbl m + (if (2 <? m) && leapyear then 1 else 0) in
    if n <? preceding then
      let m' := m - 1 in
      let dim :=
        if m' =? 2 then (if leapyear then 29 else 28)
        else if (m' =? 4) || (m' =? 6) || (m' =? 9) || (m' =? 11) then 30
        else 31 in
      mkDate y m' (n - (preceding - dim) + 1)
    else mkDate y m (n - preceding + 1).

Definition max_ordinal : Z := 3652059.

(** [dt + timedelta(days=n)]: [OverflowError] when [n] is not a legal
    [timedelta] or the sum leaves years 1..9999. *)
Definition add_days (dt : datetime) (n : Z) : result datetime :=
  if (n <? -999999999) || (999999999 <? n) then
    Raise (Exception "OverflowError: days out of range for timedelta")
  else
    let o := toordinal dt + n in
    if (1 <=? o) && (o <=? max_ordinal) then Ok (fromordinal o)
    else Raise (Exception "OverflowError: date value out of range").

(** [a < b] on two [datetime]s at midnight. *)
Definition lt (a b : datetime) : bool := toordinal a <? toordinal b.
Definition le (a b : datetime) : bool := toordinal a <=? toordinal b.

Definition month_abbr : list string :=
  ["jan"; "feb"; "mar"; "apr"; "may"; "jun";
   "jul"; "aug"; "sep"; "oct"; "nov"; "dec"].

Definition month_full : list string :=
  ["january"; "february"; "march"; "april"; "may"; "june"; "july";
   "august"; "september"; "october"; "november"; "december"].

Definition month_abbr_out : list string :=
  ["Jan"; "Feb"; "Mar"; "Apr"; "May"; "Jun";
   "Jul"; "Aug"; "Sep"; "Oct"; "Nov"; "Dec"].

Definition month_full_out : list string :=
  ["January"; "February"; "March"; "April"; "May"; "June"; "July";
   "August"; "September"; "October"; "November"; "December"].

(** *** [strftime]

    The directives [%d %m %Y %y %b %B %%] in the C locale; any other
    character pair starting with [%] is platform dependent and is left in
    place. Characters outside directives are copied. *)
Fixpoint strftime (dt : datetime) (fmt : string) : string :=
  match fmt with
  | EmptyString => EmptyString
  | String "%" (String c r as tl) =>
      let out (x : string) := x +:+ strftime dt r in
      if Ascii.eqb c "d" then out (zero_pad 2 (day dt))
      else if Ascii.eqb c "m" then out (zero_pad 2 (month dt))
      else if Ascii.eqb c "Y" then out (zero_pad 4 (year dt))
      else if Ascii.eqb c "y" then out (zero_pad 2 (year dt mod 100))
      else if Ascii.eqb c "b" then
        out (nth (Z.to_nat (month dt - 1)) month_abbr_out EmptyString)
      else if Ascii.eqb c "B" then
        out (nth (Z.to_nat (month dt - 1)) month_full_out EmptyString)
      else if Ascii.eqb c "%" then out "%"
      else String "%" (strftime dt tl)
  | String c r => String c (strftime dt r)
  end.

(** *** [strptime]

    [_strptime] turns the format into a regular expression, matches it at
    the start of the text without regard to case, and rejects the text when
    the match does not reach its end. A directive is a list of alternatives
    tried in order, so a parser returns its successes in that order. *)

Inductive fmt_item : Type :=
  | FDay          (* %d : 3[0-1]|[1-2]\d|0[1-9]|[1-9]| [1-9] *)
  | FMonthNum     (* %m : 1[0-2]|0[1-9]|[1-9] *)
  | FYear         (* %Y : \d\d\d\d *)
  | FMonthAbbr    (* %b *)
  | FMonthFull    (* %B *)
  | FSpaces       (* a run of white space in the format: \s+ *)
  | FLit (c : ascii).

Inductive field : Type := Fd | Fm | FY | Fnone.

(** Two characters and the rest, when the two satisfy [p] and [q]. *)
Definition two (p q : ascii -> bool) (s : string) : list (Z * string) :=
  match s with
  | String a (String b r) =>
      if p a && q b
      then [(digits_value 0 (String (if is_space a then "0"%char else a)
                                    (String b EmptyString)), r)]
      else []
  | _ => []
  end.

Definition one (p : ascii -> bool) (s : string) : list (Z * string) :=
  match s with
  | String a r => if p a then [(digits_value 0 (String a EmptyString), r)] else []
  | _ => []
  end.

Definition ch (c : ascii) (a : ascii) : bool := Ascii.eqb a c.
Definition nonzero_digit (a : ascii) : bool := between 49 57 a.

Definition alts_day (s : string) : list (Z * string) :=
  two (ch "3") (between 48 49) s ++ two (between 49 50) is_digit s ++
  two (ch "0") nonzero_digit s ++ one nonzero_digit s ++
  two (ch " ") nonzero_digit s.

Definition alts_month_num (s : string) : list (Z * string) :=
  two (ch "1") (between 48 50) s ++ two (ch "0") nonzero_digit s ++
  one nonzero_digit s.

Definition alts_year (s : string) : list (Z * string) :=
  match s with
  | String a (String b (String c (String d r))) =>
      if is_digit a && is_digit b && is_digit c && is_digit d
      then [(digits_value 0 (String a (String b (String c (String d EmptyString)))), r)]
      else []
  | _ => []
  end.

(** The names of [names] matching at the start of [s], numbered from [i]. *)
Fixpoint alts_name (names : list string) (i : Z) (s : string) : list (Z * string) :=
  match names with
  | [] => []
  | n :: rest =>
      match strip_prefix_ci n s with
      | Some r => (i, r) :: alts_name rest (i + 1) s
      | None => alts_name rest (i + 1) s
      end
  end.

(** [\s+], greedy: the longest run first, then shorter ones. *)
Definition alts_spaces (s : string) : list (Z * string) :=
  let n := String.length (fst (span is_space s)) in
  map (fun k => (0, drop k s)) (rev (seq 1 n)).

Definition alts (it : fmt_item) (s : string) : field * list (Z * string) :=
  match it with
  | FDay => (Fd, alts_day s)
  | FMonthNum => (Fm, alts_month_num s)
  | FYear => (FY, alts_year s)
  | FMonthAbbr => (Fm, alts_name month_abbr 1 s)
  | FMonthFull => (Fm, alts_name month_full 1 s)
  | FSpaces => (Fnone, alts_spaces s)
  | FLit c => (Fnone, match s with
                      | String a r => if Ascii.eqb (lower a) (lower c)
                                      then [(0, r)] else []
                      | EmptyString => []
                      end)
  end.

Definition set_field (f : field) (v : Z) (acc : Z * Z * Z) : Z * Z * Z :=
  let '(y, m, d) := acc in
  match f with
  | Fd => (y, m, v) | Fm => (y, v, d) | FY => (v, m, d) | Fnone => acc
  end.

(** The first match of the items, backtracking over the alternatives. *)
Fixpoint run_items (items : list fmt_item) (acc : Z * Z * Z) (s : string)
  : option (Z * Z * Z * string) :=
  match items with
  | [] => Some (acc, s)
  | it :: rest =>
      let '(f, l) := alts it s in
      (fix first (l : list (Z * string)) : option (Z * Z * Z * string) :=
         match l with
         | [] => None
         | (v, r) :: l' =>
             match run_items rest (set_field f v acc) r with
             | Some x => Some x
             | None => first l'
             end
         end) l
  end.

(** The items of a format string; [None] for a directive outside the
    five that [_parse_date] and the model use. *)
Fixpoint compile_format (in_space : bool) (fmt : string) : option (list fmt_item) :=
  match fmt with
  | EmptyString => Some []
  | String "%" (String c r) =>
      let item :=
        if Ascii.eqb c "d" then Some FDay
        else if Ascii.eqb c "m" then Some FMonthNum
        else if Ascii.eqb c "Y" then Some FYear
        else if Ascii.eqb c "b" then Some FMonthAbbr
        else if Ascii.eqb c "B" then Some FMonthFull
        else None in
      match item, compile_format false r with
      | Some it, Some l => Some (it :: l)
      | _, _ => None
      end
  | String c r =>
      if is_space c then
        match compile_format true r with
        | Some l => Some (if in_space then l else FSpaces :: l)
        | None => None
        end
      else
        match compile_format false r with
        | Some l => Some (FLit c :: l)
        | None => None
        end
  end.

(** [datetime.strptime(s, fmt)]; [None] stands for [ValueError]. Fields
    absent from the format default to 1900-01-01. *)
Definition strptime (s fmt : string) : option datetime :=
  match compile_format false fmt with
  | None => None
  | Some items =>
      match run_items items (1900, 1, 1) s with
      | Some (y, m, d, EmptyString) =>
          if valid_date y m d then Some (mkDate y m d) else None
      | _ => None
      end
  end.

End PyDate.

(** ** Values of the variable store *)

(** [state.variables] is a [dict[str, Any]]: strings, the integer
    stored under [loop_processed_count], and structured values (the
    [validation_result] dictionary), which are kept as their [str()]. *)
Inductive value : Type :=
  | VStr (s : string)
  | VInt (n : Z)
  | VObj (repr : string).

(** Python truthiness; a structured value here is a non-empty [dict]. *)
Definition value_truthy (v : value) : bool :=
  match v with
  | VStr s => PyStr.truthy s
  | VInt n => negb (n =? 0)
  | VObj _ => true
  end.

(** [str(v)] *)
Definition value_str (v : value) : string :=
  match v with
  | VStr s => s
  | VInt n => PyStr.str_of_Z n
  | VObj r => r
  end.

Definition bind_result {A B : Type} (r : result A) (f : A -> result B) : result B :=
  match r with
  | Ok a => f a
  | Raise e => Raise e
  end.

(** ** The resolver: [_parse_date], [_format_date], [_resolve_variable] *)

Module Resolver.
Import PyStr PyDate.

Definition date_formats : list string :=
  ["%d %b %Y"; "%d %B %Y"; "%Y-%m-%d"; "%d/%m/%Y"].

(** [_parse_date]: the first format that parses the stripped text. *)
Definition _parse_date (date_str : string) : option datetime :=
  (fix try (formats : list string) : option datetime :=
     match formats with
     | [] => None
     | fmt :: rest =>
         match strptime (strip date_str) fmt with
         | Some dt => Some dt
         | None => try rest
         end
     end) date_formats.

Definition default_fmt : string := "%d %b %Y".

(** [_format_date] *)
Definition _format_date (dt : datetime) (fmt : string) : string := strftime dt fmt.

(** [re.sub(pattern, repl, s)] for a pattern that never matches the empty
    string: [m] matches the pattern at the start of its argument and gives
    the groups and the text after the match; [skip] counts the characters
    of the last match still to pass over. *)
Fixpoint re_sub_from {C : Type} (m : string -> option (C * string))
    (repl : C -> result string) (skip : nat) (s : string) : result string :=
  match s with
  | EmptyString => Ok EmptyString
  | String c r =>
      match skip with
      | S k => re_sub_from m repl k r
      | O =>
          match m s with
          | Some (groups, rest) =>
              bind_result (repl groups) (fun out =>
              bind_result
                (re_sub_from m repl (String.length s - String.length rest - 1) r)
                (fun t => Ok (out +:+ t)))
          | None =>
              bind_result (re_sub_from m repl O r) (fun t => Ok (String c t))
          end
      end
  end.

Definition re_sub {C : Type} (m : string -> option (C * string))
    (repl : C -> result string) (s : string) : result string :=
  re_sub_from m repl O s.

(** The tail [(?::([^}]+))?\}] shared by the two date patterns. *)
Definition opt_fmt_close (r : string) : option (option string * string) :=
  match strip_prefix ":" r with
  | Some r1 =>
      let '(f, r2) := span (fun c => negb (Ascii.eqb c "}")) r1 in
      match f, strip_prefix "}" r2 with
      | String _ _, Some r3 => Some (Some f, r3)
      | _, _ => None
      end
  | None =>
      match strip_prefix "}" r with
      | Some r3 => Some (None, r3)
      | None => None
      end
  end.

(** [\$\{TODAY(?::([^}]+))?\}] *)
Definition match_today (s : string) : option (option string * string) :=
  match strip_prefix "${TODAY" s with
  | Some r => opt_fmt_close r
  | None => None
  end.

(** [\$\{DATE_ADD:(\w+):(-?\d+)(?::([^}]+))?\}] *)
Definition match_date_add (s : string)
  : option (string * string * option string * string) :=
  match strip_prefix "${DATE_ADD:" s with
  | None => None
  | Some r =>
      let '(name, r1) := span is_word r in
      match name, strip_prefix ":" r1 with
      | String _ _, Some r2 =>
          let '(sign, r3) :=
            match strip_prefix "-" r2 with
            | Some r3 => ("-", r3)
            | None => (EmptyString, r2)
            end in
          let '(ds, r4) := span is_digit r3 in
          match ds with
          | EmptyString => None
          | _ =>
              match opt_fmt_close r4 with
              | Some (fmt, rest) => Some (name, sign +:+ ds, fmt, rest)
              | None => None
              end
          end
      | _, _ => None
      end
  end.

(** [\$\{(\w+)\}] *)
Definition match_var (s : string) : option (string * string) :=
  match strip_prefix "${" s with
  | None => None
  | Some r =>
      let '(name, r1) := span is_word r in
      match name, strip_prefix "}" r1 with
      | String _ _, Some rest => Some (name, rest)
      | _, _ => None
      end
  end.

Section Resolve.

(** [datetime.now()], [self.env_vars] and [self.state.variables]. *)
Variable now : datetime.
Variable env_vars : gmap string string.
Variable variables : gmap string value.

Definition replace_today (g : option string) : result string :=
  Ok (_format_date now (default default_fmt g)).

Definition replace_date_add (g : string * string * option string) : result string :=
  let '(var_name, days_s, fmt_g) := g in
  let days := int_of_str days_s in
  let fmt := default default_fmt fmt_g in
  match variables !! var_name with
  | None => Ok EmptyString
  | Some v =>
      if negb (value_truthy v) then Ok EmptyString
      else
        match v with
        | VStr date_str =>
            match _parse_date date_str with
            | Some dt =>
                bind_result (add_days dt days) (fun new_dt =>
                Ok (_format_date new_dt fmt))
            | None => Ok EmptyString
            end
        | _ => Raise (Exception "AttributeError: object has no attribute 'strip'")
        end
  end.

Definition replace (var_name : string) : result string :=
  match env_vars !! var_name with
  | Some s => Ok s
  | None =>
      match variables !! var_name with
      | None => Ok EmptyString
      | Some (VStr s) => Ok s
      | Some _ => Raise (Exception "TypeError: expected str instance")
      end
  end.

(** The three passes of [_resolve_variable] on a string. *)
Definition resolve_str (s : string) : result string :=
  bind_result (re_sub match_today replace_today s) (fun s1 =>
  bind_result (re_sub match_date_add replace_date_add s1) (fun s2 =>
  re_sub match_var replace s2)).

(** [_resolve_variable]: anything but a string is returned as it is. *)
Definition _resolve_variable (v : value) : result value :=
  match v with
  | VStr s => bind_result (resolve_str s) (fun r => Ok (VStr r))
  | _ => Ok v
  end.

End Resolve.

(** A string has a placeholder when some [${] is followed, anywhere
    later, by a closing brace. *)
Fixpoint has_placeholder (s : string) : bool :=
  match s with
  | EmptyString => false
  | String _ r =>
      match strip_prefix "${" s with
      | Some r' => mem_char "}" r'
      | None => false
      end || has_placeholder r
  end.

End Resolver.

(** ** Download file names *)

Module Download.
Import PyStr PyDate Resolver.

(** [report_map] of [_get_report_prefix]: number prefix, report name and
    whether the report is a VAT report. *)
Definition report_map : list (string * (string * string * bool)) :=
  [ ("trial_balance_report", ("1", "Trial Balance", false));
    ("profit_and_loss", ("2", "Profit and Loss", false));
    ("aged_receivables_detail", ("3", "Aged Receivables Detail", false));
    ("aged_payables_detail", ("4", "Aged Payables Detail", false));
    ("account_transactions", ("5", "Account Transactions", false));
    ("receivable_invoice_detail", ("6", "Receivable Invoice Detail", false));
    ("payable_invoice_detail", ("7", "Payable Invoice Detail", false));
    ("vat_returns", ("1", "VAT", true));
    ("vat_returns_export", ("1", "VAT", true));
    ("get_financial_year_end", ("", "Financial Year End", false)) ].

Fixpoint assoc {A : Type} (k : string) (l : list (string * A)) : option A :=
  match l with
  | [] => None
  | (k', v) :: r => if String.eqb k' k then Some v else assoc k r
  end.

Definition _get_report_prefix (workflow_name : string) : string * string * bool :=
  default (EmptyString, workflow_name, false) (assoc workflow_name report_map).

(** The nine characters of the class that [_format_download_filename]
    removes: less-than, greater-than, colon, double quote, slash,
    backslash, bar, question mark, star. *)
Definition forbidden_chars : list ascii :=
  ["<"; ">"; ":"; ascii_of_nat 34; "/"; "\"; "|"; "?"; "*"]%char.

Definition is_forbidden (c : ascii) : bool :=
  existsb (Ascii.eqb c) forbidden_chars.

(** [safe_company]: the name without those characters, or [Unknown]
    for an empty name. *)
Definition safe_company_of (company_name : string) : string :=
  if truthy company_name
  then filter_chars (fun c => negb (is_forbidden c)) company_name
  else "Unknown".



(** [_format_date_compact] on a string. *)
Definition _format_date_compact (date_str : string) : string :=
  if negb (truthy date_str) then EmptyString
  else
    match _parse_date date_str with
    | Some parsed => strftime parsed "%d%m%Y"
    | None => remove_char "-" (remove_char " " date_str)
    end.

(** [_format_date_compact] on what [variables.get] returned: the call
    [date_str.strip()] fails on a value that is not a string. *)
Definition format_date_compact_value (v : value) : result string :=
  match v with
  | VStr s => Ok (_format_date_compact s)
  | _ => Raise (Exception "AttributeError: object has no attribute 'strip'")
  end.

(** [_format_download_filename]: file name, client folder, subfolder. *)
Definition _format_download_filename (variables : gmap string value)
    (workflow_name company_name file_ext : string)
  : result (string * string * string) :=
  let '(num_prefix, report_name, is_vat) := _get_report_prefix workflow_name in
  let safe_company := safe_company_of company_name in
  let client_folder := safe_company in
  let subfolder := EmptyString in
  bind_result
    (if is_vat then
       let period_start := default (VStr EmptyString) (variables !! "vat_return_start_date") in
       let period_end := default (VStr EmptyString) (variables !! "vat_return_end_date") in
       if value_truthy period_start && value_truthy period_end then
         bind_result (format_date_compact_value period_start) (fun start_compact =>
         bind_result (format_date_compact_value period_end) (fun end_compact =>
         let period_str := start_compact +:+ "-" +:+ end_compact in
         Ok (num_prefix +:+ " VAT_" +:+ period_str +:+ "_" +:+ safe_company +:+ file_ext)))
       else Ok (num_prefix +:+ " VAT_" +:+ safe_company +:+ file_ext)
     else
       if truthy num_prefix
       then Ok (num_prefix +:+ " " +:+ report_name +:+ "_" +:+ safe_company +:+ file_ext)
       else Ok (report_name +:+ "_" +:+ safe_company +:+ file_ext))
    (fun new_filename => Ok (new_filename, client_folder, subfolder)).

End Download.

(** ** The engine: data model *)

Module Engine.
Import PyStr PyDate Resolver.

(** An entry of a [select_columns] step's [columns] list. *)
Record Column : Type := mkColumn {
  col_selector : option string;
  col_name : option string }.

(** A step of a workflow definition: a [dict] read with [step.get]. The
    keys kept are those the engine and the three handlers modelled in
    full read; [None] is an absent key. The remaining keys are read only by
    the browser-facing handlers, which are oracles keyed by the step. *)
Inductive Step : Type := mkStep {
  step_id : option string;
  action : option string;
  description : string;
  optional : bool;
  on_error : option string;
  on_timeout : option string;
  columns : list Column;
  filter_date_from : option string;
  date_field_selector : option string;
  date_extract_mode : string;
  action_selector : option string;
  reverse_order : bool;
  sub_steps : list Step }.

Record Workflow : Type := mkWorkflow {
  wf_name : string;
  wf_steps : list Step }.

(** The handlers of the table in [_execute_step]. *)
Inductive HandlerKind : Type :=
  | HGoto | HFill | HPressKey | HClick | HEnsureChecked
  | HBatchEnsureChecked | HDeselectAllColumns | HSelectColumns
  | HCheckUrl | HWaitForUrl | HWaitForSelector | HWaitForDownload
  | HCaptureState | HScrape | HManualIntervention | HReadInput
  | HReadText | HLoopElements | HLoopVatReturns | HClickAndDownload
  | HExecuteScript | HValidateFilters.

Definition handler_table : list (string * HandlerKind) :=
  [ ("goto", HGoto); ("fill", HFill); ("press_key", HPressKey);
    ("click", HClick); ("ensure_checked", HEnsureChecked);
    ("batch_ensure_checked", HBatchEnsureChecked);
    ("deselect_all_columns", HDeselectAllColumns);
    ("select_columns", HSelectColumns); ("check_url", HCheckUrl);
    ("wait_for_url", HWaitForUrl); ("wait_for_selector", HWaitForSelector);
    ("wait_for_download", HWaitForDownload); ("capture_state", HCaptureState);
    ("scrape", HScrape); ("manual_intervention", HManualIntervention);
    ("read_input", HReadInput); ("read_text", HReadText);
    ("loop_elements", HLoopElements); ("loop_vat_returns", HLoopVatReturns);
    ("click_and_download", HClickAndDownload);
    ("execute_script", HExecuteScript);
    ("validate_filters", HValidateFilters) ].

(** [handlers.get(action)] *)
Definition handlers (action : option string) : option HandlerKind :=
  match action with
  | Some a => Download.assoc a handler_table
  | None => None
  end.

(** An entry of [state.errors]: a [dict] with the keys [step] and
    [error], and the key [fatal] only where the code writes it. *)
Record ErrorEntry : Type := mkError {
  err_step : option string;
  err_error : string;
  err_fatal : option bool }.

(** [e.get('fatal')] read as a condition, as [app.py] reads it. *)
Definition is_fatal (e : ErrorEntry) : bool :=
  match err_fatal e with Some true => true | _ => false end.

(** [WorkflowState] *)
Record WorkflowState : Type := mkState {
  variables : gmap string value;
  results : gmap string value;
  current_step : option string;
  completed_steps : list (option string);
  errors : list ErrorEntry }.

Definition initial_state : WorkflowState :=
  mkState ∅ ∅ None [] [].

(** The events of [WorkflowReportGenerator], without their time stamps. *)
Inductive ReportEvent : Type :=
  | EvWorkflowStart (workflow : string) (client : value)
  | EvStep (step_id action : option string) (description status : string)
  | EvFilter (filter_name value : string)
  | EvDownload (filename path : string)
  | EvSkip (reason context : string)
  | EvValidation (passed errors : list string)
  | EvError (step_id : option string) (error : string) (fatal : bool)
  | EvWorkflowEnd (status : string) (variables : gmap string value).

(** What a browser call answers: a value, or a fault that Python sees as
    an exception other than [StepFailedError]. *)
Inductive reply (A : Type) : Type :=
  | Reply (a : A)
  | Fault (msg : string).
Arguments Reply {A} a.
Arguments Fault {A} msg.

(** What a browser-facing handler does to the engine besides returning:
    [_store_variable], [state.results[k] = v], [report.log_download] and
    [report.log_validation]. *)
Inductive effect : Type :=
  | EffStore (key : string) (v : value)
  | EffResult (key : string) (v : value)
  | EffDownload (filename path : string)
  | EffValidation (passed errs : list string).

(** An item of the list that [js_get_vat_returns] returns. *)
Record VatReturn : Type := mkVatReturn {
  dateRange : string;
  startDate : string;
  endDate : string;
  index : Z;
  buttonId : string }.

(** The browser and the clock. Each call takes the world and returns the
    next one. [handler_oracle] stands for the nineteen handlers that only
    drive the page: it gives their return value or exception and their
    effects, in order, up to that point. *)
Record Browser (W : Type) : Type := mkBrowser {
  clock : W -> datetime;
  handler_oracle : HandlerKind -> Step -> gmap string value -> W ->
                   result (option string) * list effect * W;
  get_checked : W -> reply (list string) * W;
  scroll_into_view : string -> W -> reply unit * W;
  click : string -> W -> reply unit * W;
  wait_for_list : W -> reply unit * W;
  vat_page_issues : W -> reply (option string) * W;
  get_vat_returns : W -> reply (list VatReturn) * W;
  click_review : string -> string -> W -> reply bool * W;
  has_preparation_prompt : W -> reply bool * W;
  navigate_back : W -> reply unit * W;
  count_rows : Step -> W -> reply nat * W;
  date_text : Step -> nat -> W -> reply (option string) * W;
  action_visible : Step -> nat -> W -> reply bool * W;
  action_click : Step -> nat -> W -> reply unit * W }.
Arguments mkBrowser {W}.
Arguments clock {W} _.
Arguments handler_oracle {W} _.
Arguments get_checked {W} _.
Arguments scroll_into_view {W} _.
Arguments click {W} _.
Arguments wait_for_list {W} _.
Arguments vat_page_issues {W} _.
Arguments get_vat_returns {W} _.
Arguments click_review {W} _.
Arguments has_preparation_prompt {W} _.
Arguments navigate_back {W} _.
Arguments count_rows {W} _.
Arguments date_text {W} _.
Arguments action_visible {W} _.
Arguments action_click {W} _.

(** The calls the engine makes, in order: a record kept beside the
    execution so that theorems can speak of what was dispatched or
    clicked. It is never read by the engine. *)
Inductive Call : Type :=
  | CallHandler (step_id : option string) (kind : HandlerKind)
  | CallGetChecked
  | CallScroll (selector : string)
  | CallClick (selector : string)
  | CallWaitForList
  | CallPageIssues
  | CallGetVatReturns
  | CallClickReview (button_id date_range : string)
  | CallPreparationPrompt
  | CallNavigateBack
  | CallCountRows
  | CallDateText (i : nat)
  | CallActionVisible (i : nat)
  | CallActionClick (i : nat).

Definition opt_truthy (o : option string) : bool :=
  match o with Some s => truthy s | None => false end.

Definition mem_str (s : string) (l : list string) : bool :=
  existsb (String.eqb s) l.

(** [_extract_date_from_range] *)
Definition _extract_date_from_range (text mode : string) : option datetime :=
  let text := strip text in
  if contains " - " text then
    let parts := split " - " text in
    let date_str :=
      if String.eqb mode "start"
      then strip (nth 0 parts EmptyString)
      else strip (nth 1 parts EmptyString) in
    _parse_date date_str
  else _parse_date text.

(** [_get_step_index]: the position of the first step with that id,
    or -1. *)
Fixpoint get_step_index_from (i : Z) (steps : list Step) (id : string) : Z :=
  match steps with
  | [] => -1
  | step :: rest =>
      if bool_decide (step_id step = Some id) then i
      else get_step_index_from (i + 1) rest id
  end.

Definition _get_step_index (steps : list Step) (id : string) : Z :=
  get_step_index_from 0 steps id.

(** ** The engine: execution *)

(** What an execution threads: the [WorkflowState], the report's events,
    the world behind the browser, and the record of calls. *)
Record Machine (W : Type) : Type := mkMachine {
  state : WorkflowState;
  report : list ReportEvent;
  world : W;
  calls : list Call }.
Arguments mkMachine {W} _ _ _ _.
Arguments state {W} _.
Arguments report {W} _.
Arguments world {W} _.
Arguments calls {W} _.

(** A computation of the engine: it may return or raise, and in both
    cases leaves a machine behind. *)
Definition M (W A : Type) : Type := Machine W -> result A * Machine W.

Definition ret {W A : Type} (a : A) : M W A := fun m => (Ok a, m).

Definition raise {W A : Type} (e : exn) : M W A := fun m => (Raise e, m).

Definition bind {W A B : Type} (c : M W A) (k : A -> M W B) : M W B :=
  fun m =>
    match c m with
    | (Ok a, m') => k a m'
    | (Raise e, m') => (Raise e, m')
    end.

Notation "'let*' x ':=' c 'in' k" := (bind c (fun x => k))
  (at level 10, x name, c at level 100, k at level 200).

(** [try: c  except Exception: pass] *)
Definition swallow {W A : Type} (c : M W A) : M W unit :=
  fun m => (Ok tt, snd (c m)).

Definition with_state {W : Type} (f : WorkflowState -> WorkflowState)
    (m : Machine W) : Machine W :=
  mkMachine (f (state m)) (report m) (world m) (calls m).

Definition log_report {W : Type} (e : ReportEvent) (m : Machine W) : Machine W :=
  mkMachine (state m) (report m ++ [e]) (world m) (calls m).

Definition log_call {W : Type} (c : Call) (m : Machine W) : Machine W :=
  mkMachine (state m) (report m) (world m) (calls m ++ [c]).

Definition set_world {W : Type} (w : W) (m : Machine W) : Machine W :=
  mkMachine (state m) (report m) w (calls m).

Definition set_variable (k : string) (v : value) (s : WorkflowState) : WorkflowState :=
  mkState (<[k := v]> (variables s)) (results s) (current_step s)
          (completed_steps s) (errors s).

Definition set_result (k : string) (v : value) (s : WorkflowState) : WorkflowState :=
  mkState (variables s) (<[k := v]> (results s)) (current_step s)
          (completed_steps s) (errors s).

Definition set_current_step (id : option string) (s : WorkflowState) : WorkflowState :=
  mkState (variables s) (results s) id (completed_steps s) (errors s).

Definition append_completed (id : option string) (s : WorkflowState) : WorkflowState :=
  mkState (variables s) (results s) (current_step s)
          (completed_steps s ++ [id]) (errors s).

Definition append_error (e : ErrorEntry) (s : WorkflowState) : WorkflowState :=
  mkState (variables s) (results s) (current_step s)
          (completed_steps s) (errors s ++ [e]).

Definition filter_keywords : list string :=
  ["date"; "period"; "year"; "client"; "company"; "column"].

(** [_store_variable] *)
Definition _store_variable {W : Type} (key : string) (v : value) : M W unit :=
  fun m =>
    let m1 := with_state (set_variable key v) m in
    (Ok tt,
     if existsb (fun kw => contains kw (lower_str key)) filter_keywords
     then log_report (EvFilter key (value_str v)) m1
     else m1).

(** [str(step_id)] *)
Definition str_of_id (id : option string) : string :=
  match id with Some s => s | None => "None" end.

(** The selector that [js_get_checked] builds for a checked column. *)
Definition dq : string := String (ascii_of_nat 34) EmptyString.

Definition selector_of (automationid : string) : string :=
  "[data-automationid=" +:+ dq +:+ automationid +:+ dq +:+ "]".

Definition issue_messages : list (string * string) :=
  [ ("hmrc_access_error", "Cannot access HMRC - VAT registration missing");
    ("no_vat_registration", "No VAT registration number configured");
    ("no_vat_returns", "No VAT returns available to export") ].

(** The test that both loops apply to an item: the filter date and the
    item's date are both known, and the item's date is the earlier. *)
Definition is_before (filter_date row_date : option datetime) : bool :=
  match filter_date, row_date with
  | Some fd, Some rd => lt rd fd
  | _, _ => false
  end.

(** The split of [_execute_loop_vat_returns] into the returns to export
    and the date ranges skipped. *)
Fixpoint partition_vat (filter_date : option datetime) (l : list VatReturn)
  : list VatReturn * list string :=
  match l with
  | [] => ([], [])
  | vat_return :: rest =>
      let '(to_process, skipped) := partition_vat filter_date rest in
      match filter_date, _parse_date (startDate vat_return) with
      | Some fd, Some row_date =>
          if lt row_date fd
          then (to_process, dateRange vat_return :: skipped)
          else (vat_return :: to_process, skipped)
      | _, _ => (vat_return :: to_process, skipped)
      end
  end.

(** The handler dispatches among the calls, and the selectors clicked. *)
Definition dispatched (cs : list Call) : list (option string * HandlerKind) :=
  omap (fun c => match c with
                 | CallHandler id kind => Some (id, kind)
                 | _ => None
                 end) cs.

Definition clicks (cs : list Call) : list string :=
  omap (fun c => match c with
                 | CallClick selector => Some selector
                 | _ => None
                 end) cs.

(** The part of a machine that only [_execute_step] and [run] write. *)
Definition core {W : Type} (m : Machine W)
  : option string * list (option string) * list ErrorEntry
    * list (option string * HandlerKind) :=
  (current_step (state m), completed_steps (state m), errors (state m),
   dispatched (calls m)).

Section Handlers.

Context {W : Type}.

(** The browser, and [self.env_vars]. *)
Variable br : Browser W.
Variable env_vars : gmap string string.

(** A browser call: the world moves on, the call is recorded, and a
    fault is raised as an exception. *)
Definition call {A : Type} (c : Call) (op : W -> reply A * W) : M W A :=
  fun m =>
    let '(r, w) := op (world m) in
    let m' := set_world w (log_call c m) in
    match r with
    | Reply a => (Ok a, m')
    | Fault msg => (Raise (Exception msg), m')
    end.

(** [self._resolve_variable(s)] on a string of the step. *)
Definition resolve (s : string) : M W string :=
  fun m =>
    (resolve_str (clock br (world m)) env_vars (variables (state m)) s, m).

Definition apply_effect (e : effect) : M W unit :=
  match e with
  | EffStore k v => _store_variable k v
  | EffResult k v => fun m => (Ok tt, with_state (set_result k v) m)
  | EffDownload f p => fun m => (Ok tt, log_report (EvDownload f p) m)
  | EffValidation p e => fun m => (Ok tt, log_report (EvValidation p e) m)
  end.

Fixpoint apply_effects (l : list effect) (m : Machine W) : Machine W :=
  match l with
  | [] => m
  | e :: r => apply_effects r (snd (apply_effect e m))
  end.

(** A browser-facing handler, run by the oracle. *)
Definition oracle_handler (kind : HandlerKind) (step : Step) : M W (option string) :=
  fun m =>
    let '(r, effs, w) :=
      handler_oracle br kind step (variables (state m)) (world m) in
    (r, apply_effects effs (set_world w m)).

(** *** [_execute_select_columns] *)

Definition js_get_checked : M W (list string) :=
  let* ids := call CallGetChecked (get_checked br) in
  ret (map selector_of ids).

(** [scroll_into_view_if_needed] then [click] on the first match. *)
Definition scroll_and_click (selector : string) : M W unit :=
  let* _ := call (CallScroll selector) (scroll_into_view br selector) in
  call (CallClick selector) (click br selector).

Fixpoint deselect_each (to_deselect : list string) : M W unit :=
  match to_deselect with
  | [] => ret tt
  | selector :: rest =>
      let* _ := swallow (scroll_and_click selector) in
      deselect_each rest
  end.

(** The loop over [columns]; the result is [failed_count]. *)
Fixpoint select_each (checked_selectors : list string) (cols : list Column)
    (failed_count : nat) : M W nat :=
  match cols with
  | [] => ret failed_count
  | col :: rest =>
      if negb (opt_truthy (col_selector col))
      then select_each checked_selectors rest (S failed_count)
      else
        let selector := default EmptyString (col_selector col) in
        if mem_str selector checked_selectors
        then select_each checked_selectors rest failed_count
        else
          fun m =>
            match scroll_and_click selector m with
            | (Ok _, m') => select_each checked_selectors rest failed_count m'
            | (Raise _, m') => select_each checked_selectors rest (S failed_count) m'
            end
  end.

Definition required_selectors_of (cols : list Column) : list string :=
  omap (fun col =>
          if opt_truthy (col_selector col) then col_selector col else None) cols.

Definition _execute_select_columns (step : Step) : M W (option string) :=
  let required_selectors := required_selectors_of (columns step) in
  let* checked_cols := js_get_checked in
  let to_deselect :=
    List.filter (fun c => negb (mem_str c required_selectors)) checked_cols in
  let* _ := deselect_each to_deselect in
  let* checked_selectors := js_get_checked in
  let* failed_count := select_each checked_selectors (columns step) O in
  if (Nat.ltb 0 failed_count) && negb (optional step)
  then raise (StepFailedError
                ("Failed to select " +:+ str_of_Z (Z.of_nat failed_count)
                 +:+ " columns"))
  else ret None.

(** *** The loops *)

(** The sub-steps of one item, each already bound to [_execute_step]:
    stop at the first [StepFailedError] and report whether one came. *)
Fixpoint run_sub_steps (subs : list (M W (option string))) : M W bool :=
  match subs with
  | [] => ret false
  | sub :: rest =>
      fun m =>
        match sub m with
        | (Ok _, m') => run_sub_steps rest m'
        | (Raise (StepFailedError _), m') => (Ok true, m')
        | (Raise e, m') => (Raise e, m')
        end
  end.

Definition resolve_filter_date (filter_date_from : option string)
  : M W (option datetime) :=
  if opt_truthy filter_date_from then
    let* date_str := resolve (default EmptyString filter_date_from) in
    ret (_parse_date date_str)
  else ret None.

Definition _navigate_back_to_vat_list : M W unit :=
  call CallNavigateBack (navigate_back br).

Definition log_skip (reason context : string) : M W unit :=
  fun m => (Ok tt, log_report (EvSkip reason context) m).

(** The loop of [_execute_loop_vat_returns] over [enumerate(to_process)]:
    [i] is the position, [seen] is [processed_button_ids], and the result
    is [processed]. *)
Fixpoint vat_items (subs : list (M W (option string))) (total : nat) (i : nat)
    (items : list VatReturn) (seen : list string) (processed : nat) : M W nat :=
  match items with
  | [] => ret processed
  | vat_return :: rest =>
      let continue (seen : list string) (processed : nat) :=
        vat_items subs total (S i) rest seen processed in
      let date_range := dateRange vat_return in
      let button_id := buttonId vat_return in
      if mem_str button_id seen then continue seen processed
      else
        let* _ := _store_variable "vat_return_period" (VStr date_range) in
        let* _ := _store_variable "vat_return_start_date"
                    (VStr (startDate vat_return)) in
        let* _ := _store_variable "vat_return_end_date"
                    (VStr (endDate vat_return)) in
        let* _ := _store_variable "vat_return_progress"
                    (VStr (str_of_Z (Z.of_nat (S i)) +:+ " of "
                           +:+ str_of_Z (Z.of_nat total))) in
        let* success := call (CallClickReview button_id date_range)
                          (click_review br button_id date_range) in
        if negb success then continue seen processed
        else
          let seen := button_id :: seen in
          let* has_prompt := call CallPreparationPrompt
                               (has_preparation_prompt br) in
          if has_prompt then
            let* _ := log_skip "VAT preparation not configured" date_range in
            let* _ := _navigate_back_to_vat_list in
            continue seen processed
          else
            let* sub_step_failed := run_sub_steps subs in
            if sub_step_failed then
              let* _ := _navigate_back_to_vat_list in
              continue seen processed
            else
              let* _ := swallow (call CallWaitForList (wait_for_list br)) in
              continue seen (S processed)
  end.

Definition _execute_loop_vat_returns (step : Step)
    (subs : list (M W (option string))) : M W (option string) :=
  let* _ := swallow (call CallWaitForList (wait_for_list br)) in
  let* vat_page_issues := call CallPageIssues (vat_page_issues br) in
  if opt_truthy vat_page_issues then
    let issue := default EmptyString vat_page_issues in
    let skip_reason := default issue (Download.assoc issue issue_messages) in
    let* _ := _store_variable "loop_processed_count" (VInt 0) in
    let* _ := log_skip skip_reason "VAT Returns Page" in
    ret None
  else
    let* filter_date := resolve_filter_date (filter_date_from step) in
    let* vat_returns := call CallGetVatReturns (get_vat_returns br) in
    let vat_returns :=
      if reverse_order step then rev vat_returns else vat_returns in
    let '(to_process, skipped) := partition_vat filter_date vat_returns in
    let* processed :=
      vat_items subs (length to_process) O to_process [] O in
    let* _ := _store_variable "loop_processed_count"
                (VInt (Z.of_nat processed)) in
    ret None.

(** The click on the item's action button of [_execute_loop_elements]:
    [false] when the [try] block raised, which skips the item. *)
Definition click_action (step : Step) (i : nat) : M W bool :=
  if opt_truthy (action_selector step) then
    fun m =>
      match call (CallActionVisible i) (action_visible br step i) m with
      | (Ok true, m1) =>
          match call (CallActionClick i) (action_click br step i) m1 with
          | (Ok _, m2) => (Ok true, m2)
          | (Raise _, m2) => (Ok false, m2)
          end
      | (Ok false, m1) => (Ok true, m1)
      | (Raise _, m1) => (Ok false, m1)
      end
  else ret true.

(** The date test of [_execute_loop_elements] on row [i]: [true] when
    the row is before the filter date and is skipped. *)
Definition row_is_before (step : Step) (filter_date : option datetime)
    (i : nat) : M W bool :=
  match filter_date with
  | Some fd =>
      if opt_truthy (date_field_selector step) then
        fun m =>
          match call (CallDateText i) (date_text br step i) m with
          | (Ok date_text, m1) =>
              if opt_truthy date_text then
                match _extract_date_from_range
                        (default EmptyString date_text)
                        (date_extract_mode step) with
                | Some row_date => (Ok (lt row_date fd), m1)
                | None => (Ok false, m1)
                end
              else (Ok false, m1)
          | (Raise _, m1) => (Ok false, m1)
          end
      else ret false
  | None => ret false
  end.

(** The loop of [_execute_loop_elements] over [indices]; the result is
    [(processed, skipped)]. *)
Fixpoint loop_rows (step : Step) (subs : list (M W (option string)))
    (filter_date : option datetime) (indices : list nat)
    (processed skipped : nat) : M W (nat * nat) :=
  match indices with
  | [] => ret (processed, skipped)
  | i :: rest =>
      let* before := row_is_before step filter_date i in
      if before then loop_rows step subs filter_date rest processed (S skipped)
      else
        let* clicked := click_action step i in
        if negb clicked
        then loop_rows step subs filter_date rest processed skipped
        else
          let* _ := run_sub_steps subs in
          loop_rows step subs filter_date rest (S processed) skipped
  end.

Definition _execute_loop_elements (step : Step)
    (subs : list (M W (option string))) : M W (option string) :=
  let* filter_date := resolve_filter_date (filter_date_from step) in
  let* count := call CallCountRows (count_rows br step) in
  let indices := seq 0 count in
  let indices := if reverse_order step then rev indices else indices in
  let* counts := loop_rows step subs filter_date indices O O in
  let* _ := _store_variable "loop_processed_count"
              (VInt (Z.of_nat (fst counts))) in
  ret None.

(** *** [_execute_step] and [run] *)

Definition run_handler (kind : HandlerKind) (step : Step)
    (subs : list (M W (option string))) : M W (option string) :=
  match kind with
  | HSelectColumns => _execute_select_columns step
  | HLoopElements => _execute_loop_elements step subs
  | HLoopVatReturns => _execute_loop_vat_returns step subs
  | _ => oracle_handler kind step
  end.

(** What [_execute_step] writes after the handler returned. *)
Definition record_success (step : Step) (m : Machine W) : Machine W :=
  log_report
    (EvStep (step_id step) (action step) (description step) "success")
    (with_state (append_completed (step_id step)) m).

(** What it writes after the handler raised [StepFailedError]. *)
Definition record_fatal (step : Step) (m : Machine W) : Machine W :=
  log_report (EvError (step_id step) (str_of_id (step_id step)) true)
    (log_report
       (EvStep (step_id step) (action step) (description step) "error") m).

(** What it writes after the handler raised another exception. *)
Definition record_error (step : Step) (msg : string) (m : Machine W)
  : Machine W :=
  log_report (EvError (step_id step) msg false)
    (log_report
       (EvStep (step_id step) (action step) (description step) "error")
       (with_state (append_error (mkError (step_id step) msg None)) m)).

(** The machine when the handler of [step] is looked up:
    [self.state.current_step = step_id]. *)
Definition entering (step : Step) (m : Machine W) : Machine W :=
  with_state (set_current_step (step_id step)) m.

(** [_execute_step]. The recursion is on the nesting of [sub_steps]:
    a loop handler receives its sub-steps bound to [_execute_step]. *)
Fixpoint _execute_step (step : Step) : M W (option string) :=
  let subs := map _execute_step (sub_steps step) in
  fun m =>
    let m := entering step m in
    match handlers (action step) with
    | None => (Ok None, m)
    | Some kind =>
        match run_handler kind step subs
                (log_call (CallHandler (step_id step) kind) m) with
        | (Ok next_step, m') => (Ok next_step, record_success step m')
        | (Raise (StepFailedError msg), m') =>
            (Raise (StepFailedError msg), record_fatal step m')
        | (Raise (Exception msg), m') =>
            (Ok (on_error step), record_error step msg m')
        end
    end.

(** The call [await handler(step)] inside [_execute_step]. *)
Definition dispatch (kind : HandlerKind) (step : Step) : M W (option string) :=
  fun m =>
    run_handler kind step (map _execute_step (sub_steps step))
      (log_call (CallHandler (step_id step) kind) m).

(** The value of [current_index] for the next turn of the loop of
    [run], from what [_execute_step] returned. *)
Definition next_index (steps : list Step) (current_index : nat)
    (next_step_id : option string) : nat :=
  if opt_truthy next_step_id then
    let next_index :=
      _get_step_index steps (default EmptyString next_step_id) in
    if 0 <=? next_index then Z.to_nat next_index else S current_index
  else S current_index.

(** The [while] loop of [run]; [None] when the fuel runs out before the
    loop ends. [nth_error] fails exactly when
    [current_index >= len(steps)]. *)
Fixpoint run_loop (fuel : nat) (steps : list Step) (current_index : nat)
    (m : Machine W) : option (result unit * Machine W) :=
  match fuel with
  | O => None
  | S fuel' =>
      match nth_error steps current_index with
      | None => Some (Ok tt, m)
      | Some step =>
          match _execute_step step m with
          | (Raise e, m') => Some (Raise e, m')
          | (Ok next_step_id, m') =>
              run_loop fuel' steps
                (next_index steps current_index next_step_id) m'
          end
      end
  end.

Definition end_workflow (status : string) (m : Machine W) : Machine W :=
  log_report (EvWorkflowEnd status (variables (state m))) m.

(** The machine after [report.start_workflow]. *)
Definition started (wf : Workflow) (m : Machine W) : Machine W :=
  log_report
    (EvWorkflowStart (wf_name wf)
       (default (VStr EmptyString) (variables (state m) !! "selected_client")))
    m.

(** The entry that the [except StepFailedError] of [run] appends. *)
Definition record_abort (msg : string) (m : Machine W) : Machine W :=
  with_state
    (append_error (mkError (current_step (state m)) msg (Some true))) m.

(** [run], on a browser context that is already open. An exception
    other than [StepFailedError] would leave [run] without the final
    event. *)
Definition run (fuel : nat) (wf : Workflow) (m : Machine W)
  : option (result unit * Machine W) :=
  match run_loop fuel (wf_steps wf) O (started wf m) with
  | None => None
  | Some (Ok _, m') => Some (Ok tt, end_workflow "completed" m')
  | Some (Raise (StepFailedError msg), m') =>
      Some (Ok tt, end_workflow "failed" (record_abort msg m'))
  | Some (Raise e, m') => Some (Raise e, m')
  end.

End Handlers.

(** A computation keeps [R] when every run relates the machine before
    to the machine after, whether it returns or raises. *)
Definition keeps {W A : Type} (R : Machine W -> Machine W -> Prop)
    (c : M W A) : Prop :=
  forall m, R m (snd (c m)).

(** A computation that never raises [StepFailedError]. *)
Definition never_step_failed {W A : Type} (c : M W A) : Prop :=
  forall m msg, fst (c m) <> Raise (StepFailedError msg).

(** [completed_steps] only grows. *)
Definition completed_grows {W : Type} (m m' : Machine W) : Prop :=
  exists l, completed_steps (state m') = completed_steps (state m) ++ l.

Definition same_core {W : Type} (m m' : Machine W) : Prop :=
  core m = core m'.

(** The report only grows. *)
Definition report_grows {W : Type} (m m' : Machine W) : Prop :=
  exists evs, report m' = report m ++ evs.

(** What every step of a handler satisfies: the core is untouched and the
    report only grows. *)
Definition unchanged {W : Type} (m m' : Machine W) : Prop :=
  core m = core m' /\ report_grows m m'.

End Engine.

(** ** Concrete pages for examples *)

Module Fixtures.
Import PyStr PyDate Resolver Engine.

(** A page small enough to write down: the checked column ids, the VAT
    returns listed, and the date text of each row of a generic list. *)
Record Page : Type := mkPage {
  pg_checked : list string;
  pg_vat : list VatReturn;
  pg_rows : list string }.

(** The column id that a selector built by [selector_of] names. *)
Definition id_of_selector (selector : string) : option string :=
  match strip_prefix ("[data-automationid=" +:+ dq) selector with
  | Some rest =>
      let n := (String.length rest - 2)%nat in
      if String.eqb (drop n rest) (dq +:+ "]")
      then Some (String.substring 0 n rest)
      else None
  | None => None
  end.

(** A click on a column toggles it. *)
Definition toggle (id : string) (w : Page) : Page :=
  if mem_str id (pg_checked w)
  then mkPage (List.filter (fun x => negb (String.eqb x id)) (pg_checked w))
         (pg_vat w) (pg_rows w)
  else mkPage (pg_checked w ++ [id]) (pg_vat w) (pg_rows w).

(** A browser over [Page]: a click on a selector that names no column
    times out, every other call succeeds; [outcome] says what each
    browser-facing handler returns or raises. *)
Definition page_browser (outcome : Step -> result (option string)) : Browser Page :=
  {| clock := fun _ => mkDate 2024 6 1;
     handler_oracle := fun _ step _ w => (outcome step, [], w);
     get_checked := fun w => (Reply (pg_checked w), w);
     scroll_into_view := fun _ w => (Reply tt, w);
     click := fun selector w =>
                match id_of_selector selector with
                | Some id => (Reply tt, toggle id w)
                | None => (Fault "Timeout 3000ms exceeded", w)
                end;
     wait_for_list := fun w => (Reply tt, w);
     vat_page_issues := fun w => (Reply None, w);
     get_vat_returns := fun w => (Reply (pg_vat w), w);
     click_review := fun _ _ w => (Reply true, w);
     has_preparation_prompt := fun w => (Reply false, w);
     navigate_back := fun w => (Reply tt, w);
     count_rows := fun _ w => (Reply (length (pg_rows w)), w);
     date_text := fun _ i w => (Reply (nth_error (pg_rows w) i), w);
     action_visible := fun _ _ w => (Reply true, w);
     action_click := fun _ _ w => (Reply tt, w) |}.

Definition empty_page : Page := mkPage [] [] [].

Definition start_machine (w : Page) : Machine Page :=
  mkMachine initial_state [] w [].

(** A step with only an id, an action and an [on_error] target. *)
Definition simple_step (id action : string) (on_err : option string) : Step :=
  mkStep (Some id) (Some action) EmptyString false on_err None
         [] None None "start" None true [].

(** Handlers succeed, except that of the step named [A]. *)
Definition fails_at_A (e : exn) (step : Step) : result (option string) :=
  if bool_decide (step_id step = Some "A") then Raise e else Ok None.

Definition always_ok (step : Step) : result (option string) := Ok None.

Definition vat_return (range start stop button : string) (i : Z) : VatReturn :=
  mkVatReturn range start stop i button.

(** Three VAT returns as the page lists them, newest first. *)
Definition three_returns : list VatReturn :=
  [ vat_return "15 Apr 2024 - 14 Jul 2024" "15 Apr 2024" "14 Jul 2024" "btn-3" 0;
    vat_return "01 Apr 2024 - 30 Jun 2024" "01 Apr 2024" "30 Jun 2024" "btn-2" 1;
    vat_return "31 Mar 2024 - 29 Jun 2024" "31 Mar 2024" "29 Jun 2024" "btn-1" 2 ].

Definition loop_step (action : string) (filter : option string)
    (date_sel : option string) (subs : list Step) : Step :=
  mkStep (Some "loop") (Some action) EmptyString false None None
         [] filter date_sel "start" None true subs.

(** The steps of the examples. *)
Definition step_A : Step := simple_step "A" "click" None.
Definition step_A_on_error_C : Step := simple_step "A" "click" (Some "C").
Definition step_B : Step := simple_step "B" "fill" None.
Definition step_C : Step := simple_step "C" "capture_state" None.
Definition step_probe : Step := simple_step "probe" "check_url" None.

(** The handler of [check] returns the jump target [done]. *)
Definition jumps_to_done (step : Step) : result (option string) :=
  if bool_decide (step_id step = Some "check") then Ok (Some "done")
  else Ok None.

Definition jump_steps : list Step :=
  [ simple_step "check" "check_url" None;
    simple_step "login" "click" None;
    simple_step "done" "capture_state" None ].

(** A [select_columns] step asking for two columns, and a page on which
    exactly these two are checked. *)
Definition two_columns_step : Step :=
  mkStep (Some "cols") (Some "select_columns") EmptyString false None None
         [ mkColumn (Some (selector_of "date--body--checkbox")) (Some "Date");
           mkColumn (Some (selector_of "debit--body--checkbox")) (Some "Debit") ]
         None None "start" None true [].

Definition two_columns_page : Page :=
  mkPage ["debit--body--checkbox"; "date--body--checkbox"] [] [].

(** The same list of columns with another choice checked. *)
Definition other_columns_page : Page :=
  mkPage ["credit--body--checkbox"; "date--body--checkbox"] [] [].

(** The machine after a first run of the step on a page where another
    choice of columns was checked. *)
Definition first_select_run : Machine Page :=
  snd (_execute_select_columns (page_browser always_ok) two_columns_step
         (start_machine other_columns_page)).

(** A generic list step with an action button on each row. *)
Definition rows_step (filter : option string) (subs : list Step) : Step :=
  mkStep (Some "loop") (Some "loop_elements") EmptyString false None None
         [] filter (Some ".date") "start" (Some ".review") true subs.

Definition three_rows : list string :=
  ["15 Apr 2024 - 14 Jul 2024"; "01 Apr 2024 - 30 Jun 2024";
   "31 Mar 2024 - 29 Jun 2024"].

(** The buttons reviewed and the rows acted on, in order. *)
Definition reviewed (cs : list Call) : list string :=
  omap (fun c => match c with
                 | CallClickReview button _ => Some button
                 | _ => None
                 end) cs.

Definition rows_clicked (cs : list Call) : list nat :=
  omap (fun c => match c with
                 | CallActionClick i => Some i
                 | _ => None
                 end) cs.

Definition step_export : Step := simple_step "export" "click_and_download" None.

(** A workflow of one step, run on a page. *)
Definition run_single (outcome : Step -> result (option string)) (step : Step)
    (w : Page) : option (result unit * Machine Page) :=
  run (page_browser outcome) ∅ 2 (mkWorkflow "single" [step]) (start_machine w).

Definition calls_of (r : option (result unit * Machine Page)) : list Call :=
  match r with
  | Some (_, m) => calls m
  | None => []
  end.

Definition processed_count (r : option (result unit * Machine Page))
  : option value :=
  match r with
  | Some (_, m) => variables (state m) !! "loop_processed_count"
  | None => None
  end.

End Fixtures.

(** ** Notions used in the statements *)

Module Notions.
Import PyStr PyDate.

(** Every character of [s] satisfies [p]. *)
Fixpoint all_chars (p : ascii -> bool) (s : string) : bool :=
  match s with
  | EmptyString => true
  | String c r => p c && all_chars p r
  end.

(** The day after a calendar date. *)
Definition next_day (dt : datetime) : datetime :=
  if day dt <? days_in_month (year dt) (month dt)
  then mkDate (year dt) (month dt) (day dt + 1)
  else if month dt <? 12 then mkDate (year dt) (month dt + 1) 1
  else mkDate (year dt + 1) 1 1.

End Notions.

Module EngineNotions.
Import Engine.

(** [any(e.get('fatal') for e in state.errors)], the test that [app.py]
    makes on the state that [run] returns. *)
Definition has_fatal_error (errors : list ErrorEntry) : bool :=
  existsb is_fatal errors.

(** [errors] only grows, and by entries that are not fatal. *)
Definition errors_grow {W : Type} (m m' : Machine W) : Prop :=
  exists l, errors (state m') = errors (state m) ++ l
            /\ has_fatal_error l = false.

(** The columns of a [select_columns] step whose [selector] is absent or
    empty. *)
Definition without_selector (cols : list Column) : list Column :=
  List.filter (fun col => negb (opt_truthy (col_selector col))) cols.

End EngineNotions.

Module MoreFixtures.
Import PyStr Engine Fixtures.

(** A step that names itself in [on_error]. *)
Definition step_A_on_error_A : Step := simple_step "A" "click" (Some "A").

(** A [select_columns] step one of whose columns has no selector. *)
Definition column_without_selector_step : Step :=
  mkStep (Some "cols") (Some "select_columns") EmptyString false None None
         [ mkColumn (Some (selector_of "date--body--checkbox")) (Some "Date");
           mkColumn None (Some "Debit") ]
         None None "start" None true [].

End MoreFixtures.

(** ** More of the engine *)

Module Lookup.
Import PyStr Engine.

(** [_get_step_by_id]: the first step with that id. *)
Fixpoint _get_step_by_id (steps : list Step) (id : string) : option Step :=
  match steps with
  | [] => None
  | step :: rest =>
      if bool_decide (step_id step = Some id) then Some step
      else _get_step_by_id rest id
  end.

End Lookup.

(** ** The company name of a downloaded file *)

Module Company.
Import PyStr.

(** [s.replace(a, b)] for one-character [a] and [b]. *)
Fixpoint replace_char (a b : ascii) (s : string) : string :=
  match s with
  | EmptyString => EmptyString
  | String c r => String (if Ascii.eqb c a then b else c) (replace_char a b r)
  end.

Definition newline : ascii := ascii_of_nat 10.

(** Whether [-VAT] or [-vat] stands at the start of [s]. *)
Definition dash_vat (s : string) : bool :=
  match strip_prefix "-VAT" s, strip_prefix "-vat" s with
  | None, None => false
  | _, _ => true
  end.

(** Group 1 of [re.match(r'^(.+?)-(?:VAT|vat)', s)]: the shortest prefix
    of one character or more, none of them a newline, after which [-VAT]
    or [-vat] stands. *)
Fixpoint match_vat (s : string) : option string :=
  match s with
  | EmptyString => None
  | String c r =>
      if Ascii.eqb c newline then None
      else if dash_vat r then Some (String c EmptyString)
      else option_map (String c) (match_vat r)
  end.

(** The class [[-_]]. *)
Definition is_sep (c : ascii) : bool := Ascii.eqb c "-" || Ascii.eqb c "_".

Definition starts_sep (s : string) : bool :=
  match s with
  | String c _ => is_sep c
  | EmptyString => false
  end.

(** [re.split(r'[-_]{2,}|_-_|-_|_-', s)]. Each of the four alternatives
    starts with two characters of the class, and the first alternative
    then takes the whole run of them: a match is a maximal run of two or
    more. [in_run] says that such a run is being passed over; [cur] is
    the piece being read. *)
Fixpoint re_split_runs (in_run : bool) (cur s : string) : list string :=
  match s with
  | EmptyString => [cur]
  | String c r =>
      if is_sep c && (in_run || starts_sep r)
      then if in_run then re_split_runs true cur r
           else cur :: re_split_runs true EmptyString r
      else re_split_runs false (cur +:+ String c EmptyString) r
  end.

Section Stem.

(** [Path(filename).stem], left to [pathlib]. *)
Variable stem : string -> string.

(** [_extract_company_from_filename] *)
Definition _extract_company_from_filename (filename : string) : string :=
let name_without_ext := stem filename in
if contains "_-_" name_without_ext then
  let company_part := nth 0 (split "_-_" name_without_ext) EmptyString in
  strip (replace_char "_" " " company_part)
else
  match match_vat name_without_ext with
  | Some group1 =>
      replace_char "_" " " (replace_char "-" " " (strip group1))
  | None =>
      match re_split_runs false EmptyString name_without_ext with
      | part0 :: _ => strip (replace_char "_" " " part0)
      | [] => strip (replace_char "_" " " name_without_ext)
      end
  end.

End Stem.

End Company.

(** ** The handlers that drive one element of the page *)

Module Leaf.
Import PyStr Resolver Engine.

(** An entry of [conditions] of a [check_url] step. *)
Record Condition : Type := mkCondition {
  cond_contains : option string;
  cond_matches : option string;
  cond_goto_step : option string }.

(** The keys of a step that the handlers of this part read and [Step]
    does not hold. [None] is an absent key; a flag holds the truth value
    of its key; [fill_value] is the key [value]; [expect_new_page] is
    [step.get('expect_popup') or step.get('expect_new_tab')]. *)
Record StepArgs : Type := mkArgs {
  url : option string;
  selectors : list string;
  fill_value : option string;
  wait_visible : bool;
  key : option string;
  expect_new_page : bool;
  checked : option bool;
  save_as : option string;
  extract_pattern : option string;
  patterns : list string;
  conditions : list Condition;
  default_step : option string;
  script : option string;
  save_to : option string }.

(** The calls on [self._page] and on its locators that these handlers
    make. A locator is named by its selector. [pw_click_for_new_page] is
    the click inside [expect_page], up to [self._page = new_page];
    [pw_set_location] is the [evaluate] that assigns
    [window.location.href]; [pw_evaluate] gives [str(result)], or [None]
    for the result [None]; [re_search] is [re.search] read as a
    condition, which fails on a pattern that does not compile, and
    [re_extract] gives the group that [_execute_read_text] keeps. *)
Record Playwright (W : Type) : Type := mkPlaywright {
  pw_url : W -> string;
  pw_goto : string -> W -> reply unit * W;
  pw_set_location : string -> W -> reply unit * W;
  pw_wait_for_load_state : W -> reply unit * W;
  pw_is_visible : string -> W -> reply bool * W;
  pw_click : string -> W -> reply unit * W;
  pw_click_for_new_page : string -> W -> reply unit * W;
  pw_wait_for_visible : string -> W -> reply unit * W;
  pw_fill : string -> string -> W -> reply unit * W;
  pw_press : string -> W -> reply unit * W;
  pw_is_checked : string -> W -> reply bool * W;
  pw_input_value : string -> W -> reply string * W;
  pw_tag_name : string -> W -> reply string * W;
  pw_text_content : string -> W -> reply (option string) * W;
  pw_wait_for_url : string -> W -> reply unit * W;
  pw_wait_for_selector : string -> W -> reply unit * W;
  pw_screenshot : string -> W -> reply unit * W;
  pw_evaluate : string -> W -> reply (option string) * W;
  re_search : string -> string -> reply bool;
  re_extract : string -> string -> reply (option string) }.
Arguments mkPlaywright {W}.
Arguments pw_url {W} _.
Arguments pw_goto {W} _.
Arguments pw_set_location {W} _.
Arguments pw_wait_for_load_state {W} _.
Arguments pw_is_visible {W} _.
Arguments pw_click {W} _.
Arguments pw_click_for_new_page {W} _.
Arguments pw_wait_for_visible {W} _.
Arguments pw_fill {W} _.
Arguments pw_press {W} _.
Arguments pw_is_checked {W} _.
Arguments pw_input_value {W} _.
Arguments pw_tag_name {W} _.
Arguments pw_text_content {W} _.
Arguments pw_wait_for_url {W} _.
Arguments pw_wait_for_selector {W} _.
Arguments pw_screenshot {W} _.
Arguments pw_evaluate {W} _.
Arguments re_search {W} _.
Arguments re_extract {W} _.

Section LeafHandlers.

Context {W : Type}.

(** The clock, the page, [self.env_vars], and [str] of a list of
  strings as an f-string writes it. *)
Variable br : Browser W.
Variable pw : Playwright W.
Variable env_vars : gmap string string.
Variable repr_list : list string -> string.

(** A call on the page: the world moves on and a fault is raised as an
  exception. *)
Definition page_call {A : Type} (op : W -> reply A * W) : M W A :=
fun m =>
  let '(r, w) := op (world m) in
  match r with
  | Reply a => (Ok a, set_world w m)
  | Fault msg => (Raise (Exception msg), set_world w m)
  end.

(** A pure library call that may raise. *)
Definition pure_call {A : Type} (r : reply A) : M W A :=
fun m =>
  match r with
  | Reply a => (Ok a, m)
  | Fault msg => (Raise (Exception msg), m)
  end.

(** [try: c  except Exception as e: h e] *)
Definition try_except {A : Type} (c : M W A) (h : exn -> M W A) : M W A :=
fun m =>
  match c m with
  | (Ok a, m') => (Ok a, m')
  | (Raise e, m') => h e m'
  end.

(** One turn of a loop whose body is a [try] with [except Exception:
  continue]: the body gives [true] when it returned from the function
  and [false] when it reached its end. *)
Definition attempt (body next : M W bool) : M W bool :=
fun m =>
  match body m with
  | (Ok true, m') => (Ok true, m')
  | (Ok false, m') => next m'
  | (Raise _, m') => next m'
  end.

(** The end of a handler none of whose selectors worked. *)
Definition not_found (step : Step) (msg : string) (target : option string)
: M W (option string) :=
if negb (optional step) then raise (StepFailedError msg) else ret target.

(** [_execute_goto] *)
Definition _execute_goto (step : Step) (args : StepArgs) : M W (option string) :=
match url args with
| None => raise (Exception "KeyError: 'url'")
| Some u =>
    let* url := resolve br env_vars u in
    fun m =>
      let current_url := pw_url pw (world m) in
      try_except
        (let* _ := page_call (pw_goto pw url) in
         let* reload :=
           (fun m1 =>
              let new_url := pw_url pw (world m1) in
              (Ok (String.eqb new_url current_url
                   && negb (contains url current_url)), m1)) in
         let* _ :=
           if reload : bool then
             let* _ := page_call (pw_set_location pw url) in
             page_call (pw_wait_for_load_state pw)
           else ret tt in
         ret None)
        (fun _ => ret (on_error step)) m
end.

(** [_execute_fill] *)
Fixpoint fill_each (args : StepArgs) (value : string) (selectors : list string)
: M W bool :=
match selectors with
| [] => ret false
| selector :: rest =>
    attempt
      (let* _ :=
         if wait_visible args
         then page_call (pw_wait_for_visible pw selector)
         else ret tt in
       let* _ := page_call (pw_fill pw selector value) in
       ret true)
      (fill_each args value rest)
end.

Definition _execute_fill (step : Step) (args : StepArgs) : M W (option string) :=
let* value := resolve br env_vars (default EmptyString (fill_value args)) in
let* filled := fill_each args value (selectors args) in
if filled : bool then ret None
else not_found step
       ("No matching selector found for fill: " +:+ repr_list (selectors args))
       (on_error step).

(** [_execute_press_key] *)
Definition _execute_press_key (step : Step) (args : StepArgs)
: M W (option string) :=
let key := default "Enter" (key args) in
try_except
  (let* _ := page_call (pw_press pw key) in
   ret None)
  (fun e =>
     not_found step
       ("Failed to press key '" +:+ key +:+ "': " +:+ exn_msg e)
       (on_error step)).

(** [_execute_click] *)
Fixpoint click_each (args : StepArgs) (selectors : list string) : M W bool :=
match selectors with
| [] => ret false
| selector :: rest =>
    attempt
      (let* resolved_selector := resolve br env_vars selector in
       let* visible := page_call (pw_is_visible pw resolved_selector) in
       if visible : bool then
         let* _ :=
           if expect_new_page args
           then page_call (pw_click_for_new_page pw resolved_selector)
           else page_call (pw_click pw resolved_selector) in
         ret true
       else ret false)
      (click_each args rest)
end.

Definition _execute_click (step : Step) (args : StepArgs) : M W (option string) :=
let* clicked := click_each args (selectors args) in
if clicked : bool then ret None
else not_found step
       ("No matching selector found for click: " +:+ repr_list (selectors args))
       (on_error step).

(** [_execute_check_url] *)
Fixpoint check_conditions (current_url : string)
  (default_target : option string) (conditions : list Condition)
: M W (option string) :=
match conditions with
| [] => ret default_target
| condition :: rest =>
    if opt_truthy (cond_contains condition)
       && contains (lower_str (default EmptyString (cond_contains condition)))
            current_url
    then ret (cond_goto_step condition)
    else if opt_truthy (cond_matches condition) then
      let* found :=
        pure_call (re_search pw
                     (default EmptyString (cond_matches condition))
                     current_url) in
      if found : bool then ret (cond_goto_step condition)
      else check_conditions current_url default_target rest
    else check_conditions current_url default_target rest
end.

Definition _execute_check_url (step : Step) (args : StepArgs)
: M W (option string) :=
fun m =>
  let current_url := lower_str (pw_url pw (world m)) in
  check_conditions current_url (default_step args) (conditions args) m.

(** The end of the two waiting handlers: a screen shot whose failure is
  ignored, then the error or the [on_timeout] target. *)
Definition timed_out (step : Step) (msg : string) : M W (option string) :=
let screenshot_path :=
  "downloads/debug_" +:+ default "unknown" (step_id step) +:+ ".png" in
let* _ := swallow (page_call (pw_screenshot pw screenshot_path)) in
not_found step msg (on_timeout step).

(** [_execute_wait_for_url] *)
Fixpoint wait_url_each (patterns : list string) : M W bool :=
match patterns with
| [] => ret false
| pattern :: rest =>
    attempt
      (let* _ := page_call (pw_wait_for_url pw pattern) in
       ret true)
      (wait_url_each rest)
end.

Definition _execute_wait_for_url (step : Step) (args : StepArgs)
: M W (option string) :=
let* ready := wait_url_each (patterns args) in
if ready : bool then ret None
else timed_out step
       ("Timeout waiting for URL pattern: " +:+ repr_list (patterns args)).

(** [_execute_wait_for_selector] *)
Fixpoint wait_selector_each (selectors : list string) : M W bool :=
match selectors with
| [] => ret false
| selector :: rest =>
    attempt
      (let* resolved_selector := resolve br env_vars selector in
       let* _ := page_call (pw_wait_for_selector pw resolved_selector) in
       ret true)
      (wait_selector_each rest)
end.

Definition _execute_wait_for_selector (step : Step) (args : StepArgs)
: M W (option string) :=
let* found := wait_selector_each (selectors args) in
if found : bool then ret None
else timed_out step
       ("Timeout waiting for selector: " +:+ repr_list (selectors args)).

(** [_execute_ensure_checked] *)
Fixpoint ensure_each (should_be_checked : bool) (selectors : list string)
: M W bool :=
match selectors with
| [] => ret false
| selector :: rest =>
    attempt
      (let* visible := page_call (pw_is_visible pw selector) in
       if visible : bool then
         let* is_checked := page_call (pw_is_checked pw selector) in
         let* _ :=
           if negb (Bool.eqb is_checked should_be_checked)
           then page_call (pw_click pw selector)
           else ret tt in
         ret true
       else ret false)
      (ensure_each should_be_checked rest)
end.

Definition _execute_ensure_checked (step : Step) (args : StepArgs)
: M W (option string) :=
let should_be_checked := default true (checked args) in
let* found := ensure_each should_be_checked (selectors args) in
if found : bool then ret None
else not_found step
       ("No matching checkbox found: " +:+ repr_list (selectors args))
       (on_error step).

(** [_execute_read_input] *)
Fixpoint read_input_each (args : StepArgs) (selectors : list string)
: M W bool :=
match selectors with
| [] => ret false
| selector :: rest =>
    attempt
      (let* visible := page_call (pw_is_visible pw selector) in
       if visible : bool then
         let* value := page_call (pw_input_value pw selector) in
         let* _ :=
           if opt_truthy (save_as args)
           then _store_variable (default EmptyString (save_as args))
                  (VStr value)
           else ret tt in
         ret true
       else ret false)
      (read_input_each args rest)
end.

Definition _execute_read_input (step : Step) (args : StepArgs)
: M W (option string) :=
let* found := read_input_each args (selectors args) in
if found : bool then ret None
else not_found step
       ("No matching input found: " +:+ repr_list (selectors args))
       (on_error step).

(** [_execute_read_text] *)
Fixpoint read_text_each (args : StepArgs) (selectors : list string)
: M W bool :=
match selectors with
| [] => ret false
| selector :: rest =>
    attempt
      (let* visible := page_call (pw_is_visible pw selector) in
       if visible : bool then
         let* tag_name := page_call (pw_tag_name pw selector) in
         let* value :=
           if String.eqb tag_name "input"
           then let* v := page_call (pw_input_value pw selector) in
                ret (Some v)
           else page_call (pw_text_content pw selector) in
         if opt_truthy value then
           let value := strip (default EmptyString value) in
           let* value :=
             if opt_truthy (extract_pattern args) then
               let* group :=
                 pure_call (re_extract pw
                              (default EmptyString (extract_pattern args))
                              value) in
               ret (default value group)
             else ret value in
           let* _ :=
             if opt_truthy (save_as args) && truthy value
             then _store_variable (default EmptyString (save_as args))
                    (VStr value)
             else ret tt in
           ret true
         else ret false
       else ret false)
      (read_text_each args rest)
end.

Definition _execute_read_text (step : Step) (args : StepArgs)
: M W (option string) :=
let* found := read_text_each args (selectors args) in
if found : bool then ret None
else not_found step
       ("No matching element found: " +:+ repr_list (selectors args))
       (on_error step).

(** [_execute_script] *)
Definition _execute_script (step : Step) (args : StepArgs)
: M W (option string) :=
let script := default EmptyString (script args) in
try_except
  (let* result := page_call (pw_evaluate pw script) in
   let* _ :=
     match result with
     | Some text =>
         if opt_truthy (save_to args)
         then _store_variable (default EmptyString (save_to args))
                (VStr text)
         else ret tt
     | None => ret tt
     end in
   ret None)
  (fun e =>
     not_found step
       ("Script execution failed: " +:+ exn_msg e)
       (on_error step)).

(** The entries of the table of [_execute_step] for these handlers. *)
Definition leaf_handler (kind : HandlerKind)
: option (Step -> StepArgs -> M W (option string)) :=
match kind with
| HGoto => Some _execute_goto
| HFill => Some _execute_fill
| HPressKey => Some _execute_press_key
| HClick => Some _execute_click
| HEnsureChecked => Some _execute_ensure_checked
| HCheckUrl => Some _execute_check_url
| HWaitForUrl => Some _execute_wait_for_url
| HWaitForSelector => Some _execute_wait_for_selector
| HReadInput => Some _execute_read_input
| HReadText => Some _execute_read_text
| HExecuteScript => Some _execute_script
| _ => None
end.

(** The step an optional step of each kind names for its failure. *)
Definition failure_target (kind : HandlerKind) (step : Step) : option string :=
match kind with
| HWaitForUrl | HWaitForSelector => on_timeout step
| _ => on_error step
end.

(** What one entry of [conditions] says of the lower-cased URL. *)
Definition condition_holds (current_url : string) (condition : Condition)
: reply bool :=
if opt_truthy (cond_contains condition)
   && contains (lower_str (default EmptyString (cond_contains condition)))
        current_url
then Reply true
else if opt_truthy (cond_matches condition)
then re_search pw (default EmptyString (cond_matches condition)) current_url
else Reply false.

End LeafHandlers.

(** A loop over selectors returns whether one of them worked. *)
Definition returns_flag {W : Type} (c : M W bool) : Prop :=
  forall m, exists b, (c m).1 = Ok b.

(** The three ways a handler of this part ends: it did its work, or it
    could not and the step is optional, or it could not and the step is
    not. *)
Definition ends_by_rule (step : Step) (target : option string)
    (r : result (option string)) : Prop :=
  r = Ok None
  \/ (optional step = true /\ r = Ok target)
  \/ (optional step = false /\ exists msg, r = Raise (StepFailedError msg)).

(** The state, the report and the record of calls are as before: only
    the page has moved. *)
Definition same_records {W : Type} (m m' : Machine W) : Prop :=
  state m' = state m /\ report m' = report m /\ calls m' = calls m.

End Leaf.

Module LeafFixtures.
Import PyStr PyDate Engine Fixtures Leaf.

(** A page on which the selectors of [visible] are those of visible
    elements, every call succeeds, and no pattern matches. *)
Definition simple_playwright (visible : list string) : Playwright Page :=
  {| pw_url := fun _ => "https://go.xero.com/Dashboard";
     pw_goto := fun _ w => (Reply tt, w);
     pw_set_location := fun _ w => (Reply tt, w);
     pw_wait_for_load_state := fun w => (Reply tt, w);
     pw_is_visible := fun selector w => (Reply (mem_str selector visible), w);
     pw_click := fun _ w => (Reply tt, w);
     pw_click_for_new_page := fun _ w => (Reply tt, w);
     pw_wait_for_visible := fun _ w => (Reply tt, w);
     pw_fill := fun _ _ w => (Reply tt, w);
     pw_press := fun _ w => (Reply tt, w);
     pw_is_checked := fun _ w => (Reply true, w);
     pw_input_value := fun _ w => (Reply "31 Mar 2025", w);
     pw_tag_name := fun _ w => (Reply "input", w);
     pw_text_content := fun _ w => (Reply None, w);
     pw_wait_for_url := fun _ w => (Fault "Timeout 30000ms exceeded", w);
     pw_wait_for_selector := fun _ w => (Fault "Timeout 30000ms exceeded", w);
     pw_screenshot := fun _ w => (Reply tt, w);
     pw_evaluate := fun _ w => (Reply None, w);
     re_search := fun _ _ => Reply false;
     re_extract := fun _ _ => Reply None |}.

(** The keys of a step that has only [selectors]. *)
Definition only_selectors (selectors : list string) : StepArgs :=
  mkArgs None selectors None false None false None None None [] [] None
         None None.

(** [str] of a list, for the lists of the examples. *)
Definition repr_of_examples (l : list string) : string :=
  match l with
  | [] => "[]"
  | _ => "[...]"
  end.

End LeafFixtures.

(** ** The two download handlers *)

Module Downloading.
Import PyStr Resolver Download Engine Company Leaf.

(** What Playwright tells of a download: [suggested_filename], and the
    answers of [await download.path()] and [await download.failure()]. *)
Record DownloadInfo : Type := mkDownload {
  suggested_filename : string;
  dl_path : reply (option string);
  dl_failure : reply (option string) }.

(** The calls that start a download and that touch the files.
    [fs_expect_download] is the block [async with expect_download] of
    [_execute_wait_for_download] and [fs_click_expect_download] that of
    [_execute_click_and_download], with the click on the element found;
    [fs_file_size] is [Path(p).exists()] followed by [stat().st_size],
    [None] for a file that does not exist; [fs_stat_size] is
    [file_path.stat().st_size]. *)
Record Files (W : Type) : Type := mkFiles {
  fs_expect_download : W -> reply DownloadInfo * W;
  fs_click_expect_download : string -> W -> reply DownloadInfo * W;
  fs_file_size : string -> W -> reply (option nat) * W;
  fs_mkdir : string -> W -> reply unit * W;
  fs_save_as : string -> W -> reply unit * W;
  fs_stat_size : string -> W -> reply nat * W }.
Arguments mkFiles {W}.
Arguments fs_expect_download {W} _.
Arguments fs_click_expect_download {W} _.
Arguments fs_file_size {W} _.
Arguments fs_mkdir {W} _.
Arguments fs_save_as {W} _.
Arguments fs_stat_size {W} _.

(** [_format_download_filename] on what the handlers pass for the
    company name: [re.sub] fails on a value that is not a string, and a
    value that does not count as true gives [Unknown]. *)
Definition format_download_filename_value (variables : gmap string value)
    (workflow_name : string) (company_name : value) (file_ext : string)
  : result (string * string * string) :=
  match company_name with
  | VStr s => _format_download_filename variables workflow_name s file_ext
  | _ =>
      if value_truthy company_name
      then Raise (Exception "TypeError: expected string or bytes-like object")
      else _format_download_filename variables workflow_name EmptyString file_ext
  end.

Section DownloadHandlers.

Context {W : Type}.

(** The page and the files; [str] of a list; [Path(name).stem] and
  [Path(name).suffix]; [str(Path(a) / b)]; whether an exception, given
  by its message, is an [asyncio.TimeoutError]; and the name of the
  workflow, [self.workflow.get('name', '')]. *)
Variable pw : Playwright W.
Variable fs : Files W.
Variable repr_list : list string -> string.
Variable stem : string -> string.
Variable suffix : string -> string.
Variable join : string -> string -> string.
Variable is_asyncio_timeout : string -> bool.
Variable workflow_name : string.

(** The looks at the temporary file, [attempts] of them at most: the
  first size that is positive, or 0. *)
Fixpoint poll_temp_size (attempts : nat) (temp_path : string) : M W nat :=
match attempts with
| O => ret O
| S k =>
    let* size := page_call (fs_file_size fs temp_path) in
    match size with
    | Some (S n) => ret (S n)
    | _ => poll_temp_size k temp_path
    end
end.

(** From [await download.path()] to the test of the temporary size: the
  same lines in both handlers. *)
Definition check_download (download : DownloadInfo) : M W unit :=
let* temp_path := pure_call (dl_path download) in
let* failure := pure_call (dl_failure download) in
if opt_truthy failure
then raise (StepFailedError
              ("Download failed: " +:+ default EmptyString failure))
else
  match temp_path with
  | None => raise (StepFailedError "Download completed but no file path returned")
  | Some temp_path =>
      let* temp_size := poll_temp_size 10 temp_path in
      if Nat.eqb temp_size 0
      then raise (StepFailedError
                    "Download completed but temp file is 0 bytes - possible session expiry or server error")
      else ret tt
  end.

(** [self.state.variables.get('company_name', client_name)] *)
Definition stored_company_name : M W value :=
fun m =>
  let client_name :=
    default (VStr EmptyString) (variables (state m) !! "selected_client") in
  (Ok (default client_name (variables (state m) !! "company_name")), m).

Definition log_download (filename path : string) : M W unit :=
fun m => (Ok tt, log_report (EvDownload filename path) m).

(** From [if company_name:] to the end of the [try] block: the same
  lines in both handlers. *)
Definition save_download (save_to original_filename : string)
  (company_name : value) : M W (option string) :=
let* _ :=
  if value_truthy company_name
  then _store_variable "company_name" company_name
  else ret tt in
let file_ext := suffix original_filename in
let* names :=
  (fun m =>
     (format_download_filename_value (variables (state m)) workflow_name
        company_name file_ext, m)) in
let '(new_filename, client_folder, subfolder) := names in
let save_path := join (join save_to client_folder) subfolder in
let* _ := page_call (fs_mkdir fs save_path) in
let file_path := join save_path new_filename in
let* _ := page_call (fs_save_as fs file_path) in
let* final_size := page_call (fs_stat_size fs file_path) in
if Nat.eqb final_size 0
then raise (StepFailedError "Download completed but file is 0 bytes")
else
  let* _ := _store_variable "downloaded_file" (VStr file_path) in
  let* _ := log_download new_filename file_path in
  ret None.

(** The [try] block of [_execute_wait_for_download]. *)
Definition wait_for_download_body (args : StepArgs) : M W (option string) :=
let* download := page_call (fs_expect_download fs) in
let original_filename := suggested_filename download in
let* _ := check_download download in
let* company_name := stored_company_name in
let company_name :=
  if negb (value_truthy company_name) && contains "_-_" original_filename
  then VStr (strip (nth 0 (split "_-_" original_filename) EmptyString))
  else company_name in
save_download (default "downloads/" (save_to args)) original_filename
  company_name.

(** [_execute_wait_for_download] *)
Definition _execute_wait_for_download (step : Step) (args : StepArgs)
: M W (option string) :=
try_except (wait_for_download_body args)
  (fun e =>
     not_found step ("Download failed: " +:+ exn_msg e) (on_error step)).

(** The search of [_execute_click_and_download] for the element to
  click: the first selector whose element is visible. *)
Fixpoint find_element (selectors : list string) : M W (option string) :=
match selectors with
| [] => ret None
| selector :: rest =>
    fun m =>
      match page_call (pw_is_visible pw selector) m with
      | (Ok true, m') => (Ok (Some selector), m')
      | (Ok false, m') => find_element rest m'
      | (Raise _, m') => find_element rest m'
      end
end.

(** The [try] block of [_execute_click_and_download], for the element
  found. *)
Definition click_and_download_body (args : StepArgs) (element : string)
: M W (option string) :=
let* download := page_call (fs_click_expect_download fs element) in
let original_filename := suggested_filename download in
let* _ := check_download download in
let* company_name := stored_company_name in
let company_name :=
  if negb (value_truthy company_name)
  then VStr (_extract_company_from_filename stem original_filename)
  else company_name in
save_download (default "downloads/" (save_to args)) original_filename
  company_name.

(** [_execute_click_and_download] *)
Definition _execute_click_and_download (step : Step) (args : StepArgs)
: M W (option string) :=
let* element := find_element (selectors args) in
match element with
| None =>
    raise (StepFailedError
             ("No element found to click: " +:+ repr_list (selectors args)))
| Some element =>
    try_except (click_and_download_body args element)
      (fun e =>
         not_found step
           (match e with
            | Exception msg =>
                if is_asyncio_timeout msg
                then "Download timeout: no download started"
                else "Click and download failed: " +:+ msg
            | StepFailedError msg => "Click and download failed: " +:+ msg
            end)
           (on_error step))
end.

End DownloadHandlers.

(** The variables with which the file name of a download is built: the
    company name is stored first, when it counts as true. *)
Definition variables_for_name {W : Type} (company_name : value)
    (m : Machine W) : gmap string value :=
  if value_truthy company_name
  then <["company_name" := company_name]> (variables (state m))
  else variables (state m).

End Downloading.

Module DownloadFixtures.
Import PyStr Engine Fixtures Leaf Downloading.

(** Files for the examples: the download named [name] arrives, with the
    failure [failure] if any, and every file has [size] bytes. *)
Definition simple_files (name : string) (failure : option string) (size : nat)
  : Files Page :=
  {| fs_expect_download :=
       fun w => (Reply (mkDownload name (Reply (Some "/tmp/download")) (Reply failure)), w);
     fs_click_expect_download :=
       fun _ w => (Reply (mkDownload name (Reply (Some "/tmp/download")) (Reply failure)), w);
     fs_file_size := fun _ w => (Reply (Some size), w);
     fs_mkdir := fun _ w => (Reply tt, w);
     fs_save_as := fun _ w => (Reply tt, w);
     fs_stat_size := fun _ w => (Reply size, w) |}.

(** Paths for the examples: every file is a spreadsheet, and paths are
    joined with a slash. *)
Definition xlsx_stem (name : string) : string :=
  String.substring 0 (String.length name - 5) name.

Definition xlsx_suffix (name : string) : string := ".xlsx".

Definition slash_join (a b : string) : string :=
  if is_empty b then a else a +:+ "/" +:+ b.

(** An optional step of a download. *)
Definition step_export_optional : Step :=
  mkStep (Some "export") (Some "wait_for_download") EmptyString true
         (Some "retry") None [] None None "start" None true [].

End DownloadFixtures.

(** * Theorems *)

Import PyStr PyDate Resolver Download Engine Fixtures.

#[local] Arguments String.append !_ _ : simpl nomatch.

(** ** Strings *)

Lemma strip_prefix_Some (p s r : string) :
  strip_prefix p s = Some r -> s = p +:+ r.
Proof.
  revert s r; induction p as [|a p IH]; intros s r; simpl.
  - intros H; injection H as ->; reflexivity.
  - destruct s as [|b s]; [discriminate|].
    destruct (Ascii.eqb a b) eqn:E; [|discriminate].
    apply Ascii.eqb_eq in E; subst b.
    intros H; simpl; f_equal; apply IH, H.
Qed.

Lemma span_app (p : ascii -> bool) (s a b : string) :
  span p s = (a, b) -> s = a +:+ b.
Proof.
  revert a b; induction s as [|c s IH]; intros a b; simpl.
  - intros H; injection H as <- <-; reflexivity.
  - destruct (p c).
    + destruct (span p s) as [a' b'] eqn:E.
      intros H; injection H as <- <-. simpl. f_equal. apply IH; reflexivity.
    + intros H; injection H as <- <-; reflexivity.
Qed.

Lemma mem_char_app (c : ascii) (a b : string) :
  mem_char c (a +:+ b) = mem_char c a || mem_char c b.
Proof.
  induction a as [|x a IH]; simpl; [reflexivity|].
  rewrite IH, orb_assoc; reflexivity.
Qed.

Lemma append_nil_r (s : string) : s +:+ EmptyString = s.
Proof. induction s as [|c s IH]; simpl; [reflexivity|]. rewrite IH. reflexivity. Qed.

Lemma append_assoc' (a b c : string) : (a +:+ b) +:+ c = a +:+ (b +:+ c).
Proof. induction a as [|x a IH]; simpl; [reflexivity|]. rewrite IH. reflexivity. Qed.

(** A number printed in decimal holds no dollar sign. *)
Lemma string_of_uint_no_dollar (d : Decimal.uint) :
  mem_char "$" (NilEmpty.string_of_uint d) = false.
Proof. induction d; simpl; auto. Qed.

Lemma str_of_Z_no_dollar (n : Z) : mem_char "$" (str_of_Z n) = false.
Proof.
  unfold str_of_Z, NilZero.string_of_int, NilZero.string_of_uint.
  destruct (Z.to_int n) as [d|d]; destruct d; simpl;
    try reflexivity; apply string_of_uint_no_dollar.
Qed.

Lemma zero_pad_no_dollar (w : nat) (n : Z) : mem_char "$" (zero_pad w n) = false.
Proof.
  unfold zero_pad. rewrite mem_char_app, str_of_Z_no_dollar, orb_false_r.
  induction (w - String.length (str_of_Z n))%nat as [|k IH]; simpl; auto.
Qed.

(** ** The resolver *)

Lemma parse_date_truthy (s : string) (d : datetime) :
  _parse_date s = Some d -> truthy s = true.
Proof. destruct s; [discriminate|reflexivity]. Qed.

Lemma no_dollar_no_placeholder (s : string) :
  mem_char "$" s = false -> has_placeholder s = false.
Proof.
  induction s as [|c s IH]; [reflexivity|].
  cbn [mem_char]. intros H. apply orb_false_iff in H as [Hc Hs].
  cbn [has_placeholder strip_prefix]. rewrite Ascii.eqb_sym, Hc.
  apply IH, Hs.
Qed.

Lemma opt_fmt_close_brace (r : string) (g : option string) (rest : string) :
  opt_fmt_close r = Some (g, rest) -> mem_char "}" r = true.
Proof.
  unfold opt_fmt_close.
  destruct (strip_prefix ":" r) as [r1|] eqn:E1.
  - destruct (span _ r1) as [f r2] eqn:E2.
    destruct f as [|c f]; [discriminate|].
    destruct (strip_prefix "}" r2) as [r3|] eqn:E3; [|discriminate].
    intros _.
    apply strip_prefix_Some in E1, E3. apply span_app in E2. subst.
    rewrite !mem_char_app. simpl. rewrite !orb_true_r. reflexivity.
  - destruct (strip_prefix "}" r) as [r3|] eqn:E3; [|discriminate].
    intros _. apply strip_prefix_Some in E3. subst. reflexivity.
Qed.

Lemma match_today_placeholder (s : string) x :
  match_today s = Some x -> has_placeholder s = true.
Proof.
  unfold match_today.
  destruct (strip_prefix "${TODAY" s) as [r|] eqn:E; [|discriminate].
  destruct x as [g rest]; intros H.
  apply opt_fmt_close_brace in H. apply strip_prefix_Some in E. subst s.
  simpl. rewrite H. reflexivity.
Qed.

Lemma match_date_add_placeholder (s : string) x :
  match_date_add s = Some x -> has_placeholder s = true.
Proof.
  unfold match_date_add.
  destruct (strip_prefix "${DATE_ADD:" s) as [r|] eqn:E; [|discriminate].
  destruct (span is_word r) as [name r1] eqn:E1.
  destruct name as [|c name]; [discriminate|].
  destruct (strip_prefix ":" r1) as [r2|] eqn:E2; [|discriminate].
  assert (Hr3 : forall sign r3,
             (match strip_prefix "-" r2 with
              | Some r3 => ("-", r3)
              | None => (EmptyString, r2)
              end) = (sign, r3) -> r2 = sign +:+ r3).
  { intros sign r3. destruct (strip_prefix "-" r2) as [r3'|] eqn:E3.
    - apply strip_prefix_Some in E3. intros H; injection H as <- <-. exact E3.
    - intros H; injection H as <- <-. reflexivity. }
  destruct (match strip_prefix "-" r2 with
            | Some r3 => ("-", r3)
            | None => (EmptyString, r2)
            end) as [sign r3] eqn:E3.
  specialize (Hr3 _ _ eq_refl).
  destruct (span is_digit r3) as [ds r4] eqn:E4.
  destruct ds as [|d ds]; [discriminate|].
  destruct (opt_fmt_close r4) as [[fmt rest]|] eqn:E5; [|discriminate].
  intros _. apply opt_fmt_close_brace in E5.
  apply strip_prefix_Some in E, E2. apply span_app in E1, E4. subst.
  repeat (progress (simpl; rewrite ?mem_char_app)).
  rewrite E5. rewrite !orb_true_r. reflexivity.
Qed.

Lemma match_var_placeholder (s : string) x :
  match_var s = Some x -> has_placeholder s = true.
Proof.
  unfold match_var.
  destruct (strip_prefix "${" s) as [r|] eqn:E; [|discriminate].
  destruct (span is_word r) as [name r1] eqn:E1.
  destruct name as [|c name]; [discriminate|].
  destruct (strip_prefix "}" r1) as [rest|] eqn:E2; [|discriminate].
  intros _. apply strip_prefix_Some in E, E2. apply span_app in E1. subst.
  simpl. rewrite !mem_char_app. simpl. rewrite !orb_true_r. reflexivity.
Qed.

Lemma has_placeholder_tail (c : ascii) (r : string) :
  has_placeholder (String c r) = false -> has_placeholder r = false.
Proof.
  change (has_placeholder (String c r))
    with (match strip_prefix "${" (String c r) with
          | Some r' => mem_char "}" r'
          | None => false
          end || has_placeholder r).
  intros H. apply orb_false_iff in H. apply H.
Qed.

(** A pass whose pattern matches only at a placeholder leaves a string
    without placeholders as it is. *)
Lemma re_sub_no_placeholder {C : Type} (m : string -> option (C * string))
    (repl : C -> result string) :
  (forall s x, m s = Some x -> has_placeholder s = true) ->
  forall s, has_placeholder s = false -> re_sub m repl s = Ok s.
Proof.
  intros Hm s. unfold re_sub. induction s as [|c s IH]; intros H.
  - reflexivity.
  - cbn [re_sub_from].
    destruct (m (String c s)) as [x|] eqn:E.
    + apply Hm in E. congruence.
    + rewrite IH; [reflexivity|]. eapply has_placeholder_tail, H.
Qed.

Lemma resolve_str_no_placeholder now env vars (s : string) :
  has_placeholder s = false -> resolve_str now env vars s = Ok s.
Proof.
  intros H. unfold resolve_str.
  rewrite (re_sub_no_placeholder _ _ match_today_placeholder s H). simpl.
  rewrite (re_sub_no_placeholder _ _ match_date_add_placeholder s H). simpl.
  apply (re_sub_no_placeholder _ _ match_var_placeholder s H).
Qed.

(** C8. [_resolve_variable] returns its argument unchanged when the
    argument is a string in which no [${] is followed by a closing brace,
    and when the argument is not a string at all. *)
Theorem resolve_identity_without_placeholder :
  forall (now : datetime) (env_vars : gmap string string)
         (variables : gmap string value) (v : value),
    match v with
    | VStr s => has_placeholder s = false
    | _ => True
    end ->
    _resolve_variable now env_vars variables v = Ok v.
Proof.
  intros now env vars [s|n|r] H; simpl; try reflexivity.
  rewrite resolve_str_no_placeholder by exact H. reflexivity.
Qed.

Lemma resolve_identity_without_placeholder_witness :
  has_placeholder "https://go.xero.com/$Reports/{id}?q=$ {x" = false /\
  _resolve_variable (mkDate 2024 6 1) ∅ ∅
    (VStr "https://go.xero.com/$Reports/{id}?q=$ {x")
  = Ok (VStr "https://go.xero.com/$Reports/{id}?q=$ {x").
Proof.
  split; [reflexivity|].
  apply (resolve_identity_without_placeholder (mkDate 2024 6 1) ∅ ∅
           (VStr "https://go.xero.com/$Reports/{id}?q=$ {x")).
  reflexivity.
Defined.









(** ** Download file names *)







(** ** The engine: shared facts *)

Ltac case_if :=
  match goal with
  | |- context [if ?b then _ else _] => destruct b
  end.

Lemma Step_nested_ind (P : Step -> Prop) :
  (forall s, Forall P (sub_steps s) -> P s) -> forall s, P s.
Proof.
  intros H. fix IH 1. intros s. apply H.
  destruct s as [? ? ? ? ? ? ? ? ? ? ? ? subs]. simpl.
  induction subs as [|x subs IHsubs]; constructor; [apply IH | exact IHsubs].
Qed.

Lemma mem_str_In (s : string) (l : list string) :
  mem_str s l = true <-> In s l.
Proof.
  unfold mem_str. rewrite existsb_exists. split.
  - intros (x & Hx & E). apply String.eqb_eq in E. subst. exact Hx.
  - intros H. exists s. split; [exact H | apply String.eqb_refl].
Qed.

Lemma dispatched_app (a b : list Call) :
  dispatched (a ++ b) = dispatched a ++ dispatched b.
Proof. unfold dispatched. apply omap_app. Qed.

Lemma clicks_app (a b : list Call) : clicks (a ++ b) = clicks a ++ clicks b.
Proof. unfold clicks. apply omap_app. Qed.

Lemma unchanged_trans {W : Type} (a b c : Machine W) :
  unchanged a b -> unchanged b c -> unchanged a c.
Proof.
  intros [H1 [e1 R1]] [H2 [e2 R2]]. split; [congruence|].
  exists (e1 ++ e2). rewrite R2, R1, app_assoc. reflexivity.
Qed.

Section EngineFacts.

Context {W : Type} (br : Browser W) (env_vars : gmap string string).

Lemma execute_step_unfold (step : Step) (m : Machine W) :
  _execute_step br env_vars step m =
  match handlers (action step) with
  | None => (Ok None, entering step m)
  | Some kind =>
      match dispatch br env_vars kind step (entering step m) with
      | (Ok next_step, m') => (Ok next_step, record_success step m')
      | (Raise (StepFailedError msg), m') =>
          (Raise (StepFailedError msg), record_fatal step m')
      | (Raise (Exception msg), m') =>
          (Ok (on_error step), record_error step msg m')
      end
  end.
Proof. destruct step; reflexivity. Qed.

(** *** Computations that keep a relation *)

Section Keeps.

Variable R : Machine W -> Machine W -> Prop.
Hypothesis R_trans : forall a b c, R a b -> R b c -> R a c.
Hypothesis R_prim : forall a b, unchanged a b -> R a b.

Ltac prim :=
  apply R_prim; split;
  [ reflexivity
  | first [ exists []; rewrite app_nil_r; reflexivity
          | eexists; reflexivity ] ].

Lemma keeps_ret {A : Type} (a : A) : keeps R (@ret W A a).
Proof. intros m. prim. Qed.

Lemma keeps_raise {A : Type} (e : exn) : keeps R (@raise W A e).
Proof. intros m. prim. Qed.

Lemma keeps_bind {A B : Type} (c : M W A) (k : A -> M W B) :
  keeps R c -> (forall a, keeps R (k a)) -> keeps R (bind c k).
Proof.
  intros Hc Hk m. unfold bind. specialize (Hc m).
  destruct (c m) as [[a|e] m']; simpl in *.
  - eapply R_trans; [exact Hc | apply Hk].
  - exact Hc.
Qed.

Lemma keeps_swallow {A : Type} (c : M W A) :
  keeps R c -> keeps R (swallow c).
Proof. intros Hc m. apply Hc. Qed.

Lemma keeps_call {A : Type} (c : Call) (op : W -> reply A * W) :
  dispatched [c] = [] -> keeps R (call c op).
Proof.
  intros Hd m. unfold call.
  destruct (op (world m)) as [r w].
  assert (Hcore : core m = core (set_world w (log_call c m))).
  { unfold core, set_world, log_call. simpl.
    rewrite dispatched_app, Hd, app_nil_r. reflexivity. }
  destruct r; simpl; apply R_prim; (split; [exact Hcore|]);
    exists []; rewrite app_nil_r; reflexivity.
Qed.

Lemma keeps_store (key : string) (v : value) :
  keeps R (@_store_variable W key v).
Proof.
  intros m. unfold _store_variable. cbn [snd].
  case_if; prim.
Qed.

Lemma keeps_log_skip (reason context : string) :
  keeps R (@log_skip W reason context).
Proof. intros m. prim. Qed.

Lemma keeps_resolve (s : string) : keeps R (resolve br env_vars s).
Proof. intros m. prim. Qed.

Lemma apply_effects_unchanged (l : list effect) (m : Machine W) :
  unchanged m (apply_effects l m).
Proof.
  revert m. induction l as [|e l IH]; intros m; simpl.
  - split; [reflexivity|]. exists []. rewrite app_nil_r. reflexivity.
  - eapply unchanged_trans; [|apply IH].
    destruct e; simpl.
    + unfold _store_variable. cbn [snd].
      case_if; (split; [reflexivity|]);
        [eexists; reflexivity | exists []; rewrite app_nil_r; reflexivity].
    + split; [reflexivity|]. exists []. rewrite app_nil_r. reflexivity.
    + split; [reflexivity|]. eexists; reflexivity.
    + split; [reflexivity|]. eexists; reflexivity.
Qed.

Lemma keeps_oracle (kind : HandlerKind) (step : Step) :
  keeps R (oracle_handler br kind step).
Proof.
  intros m. unfold oracle_handler.
  destruct (handler_oracle br kind step _ _) as [[r effs] w]. simpl.
  apply R_prim.
  eapply unchanged_trans; [|apply apply_effects_unchanged].
  split; [reflexivity|]. exists []. rewrite app_nil_r. reflexivity.
Qed.

Lemma keeps_js_get_checked : keeps R (js_get_checked br).
Proof.
  apply keeps_bind; [apply keeps_call; reflexivity|].
  intros a. apply keeps_ret.
Qed.

Lemma keeps_scroll_and_click (selector : string) :
  keeps R (scroll_and_click br selector).
Proof.
  apply keeps_bind; [apply keeps_call; reflexivity|].
  intros _. apply keeps_call; reflexivity.
Qed.

Lemma keeps_deselect_each (l : list string) : keeps R (deselect_each br l).
Proof.
  induction l as [|s l IH]; simpl; [apply keeps_ret|].
  apply keeps_bind; [apply keeps_swallow, keeps_scroll_and_click|].
  intros _. exact IH.
Qed.

Lemma keeps_select_each (checked : list string) (cols : list Column) :
  forall failed, keeps R (select_each br checked cols failed).
Proof.
  induction cols as [|col cols IH]; intros failed; simpl; [apply keeps_ret|].
  destruct (negb (opt_truthy (col_selector col))); [apply IH|].
  destruct (mem_str _ checked); [apply IH|].
  intros m.
  pose proof (keeps_scroll_and_click (default EmptyString (col_selector col)) m) as H.
  destruct (scroll_and_click br _ m) as [[u|e] m']; simpl in *;
    (eapply R_trans; [exact H | apply IH]).
Qed.

Lemma keeps_select_columns (step : Step) :
  keeps R (_execute_select_columns br step).
Proof.
  unfold _execute_select_columns.
  apply keeps_bind; [apply keeps_js_get_checked|]. intros checked.
  apply keeps_bind; [apply keeps_deselect_each|]. intros _.
  apply keeps_bind; [apply keeps_js_get_checked|]. intros checked'.
  apply keeps_bind; [apply keeps_select_each|]. intros failed.
  destruct (_ && _); [apply keeps_raise | apply keeps_ret].
Qed.

Lemma keeps_run_sub_steps (subs : list (M W (option string))) :
  Forall (keeps R) subs -> keeps R (run_sub_steps subs).
Proof.
  induction 1 as [|sub subs Hsub _ IH]; simpl; [apply keeps_ret|].
  intros m. specialize (Hsub m).
  destruct (sub m) as [[a|[msg|msg]] m']; simpl in *.
  - eapply R_trans; [exact Hsub | apply IH].
  - exact Hsub.
  - exact Hsub.
Qed.

Lemma keeps_resolve_filter_date (f : option string) :
  keeps R (resolve_filter_date br env_vars f).
Proof.
  unfold resolve_filter_date. destruct (opt_truthy f); [|apply keeps_ret].
  apply keeps_bind; [apply keeps_resolve|]. intros a. apply keeps_ret.
Qed.

Lemma keeps_navigate_back : keeps R (_navigate_back_to_vat_list br).
Proof. apply keeps_call; reflexivity. Qed.

Lemma keeps_vat_items (subs : list (M W (option string))) (total : nat)
    (items : list VatReturn) :
  Forall (keeps R) subs ->
  forall i seen processed,
    keeps R (vat_items br subs total i items seen processed).
Proof.
  intros Hsubs.
  induction items as [|vr items IH]; intros i seen processed; simpl;
    [apply keeps_ret|].
  destruct (mem_str (buttonId vr) seen); [apply IH|].
  do 4 (apply keeps_bind; [apply keeps_store|]; intros _).
  apply keeps_bind; [apply keeps_call; reflexivity|]. intros success.
  destruct success; simpl; [|apply IH].
  apply keeps_bind; [apply keeps_call; reflexivity|]. intros has_prompt.
  destruct has_prompt.
  - apply keeps_bind; [apply keeps_log_skip|]. intros _.
    apply keeps_bind; [apply keeps_navigate_back|]. intros _. apply IH.
  - apply keeps_bind; [apply keeps_run_sub_steps, Hsubs|]. intros failed.
    destruct failed.
    + apply keeps_bind; [apply keeps_navigate_back|]. intros _. apply IH.
    + apply keeps_bind;
        [apply keeps_swallow, keeps_call; reflexivity|].
      intros _. apply IH.
Qed.

Lemma keeps_loop_vat_returns (step : Step) (subs : list (M W (option string))) :
  Forall (keeps R) subs ->
  keeps R (_execute_loop_vat_returns br env_vars step subs).
Proof.
  intros Hsubs. unfold _execute_loop_vat_returns.
  apply keeps_bind; [apply keeps_swallow, keeps_call; reflexivity|].
  intros _.
  apply keeps_bind; [apply keeps_call; reflexivity|]. intros issues.
  destruct (opt_truthy issues).
  - apply keeps_bind; [apply keeps_store|]. intros _.
    apply keeps_bind; [apply keeps_log_skip|]. intros _. apply keeps_ret.
  - apply keeps_bind; [apply keeps_resolve_filter_date|]. intros fd.
    apply keeps_bind; [apply keeps_call; reflexivity|]. intros vrs.
    destruct (partition_vat fd _) as [to_process skipped].
    apply keeps_bind; [apply keeps_vat_items, Hsubs|]. intros processed.
    apply keeps_bind; [apply keeps_store|]. intros _. apply keeps_ret.
Qed.

Lemma keeps_click_action (step : Step) (i : nat) :
  keeps R (click_action br step i).
Proof.
  unfold click_action. destruct (opt_truthy _); [|apply keeps_ret].
  intros m.
  pose proof (keeps_call (CallActionVisible i) (action_visible br step i)
                eq_refl m) as H1.
  destruct (call (CallActionVisible i) _ m) as [[[|]|e] m1]; simpl in *;
    try exact H1.
  pose proof (keeps_call (CallActionClick i) (action_click br step i)
                eq_refl m1) as H2.
  destruct (call (CallActionClick i) _ m1) as [[u|e] m2]; simpl in *;
    (eapply R_trans; [exact H1 | exact H2]).
Qed.

Lemma keeps_row_is_before (step : Step) (fd : option datetime) (i : nat) :
  keeps R (row_is_before br step fd i).
Proof.
  unfold row_is_before. destruct fd as [fd|]; [|apply keeps_ret].
  destruct (opt_truthy _); [|apply keeps_ret].
  intros m.
  pose proof (keeps_call (CallDateText i) (date_text br step i)
                eq_refl m) as H1.
  destruct (call (CallDateText i) _ m) as [[t|e] m1]; simpl in *;
    [|exact H1].
  destruct (opt_truthy t); [|exact H1].
  destruct (_extract_date_from_range _ _); exact H1.
Qed.

Lemma keeps_loop_rows (step : Step) (subs : list (M W (option string)))
    (fd : option datetime) (indices : list nat) :
  Forall (keeps R) subs ->
  forall processed skipped,
    keeps R (loop_rows br step subs fd indices processed skipped).
Proof.
  intros Hsubs.
  induction indices as [|i rest IH]; intros processed skipped; simpl;
    [apply keeps_ret|].
  apply keeps_bind; [apply keeps_row_is_before|]. intros before.
  destruct before; [apply IH|].
  apply keeps_bind; [apply keeps_click_action|]. intros clicked.
  destruct clicked; simpl; [|apply IH].
  apply keeps_bind; [apply keeps_run_sub_steps, Hsubs|]. intros _.
  apply IH.
Qed.

Lemma keeps_loop_elements (step : Step) (subs : list (M W (option string))) :
  Forall (keeps R) subs ->
  keeps R (_execute_loop_elements br env_vars step subs).
Proof.
  intros Hsubs. unfold _execute_loop_elements.
  apply keeps_bind; [apply keeps_resolve_filter_date|]. intros fd.
  apply keeps_bind; [apply keeps_call; reflexivity|]. intros count.
  apply keeps_bind; [apply keeps_loop_rows, Hsubs|]. intros counts.
  apply keeps_bind; [apply keeps_store|]. intros _. apply keeps_ret.
Qed.

Lemma keeps_run_handler (kind : HandlerKind) (step : Step)
    (subs : list (M W (option string))) :
  Forall (keeps R) subs ->
  keeps R (run_handler br env_vars kind step subs).
Proof.
  intros Hsubs. destruct kind; simpl;
    first [ apply keeps_oracle
          | apply keeps_select_columns
          | apply keeps_loop_elements, Hsubs
          | apply keeps_loop_vat_returns, Hsubs ].
Qed.

End Keeps.

End EngineFacts.

(** ** Where [StepFailedError] can come from *)

Lemma bind_result_no_sf {A B : Type} (r : result A) (f : A -> result B) :
  (forall msg, r <> Raise (StepFailedError msg)) ->
  (forall a msg, f a <> Raise (StepFailedError msg)) ->
  forall msg, bind_result r f <> Raise (StepFailedError msg).
Proof.
  intros Hr Hf msg. destruct r as [a|e]; simpl; [apply Hf|].
  intros H. injection H as ->. exact (Hr msg eq_refl).
Qed.

Lemma re_sub_from_no_sf {C : Type} (m : string -> option (C * string))
    (repl : C -> result string) :
  (forall g msg, repl g <> Raise (StepFailedError msg)) ->
  forall s skip msg, re_sub_from m repl skip s <> Raise (StepFailedError msg).
Proof.
  intros Hrepl s. induction s as [|c s IH]; intros skip msg; simpl.
  - discriminate.
  - destruct skip as [|k]; [|apply IH].
    destruct (m (String c s)) as [[g rest]|].
    + apply bind_result_no_sf; [intros; apply Hrepl|].
      intros out msg'. apply bind_result_no_sf; [intros; apply IH|].
      intros; discriminate.
    + apply bind_result_no_sf; [intros; apply IH|]. intros; discriminate.
Qed.

Lemma resolve_str_no_sf now env vars (s msg : string) :
  resolve_str now env vars s <> Raise (StepFailedError msg).
Proof.
  unfold resolve_str, re_sub.
  apply bind_result_no_sf.
  { intros. apply re_sub_from_no_sf. intros; discriminate. }
  intros s1 msg1. apply bind_result_no_sf.
  { intros. apply re_sub_from_no_sf. intros [[name days] fmt] msg2.
    unfold replace_date_add.
    destruct (vars !! name) as [v|]; [|discriminate].
    destruct (negb (value_truthy v)); [discriminate|].
    destruct v; try discriminate.
    destruct (_parse_date s0); [|discriminate].
    apply bind_result_no_sf; [|intros; discriminate].
    intros msg3. unfold add_days.
    repeat case_if; discriminate. }
  intros s2 msg2. apply re_sub_from_no_sf. intros name msg3.
  unfold replace. destruct (env !! name); [discriminate|].
  destruct (vars !! name) as [[| |]|]; discriminate.
Qed.

Section StepFailedFacts.

Context {W : Type} (br : Browser W) (env_vars : gmap string string).

Lemma nsf_ret {A : Type} (a : A) : never_step_failed (@ret W A a).
Proof. intros m msg. discriminate. Qed.

Lemma nsf_bind {A B : Type} (c : M W A) (k : A -> M W B) :
  never_step_failed c -> (forall a, never_step_failed (k a)) ->
  never_step_failed (bind c k).
Proof.
  intros Hc Hk m msg. unfold bind. specialize (Hc m).
  destruct (c m) as [[a|e] m']; simpl in *; [apply Hk|].
  intros H. injection H as ->. exact (Hc msg eq_refl).
Qed.

Lemma nsf_swallow {A : Type} (c : M W A) : never_step_failed (swallow c).
Proof. intros m msg. discriminate. Qed.

Lemma nsf_call {A : Type} (c : Call) (op : W -> reply A * W) :
  never_step_failed (call c op).
Proof.
  intros m msg. unfold call. destruct (op (world m)) as [[a|e] w];
    discriminate.
Qed.

Lemma nsf_store (key : string) (v : value) :
  never_step_failed (@_store_variable W key v).
Proof. intros m msg. discriminate. Qed.

Lemma nsf_log_skip (reason context : string) :
  never_step_failed (@log_skip W reason context).
Proof. intros m msg. discriminate. Qed.

Lemma nsf_resolve (s : string) : never_step_failed (resolve br env_vars s).
Proof. intros m msg. apply resolve_str_no_sf. Qed.

Lemma nsf_resolve_filter_date (f : option string) :
  never_step_failed (resolve_filter_date br env_vars f).
Proof.
  unfold resolve_filter_date. destruct (opt_truthy f); [|apply nsf_ret].
  apply nsf_bind; [apply nsf_resolve|]. intros; apply nsf_ret.
Qed.

Lemma nsf_run_sub_steps (subs : list (M W (option string))) :
  never_step_failed (run_sub_steps subs).
Proof.
  induction subs as [|sub subs IH]; simpl; [apply nsf_ret|].
  intros m msg. destruct (sub m) as [[a|[e|e]] m']; simpl;
    [apply IH | discriminate | discriminate].
Qed.

Lemma nsf_vat_items (subs : list (M W (option string))) (total : nat)
    (items : list VatReturn) :
  forall i seen processed,
    never_step_failed (vat_items br subs total i items seen processed).
Proof.
  induction items as [|vr items IH]; intros i seen processed; simpl;
    [apply nsf_ret|].
  destruct (mem_str (buttonId vr) seen); [apply IH|].
  do 4 (apply nsf_bind; [apply nsf_store|]; intros _).
  apply nsf_bind; [apply nsf_call|]. intros success.
  destruct success; simpl; [|apply IH].
  apply nsf_bind; [apply nsf_call|]. intros has_prompt.
  destruct has_prompt.
  - apply nsf_bind; [apply nsf_log_skip|]. intros _.
    apply nsf_bind; [apply nsf_call|]. intros _. apply IH.
  - apply nsf_bind; [apply nsf_run_sub_steps|]. intros failed.
    destruct failed.
    + apply nsf_bind; [apply nsf_call|]. intros _. apply IH.
    + apply nsf_bind; [apply nsf_swallow|]. intros _. apply IH.
Qed.

Lemma nsf_loop_vat_returns (step : Step) (subs : list (M W (option string))) :
  never_step_failed (_execute_loop_vat_returns br env_vars step subs).
Proof.
  unfold _execute_loop_vat_returns.
  apply nsf_bind; [apply nsf_swallow|]. intros _.
  apply nsf_bind; [apply nsf_call|]. intros issues.
  destruct (opt_truthy issues).
  - apply nsf_bind; [apply nsf_store|]. intros _.
    apply nsf_bind; [apply nsf_log_skip|]. intros _. apply nsf_ret.
  - apply nsf_bind; [apply nsf_resolve_filter_date|]. intros fd.
    apply nsf_bind; [apply nsf_call|]. intros vrs.
    destruct (partition_vat fd _) as [to_process skipped].
    apply nsf_bind; [apply nsf_vat_items|]. intros processed.
    apply nsf_bind; [apply nsf_store|]. intros _. apply nsf_ret.
Qed.

Lemma nsf_click_action (step : Step) (i : nat) :
  never_step_failed (click_action br step i).
Proof.
  unfold click_action. destruct (opt_truthy _); [|apply nsf_ret].
  intros m msg.
  destruct (call (CallActionVisible i) _ m) as [[[|]|e] m1]; simpl;
    try discriminate.
  destruct (call (CallActionClick i) _ m1) as [[u|e] m2]; discriminate.
Qed.

Lemma nsf_row_is_before (step : Step) (fd : option datetime) (i : nat) :
  never_step_failed (row_is_before br step fd i).
Proof.
  unfold row_is_before. destruct fd as [fd|]; [|apply nsf_ret].
  destruct (opt_truthy _); [|apply nsf_ret].
  intros m msg.
  destruct (call (CallDateText i) _ m) as [[t|e] m1]; simpl;
    [|discriminate].
  destruct (opt_truthy t); [|discriminate].
  destruct (_extract_date_from_range _ _); discriminate.
Qed.

Lemma nsf_loop_rows (step : Step) (subs : list (M W (option string)))
    (fd : option datetime) (indices : list nat) :
  forall processed skipped,
    never_step_failed (loop_rows br step subs fd indices processed skipped).
Proof.
  induction indices as [|i rest IH]; intros processed skipped; simpl;
    [apply nsf_ret|].
  apply nsf_bind; [apply nsf_row_is_before|]. intros before.
  destruct before; [apply IH|].
  apply nsf_bind; [apply nsf_click_action|]. intros clicked.
  destruct clicked; simpl; [|apply IH].
  apply nsf_bind; [apply nsf_run_sub_steps|]. intros _. apply IH.
Qed.

Lemma nsf_loop_elements (step : Step) (subs : list (M W (option string))) :
  never_step_failed (_execute_loop_elements br env_vars step subs).
Proof.
  unfold _execute_loop_elements.
  apply nsf_bind; [apply nsf_resolve_filter_date|]. intros fd.
  apply nsf_bind; [apply nsf_call|]. intros count.
  apply nsf_bind; [apply nsf_loop_rows|]. intros counts.
  apply nsf_bind; [apply nsf_store|]. intros _. apply nsf_ret.
Qed.

Lemma same_core_trans (a b c : Machine W) :
  same_core a b -> same_core b c -> same_core a c.
Proof. unfold same_core. congruence. Qed.

Lemma same_core_prim (a b : Machine W) : unchanged a b -> same_core a b.
Proof. intros [H _]. exact H. Qed.

Lemma report_grows_trans (a b c : Machine W) :
  report_grows a b -> report_grows b c -> report_grows a c.
Proof.
  intros [e1 R1] [e2 R2]. exists (e1 ++ e2).
  rewrite R2, R1, app_assoc. reflexivity.
Qed.

Lemma report_grows_prim (a b : Machine W) : unchanged a b -> report_grows a b.
Proof. intros [_ H]. exact H. Qed.

(** A handler that raises [StepFailedError] is not a loop, and has
    written nothing that only the engine writes. *)
Lemma step_failed_same_core (kind : HandlerKind) (step : Step)
    (subs : list (M W (option string))) (m m1 : Machine W) (msg : string) :
  run_handler br env_vars kind step subs m = (Raise (StepFailedError msg), m1) ->
  same_core m m1.
Proof.
  intros H.
  assert (Hk : forall c : M W (option string),
             keeps same_core c -> c m = (Raise (StepFailedError msg), m1) ->
             same_core m m1).
  { intros c Hc E. specialize (Hc m). rewrite E in Hc. exact Hc. }
  destruct kind; simpl in H;
    first [ exact (Hk _ (keeps_oracle br same_core same_core_prim _ step) H)
          | exact (Hk _ (keeps_select_columns br same_core same_core_trans
                           same_core_prim step) H)
          | exfalso ].
  - pose proof (nsf_loop_elements step subs m msg) as N.
    rewrite H in N. apply N. reflexivity.
  - pose proof (nsf_loop_vat_returns step subs m msg) as N.
    rewrite H in N. apply N. reflexivity.
Qed.

(** A handler of a step without sub-steps writes nothing that only the
    engine writes. *)
Lemma leaf_same_core (kind : HandlerKind) (step : Step) :
  keeps same_core (run_handler br env_vars kind step []).
Proof.
  apply keeps_run_handler;
    [exact same_core_trans | exact same_core_prim | constructor].
Qed.

Lemma completed_grows_trans (a b c : Machine W) :
  completed_grows a b -> completed_grows b c -> completed_grows a c.
Proof.
  intros [l1 H1] [l2 H2]. exists (l1 ++ l2).
  rewrite H2, H1, app_assoc. reflexivity.
Qed.

Lemma completed_grows_prim (a b : Machine W) :
  unchanged a b -> completed_grows a b.
Proof.
  intros [H _]. exists []. rewrite app_nil_r.
  unfold core in H. injection H as _ H _ _. congruence.
Qed.

(** [_execute_step] only appends to [completed_steps], at any depth of
    nesting. *)
Lemma execute_step_grows (step : Step) :
  keeps completed_grows (_execute_step br env_vars step).
Proof.
  induction step as [step IH] using Step_nested_ind.
  intros m. rewrite execute_step_unfold.
  destruct (handlers (action step)) as [kind|]; simpl.
  - unfold dispatch.
    pose proof (keeps_run_handler br env_vars completed_grows
                  completed_grows_trans completed_grows_prim kind step
                  (map (_execute_step br env_vars) (sub_steps step))) as K.
    specialize (K ltac:(apply Forall_map; exact IH)
                  (log_call (CallHandler (step_id step) kind) (entering step m))).
    destruct (run_handler _ _ _ _ _ _) as [[next|[msg|msg]] m']; simpl in *.
    + destruct K as [l K]. exists (l ++ [step_id step]).
      simpl in *. rewrite K, app_assoc. reflexivity.
    + exact K.
    + exact K.
  - exists []. rewrite app_nil_r. reflexivity.
Qed.

End StepFailedFacts.

(** ** [_get_step_index] *)

Lemma get_step_index_from_found (steps : list Step) (t : string) :
  forall (base : Z) (j : nat) (target : Step),
    nth_error steps j = Some target ->
    step_id target = Some t ->
    (forall k s, (k < j)%nat -> nth_error steps k = Some s -> step_id s <> Some t) ->
    get_step_index_from base steps t = base + Z.of_nat j.
Proof.
  induction steps as [|s0 steps IH]; intros base j target Hn Hid Hbefore.
  - destruct j; discriminate.
  - simpl. destruct j as [|j].
    + injection Hn as ->. rewrite bool_decide_eq_true_2 by exact Hid. lia.
    + rewrite bool_decide_eq_false_2
        by (apply (Hbefore O s0); [lia | reflexivity]).
      rewrite (IH (base + 1) j target Hn Hid).
      * lia.
      * intros k s Hk Hs. apply (Hbefore (S k) s); [lia | exact Hs].
Qed.

Lemma get_step_index_from_none (steps : list Step) (t : string) :
  forall base : Z,
    (forall s, In s steps -> step_id s <> Some t) ->
    get_step_index_from base steps t = -1.
Proof.
  induction steps as [|s0 steps IH]; intros base H; simpl; [reflexivity|].
  rewrite bool_decide_eq_false_2 by (apply H; left; reflexivity).
  apply IH. intros s Hs. apply H. right. exact Hs.
Qed.

(** C10. [completed_steps] is append-only under [_execute_step]. A step
    with an unknown action returns nothing, is not appended and records no
    error. For a known action: whatever the handler did, it only appended
    (the ids of sub-steps it ran, and nothing when the step has no
    sub-steps); when the handler returned, with or without a jump target,
    [_execute_step] returns that value and appends exactly the step's id;
    when the handler raised, nothing is appended. *)
Theorem completed_steps_append_only :
  forall (W : Type) (br : Browser W) (env_vars : gmap string string)
         (step : Step) (m : Machine W),
    let r := _execute_step br env_vars step m in
    completed_grows m r.2
    /\ (handlers (action step) = None ->
        r.1 = Ok None
        /\ completed_steps (state r.2) = completed_steps (state m)
        /\ errors (state r.2) = errors (state m))
    /\ (forall kind r1 m1,
          handlers (action step) = Some kind ->
          dispatch br env_vars kind step (entering step m) = (r1, m1) ->
          completed_grows m m1
          /\ (sub_steps step = [] ->
              completed_steps (state m1) = completed_steps (state m))
          /\ match r1 with
             | Ok next_step =>
                 r.1 = Ok next_step
                 /\ completed_steps (state r.2)
                    = completed_steps (state m1) ++ [step_id step]
             | Raise _ =>
                 completed_steps (state r.2) = completed_steps (state m1)
             end).
Proof.
  intros W br env step m r. subst r. split; [|split].
  - apply execute_step_grows.
  - intros H. rewrite execute_step_unfold, H. simpl. auto.
  - intros kind r1 m1 Hh Hd.
    rewrite execute_step_unfold, Hh, Hd. split; [|split].
    + unfold dispatch in Hd.
      pose proof (keeps_run_handler br env completed_grows
                    (completed_grows_trans) (completed_grows_prim) kind step
                    (map (_execute_step br env) (sub_steps step))) as K.
      specialize (K ltac:(apply Forall_map, Forall_forall; intros;
                          apply execute_step_grows)
                    (log_call (CallHandler (step_id step) kind) (entering step m))).
      rewrite Hd in K. exact K.
    + intros Hsub. unfold dispatch in Hd. rewrite Hsub in Hd. simpl in Hd.
      pose proof (leaf_same_core br env kind step
                    (log_call (CallHandler (step_id step) kind) (entering step m)))
        as K.
      rewrite Hd in K. unfold same_core, core in K. simpl in K.
      injection K as _ K _ _. symmetry. exact K.
    + destruct r1 as [next|[msg|msg]]; simpl; auto.
Qed.

Lemma completed_steps_append_only_witness :
  handlers (action step_probe) = Some HCheckUrl
  /\ completed_steps
       (state (_execute_step (page_browser always_ok) ∅ step_probe
                 (start_machine empty_page)).2)
     = [Some "probe"].
Proof.
  split; [reflexivity|].
  destruct (completed_steps_append_only Page (page_browser always_ok) ∅
              step_probe (start_machine empty_page)) as (_ & _ & H).
  destruct (H HCheckUrl (Ok None)
              (log_call (CallHandler (Some "probe") HCheckUrl)
                 (entering step_probe (start_machine empty_page)))
              eq_refl eq_refl) as (_ & _ & _ & E).
  exact E.
Defined.

(** C5. When the handler of the step at index [i] returns a jump target
    [t] (a non-empty id), the next index is found by the scan of
    [_get_step_index]: if [j] is the first position of a step whose id is
    [t], the loop goes on at [j] itself; if no step has the id [t], the
    scan gives -1 and the loop goes on at [i + 1]. In both cases the step
    is recorded as a success first. *)
Theorem jump_target_resolution :
  forall (W : Type) (br : Browser W) (env_vars : gmap string string)
         (steps : list Step) (i : nat) (step : Step) (kind : HandlerKind)
         (t : string) (m m1 : Machine W) (fuel : nat),
    nth_error steps i = Some step ->
    handlers (action step) = Some kind ->
    dispatch br env_vars kind step (entering step m) = (Ok (Some t), m1) ->
    truthy t = true ->
    (forall (j : nat) (target : Step),
        nth_error steps j = Some target ->
        step_id target = Some t ->
        (forall k s, (k < j)%nat -> nth_error steps k = Some s ->
                     step_id s <> Some t) ->
        _get_step_index steps t = Z.of_nat j
        /\ next_index steps i (Some t) = j
        /\ run_loop br env_vars (S fuel) steps i m
           = run_loop br env_vars fuel steps j (record_success step m1))
    /\ ((forall s, In s steps -> step_id s <> Some t) ->
        _get_step_index steps t = -1
        /\ next_index steps i (Some t) = S i
        /\ run_loop br env_vars (S fuel) steps i m
           = run_loop br env_vars fuel steps (S i) (record_success step m1)).
Proof.
  intros W br env steps i step kind t m m1 fuel Hn Hh Hd Ht.
  assert (Hrun : forall n, next_index steps i (Some t) = n ->
            run_loop br env (S fuel) steps i m
            = run_loop br env fuel steps n (record_success step m1)).
  { intros n <-. cbn [run_loop]. rewrite Hn, execute_step_unfold, Hh, Hd.
    reflexivity. }
  split.
  - intros j target Hj Hid Hfirst.
    assert (Hidx : _get_step_index steps t = Z.of_nat j).
    { unfold _get_step_index.
      rewrite (get_step_index_from_found steps t 0 j target Hj Hid Hfirst). lia. }
    assert (Hnext : next_index steps i (Some t) = j).
    { unfold next_index. cbn [opt_truthy default from_option id]. rewrite Ht, Hidx.
      destruct (0 <=? Z.of_nat j) eqn:E; [apply Nat2Z.id | lia]. }
    auto.
  - intros Hnone.
    assert (Hidx : _get_step_index steps t = -1).
    { apply get_step_index_from_none, Hnone. }
    assert (Hnext : next_index steps i (Some t) = S i).
    { unfold next_index. cbn [opt_truthy default from_option id]. rewrite Ht, Hidx.
      reflexivity. }
    auto.
Qed.

Lemma jump_target_resolution_witness :
  _get_step_index jump_steps "done" = 2
  /\ next_index jump_steps 0 (Some "done") = 2%nat
  /\ run_loop (page_browser jumps_to_done) ∅ 3 jump_steps 0
       (start_machine empty_page)
     = run_loop (page_browser jumps_to_done) ∅ 2 jump_steps 2
         (record_success (simple_step "check" "check_url" None)
            (log_call (CallHandler (Some "check") HCheckUrl)
               (entering (simple_step "check" "check_url" None)
                  (start_machine empty_page)))).
Proof.
  destruct (jump_target_resolution Page (page_browser jumps_to_done) ∅
              jump_steps 0 (simple_step "check" "check_url" None) HCheckUrl
              "done" (start_machine empty_page)
              (log_call (CallHandler (Some "check") HCheckUrl)
                 (entering (simple_step "check" "check_url" None)
                    (start_machine empty_page)))
              2 eq_refl eq_refl eq_refl eq_refl) as [H _].
  apply (H 2%nat (simple_step "done" "capture_state" None) eq_refl eq_refl).
  intros k s Hk Hs.
  destruct k as [|[|k]]; [| |lia]; injection Hs as <-; discriminate.
Defined.

(** ** Failures *)

Lemma dispatch_step_failed_core {W : Type} (br : Browser W)
    (env_vars : gmap string string) (kind : HandlerKind) (step : Step)
    (m m1 : Machine W) (msg : string) :
  dispatch br env_vars kind step m = (Raise (StepFailedError msg), m1) ->
  current_step (state m1) = current_step (state m)
  /\ completed_steps (state m1) = completed_steps (state m)
  /\ errors (state m1) = errors (state m)
  /\ dispatched (calls m1) = dispatched (calls m) ++ [(step_id step, kind)].
Proof.
  unfold dispatch. intros H. apply step_failed_same_core in H.
  unfold same_core, core in H. simpl in H.
  rewrite dispatched_app in H. simpl in H.
  injection H as H1 H2 H3 H4. auto.
Qed.

Lemma dispatch_leaf_core {W : Type} (br : Browser W)
    (env_vars : gmap string string) (kind : HandlerKind) (step : Step)
    (m m1 : Machine W) (r : result (option string)) :
  sub_steps step = [] ->
  dispatch br env_vars kind step m = (r, m1) ->
  current_step (state m1) = current_step (state m)
  /\ completed_steps (state m1) = completed_steps (state m)
  /\ errors (state m1) = errors (state m)
  /\ dispatched (calls m1) = dispatched (calls m) ++ [(step_id step, kind)]
  /\ report_grows m m1.
Proof.
  unfold dispatch. intros Hsub H. rewrite Hsub in H. simpl in H.
  pose proof (leaf_same_core br env_vars kind step
                (log_call (CallHandler (step_id step) kind) m)) as K.
  pose proof (keeps_run_handler br env_vars report_grows
                report_grows_trans report_grows_prim kind step []
                ltac:(constructor)
                (log_call (CallHandler (step_id step) kind) m)) as G.
  rewrite H in K, G. unfold same_core, core in K. simpl in K, G.
  rewrite dispatched_app in K. simpl in K.
  injection K as H1 H2 H3 H4. auto 6.
Qed.

(** C1. In a workflow [A, B] started on a fresh state, when the handler of
    [A] raises [StepFailedError], [run] returns after that one dispatch
    (any fuel of at least one suffices): [completed_steps] is empty,
    [errors] holds exactly one entry, for [A] and with [fatal] true, the
    only handler dispatched is that of [A], nothing is called after it
    raised, and the final event of the report has status [failed]. The
    engine does not read the [optional] flag: the statement holds whatever
    its value. *)
Theorem step_failure_aborts_workflow :
  forall (W : Type) (br : Browser W) (env_vars : gmap string string)
         (name : string) (A B : Step) (kind : HandlerKind) (msg : string)
         (m m1 : Machine W) (fuel : nat),
    completed_steps (state m) = [] ->
    errors (state m) = [] ->
    calls m = [] ->
    handlers (action A) = Some kind ->
    dispatch br env_vars kind A
      (entering A (started (mkWorkflow name [A; B]) m))
    = (Raise (StepFailedError msg), m1) ->
    exists mf,
      run br env_vars (S fuel) (mkWorkflow name [A; B]) m = Some (Ok tt, mf)
      /\ completed_steps (state mf) = []
      /\ errors (state mf) = [mkError (step_id A) msg (Some true)]
      /\ dispatched (calls mf) = [(step_id A, kind)]
      /\ calls mf = calls m1
      /\ world mf = world m1
      /\ exists evs,
           report mf = evs ++ [EvWorkflowEnd "failed" (variables (state mf))].
Proof.
  intros W br env name A B kind msg m m1 fuel Hc He Hcalls Hh Hd.
  pose proof (dispatch_step_failed_core br env kind A _ m1 msg Hd)
    as (Hcur & Hcomp & Herr & Hdisp).
  simpl in Hcur, Hcomp, Herr, Hdisp.
  rewrite Hc in Hcomp. rewrite He in Herr. rewrite Hcalls in Hdisp.
  simpl in Hdisp.
  eexists. split.
  - unfold run. cbn [wf_steps run_loop nth_error].
    rewrite execute_step_unfold, Hh, Hd. reflexivity.
  - simpl. rewrite Hcomp, Herr, Hcur, Hdisp.
    repeat split; try reflexivity.
    eexists. reflexivity.
Qed.

(** C2. In a workflow [A, B, C] started on a fresh state, where [A]
    declares [on_error = C], the ids of [A] and [B] differ from that of
    [C], [A] and [C] have no sub-steps, the handler of [A] raises an
    exception other than [StepFailedError] and the handler of [C] then
    returns nothing: [run] ends as completed after dispatching exactly
    [A] then [C]; [errors] holds exactly one entry, for [A], with no
    [fatal] key, which reads as not fatal; the report has the error event
    of [A] with [fatal] false. And for any step of any workflow whose
    handler raises such an exception while the step declares no
    [on_error], the loop goes on at the next index, whatever [on_timeout]
    says. *)
Theorem other_exception_follows_on_error :
  forall (W : Type) (br : Browser W) (env_vars : gmap string string)
         (name c : string) (A B C : Step) (kA kC : HandlerKind) (msg : string)
         (m m1 m2 : Machine W) (fuel : nat),
    completed_steps (state m) = [] ->
    errors (state m) = [] ->
    calls m = [] ->
    on_error A = Some c ->
    truthy c = true ->
    step_id C = Some c ->
    step_id A <> Some c ->
    step_id B <> Some c ->
    sub_steps A = [] ->
    sub_steps C = [] ->
    handlers (action A) = Some kA ->
    handlers (action C) = Some kC ->
    dispatch br env_vars kA A
      (entering A (started (mkWorkflow name [A; B; C]) m))
    = (Raise (Exception msg), m1) ->
    dispatch br env_vars kC C (entering C (record_error A msg m1))
    = (Ok None, m2) ->
    (exists mf,
        run br env_vars (S (S (S fuel))) (mkWorkflow name [A; B; C]) m
        = Some (Ok tt, mf)
        /\ dispatched (calls mf) = [(step_id A, kA); (step_id C, kC)]
        /\ errors (state mf) = [mkError (step_id A) msg None]
        /\ is_fatal (mkError (step_id A) msg None) = false
        /\ completed_steps (state mf) = [step_id C]
        /\ In (EvError (step_id A) msg false) (report mf)
        /\ exists evs,
             report mf
             = evs ++ [EvWorkflowEnd "completed" (variables (state mf))])
    /\ (forall (steps : list Step) (i : nat) (step : Step) (k : HandlerKind)
               (msg' : string) (ma mb : Machine W) (fuel' : nat),
          nth_error steps i = Some step ->
          handlers (action step) = Some k ->
          dispatch br env_vars k step (entering step ma)
          = (Raise (Exception msg'), mb) ->
          on_error step = None ->
          next_index steps i (on_error step) = S i
          /\ run_loop br env_vars (S fuel') steps i ma
             = run_loop br env_vars fuel' steps (S i)
                 (record_error step msg' mb)).
Proof.
  intros W br env name c A B C kA kC msg m m1 m2 fuel
         Hc He Hcalls Hon Ht HidC HidA HidB HsA HsC HhA HhC HdA HdC.
  split.
  - pose proof (dispatch_leaf_core br env kA A _ m1 _ HsA HdA)
      as (_ & HcompA & HerrA & HdispA & _).
    pose proof (dispatch_leaf_core br env kC C _ m2 _ HsC HdC)
      as (_ & HcompC & HerrC & HdispC & [evs Hrep]).
    simpl in HcompA, HerrA, HdispA, HcompC, HerrC, HdispC.
    rewrite Hc in HcompA. rewrite He in HerrA. rewrite Hcalls in HdispA.
    simpl in HdispA.
    rewrite HcompA in HcompC. rewrite HerrA in HerrC. rewrite HdispA in HdispC.
    simpl in HerrC, HdispC.
    assert (Hidx : next_index [A; B; C] 0 (Some c) = 2%nat).
    { unfold next_index, _get_step_index.
      cbn [opt_truthy default from_option id]. rewrite Ht.
      rewrite (get_step_index_from_found [A; B; C] c 0 2 C eq_refl HidC).
      - reflexivity.
      - intros k s Hk Hs.
        destruct k as [|[|k]]; [| |lia]; injection Hs as <-; assumption. }
    eexists. split.
    + unfold run. cbn [wf_steps].
      cbn [run_loop nth_error].
      rewrite execute_step_unfold, HhA, HdA. rewrite Hon, Hidx.
      cbn [run_loop nth_error].
      rewrite execute_step_unfold, HhC, HdC.
      cbn [next_index opt_truthy nth_error]. reflexivity.
    + simpl. rewrite HcompC, HerrC, HdispC.
      repeat split; try reflexivity.
      * simpl in Hrep. rewrite Hrep, !in_app_iff. simpl. tauto.
      * eexists. reflexivity.
  - intros steps i step k msg' ma mb fuel' Hn Hh Hd Hnone.
    split.
    + rewrite Hnone. reflexivity.
    + cbn [run_loop]. rewrite Hn, execute_step_unfold, Hh, Hd, Hnone.
      reflexivity.
Qed.

Lemma step_failure_aborts_workflow_witness :
  optional step_A = false
  /\ exists mf,
       run (page_browser (fails_at_A (StepFailedError "no selector matched")))
         ∅ 1 (mkWorkflow "demo" [step_A; step_B]) (start_machine empty_page)
       = Some (Ok tt, mf)
       /\ completed_steps (state mf) = []
       /\ errors (state mf)
          = [mkError (Some "A") "no selector matched" (Some true)]
       /\ dispatched (calls mf) = [(Some "A", HClick)].
Proof.
  split; [reflexivity|].
  destruct (step_failure_aborts_workflow Page
              (page_browser (fails_at_A (StepFailedError "no selector matched")))
              ∅ "demo" step_A step_B HClick "no selector matched"
              (start_machine empty_page)
              (log_call (CallHandler (Some "A") HClick)
                 (entering step_A
                    (started (mkWorkflow "demo" [step_A; step_B])
                       (start_machine empty_page))))
              0 eq_refl eq_refl eq_refl eq_refl eq_refl)
    as (mf & Hrun & Hc & He & Hd & _).
  exists mf. auto.
Defined.

Lemma other_exception_follows_on_error_witness :
  exists mf,
    run (page_browser (fails_at_A (Exception "element detached")))
      ∅ 3 (mkWorkflow "demo" [step_A_on_error_C; step_B; step_C])
      (start_machine empty_page)
    = Some (Ok tt, mf)
    /\ dispatched (calls mf) = [(Some "A", HClick); (Some "C", HCaptureState)]
    /\ errors (state mf) = [mkError (Some "A") "element detached" None]
    /\ completed_steps (state mf) = [Some "C"].
Proof.
  destruct (other_exception_follows_on_error Page
              (page_browser (fails_at_A (Exception "element detached")))
              ∅ "demo" "C" step_A_on_error_C step_B step_C HClick HCaptureState
              "element detached" (start_machine empty_page)
              (log_call (CallHandler (Some "A") HClick)
                 (entering step_A_on_error_C
                    (started (mkWorkflow "demo" [step_A_on_error_C; step_B; step_C])
                       (start_machine empty_page))))
              (log_call (CallHandler (Some "C") HCaptureState)
                 (entering step_C
                    (record_error step_A_on_error_C "element detached"
                       (log_call (CallHandler (Some "A") HClick)
                          (entering step_A_on_error_C
                             (started (mkWorkflow "demo"
                                         [step_A_on_error_C; step_B; step_C])
                                (start_machine empty_page)))))))
              0 eq_refl eq_refl eq_refl eq_refl eq_refl eq_refl
              ltac:(discriminate) ltac:(discriminate)
              eq_refl eq_refl eq_refl eq_refl eq_refl eq_refl)
    as [(mf & Hrun & Hd & He & _ & Hc & _) _].
  exists mf. auto.
Defined.

(** ** [select_columns] *)

Lemma filter_not_required_nil (required checked : list string) :
  (forall c, In c checked -> In c required) ->
  List.filter (fun c => negb (mem_str c required)) checked = [].
Proof.
  intros H. induction checked as [|c checked IH]; [reflexivity|].
  cbn [List.filter].
  rewrite (proj2 (mem_str_In c required)) by (apply H; left; reflexivity).
  simpl. apply IH. intros x Hx. apply H. right. exact Hx.
Qed.

Lemma In_required_selectors (cols : list Column) (col : Column) :
  In col cols ->
  opt_truthy (col_selector col) = true ->
  In (default EmptyString (col_selector col)) (required_selectors_of cols).
Proof.
  intros Hin Ht. unfold required_selectors_of.
  apply list_elem_of_In, list_elem_of_omap.
  exists col. split; [apply list_elem_of_In, Hin|].
  rewrite Ht. destruct (col_selector col); [reflexivity|discriminate].
Qed.

Section SelectColumns.

Context {W : Type} (br : Browser W).

Lemma js_get_checked_reply (m : Machine W) (ids : list string) (w : W) :
  get_checked br (world m) = (Reply ids, w) ->
  js_get_checked br m
  = (Ok (map selector_of ids), set_world w (log_call CallGetChecked m)).
Proof.
  intros H. unfold js_get_checked, bind, call. rewrite H. reflexivity.
Qed.

Lemma select_each_all_checked (checked : list string) (cols : list Column) :
  (forall col, In col cols -> opt_truthy (col_selector col) = true ->
               In (default EmptyString (col_selector col)) checked) ->
  forall failed m,
    exists n, select_each br checked cols failed m = (Ok n, m).
Proof.
  induction cols as [|col cols IH]; intros H failed m; simpl.
  - exists failed. reflexivity.
  - assert (H' : forall c, In c cols -> opt_truthy (col_selector c) = true ->
                   In (default EmptyString (col_selector c)) checked)
      by (intros c Hc; apply H; right; exact Hc).
    destruct (opt_truthy (col_selector col)) eqn:Ht; simpl.
    + rewrite (proj2 (mem_str_In _ checked))
        by (apply H; [left; reflexivity | exact Ht]).
      apply IH, H'.
    + apply IH, H'.
Qed.

End SelectColumns.

(** C6. When both readings of the page give checked columns whose
    selectors are exactly the required selectors of the step,
    [_execute_select_columns] calls the browser for these two readings
    and for nothing else: no column is scrolled to or clicked, and the
    state and the report are as before. *)
Theorem select_columns_idempotent :
  forall (W : Type) (br : Browser W) (step : Step) (m : Machine W)
         (ids1 ids2 : list string) (w1 w2 : W),
    get_checked br (world m) = (Reply ids1, w1) ->
    get_checked br w1 = (Reply ids2, w2) ->
    (forall s, In s (map selector_of ids1)
               <-> In s (required_selectors_of (columns step))) ->
    (forall s, In s (map selector_of ids2)
               <-> In s (required_selectors_of (columns step))) ->
    let m' := (_execute_select_columns br step m).2 in
    calls m' = calls m ++ [CallGetChecked; CallGetChecked]
    /\ clicks (calls m') = clicks (calls m)
    /\ world m' = w2
    /\ state m' = state m
    /\ report m' = report m.
Proof.
  intros W br step m ids1 ids2 w1 w2 H1 H2 Hreq1 Hreq2 m'.
  assert (E : exists r,
             _execute_select_columns br step m
             = (r, mkMachine (state m) (report m) w2
                     (calls m ++ [CallGetChecked; CallGetChecked]))).
  { unfold _execute_select_columns.
    unfold bind at 1. rewrite (js_get_checked_reply br m ids1 w1 H1).
    rewrite filter_not_required_nil by (intros c Hc; apply Hreq1, Hc).
    unfold bind at 1. cbn [deselect_each ret].
    unfold bind at 1.
    rewrite (js_get_checked_reply br _ ids2 w2) by exact H2.
    unfold bind at 1.
    destruct (select_each_all_checked br (map selector_of ids2) (columns step)
                ltac:(intros col Hc Ht; apply Hreq2;
                      apply In_required_selectors; assumption)
                O (set_world w2
                     (log_call CallGetChecked
                        (set_world w1 (log_call CallGetChecked m)))))
      as [n Hn].
    rewrite Hn.
    unfold set_world, log_call. cbn [state report world calls].
    rewrite <- app_assoc. cbn [app].
    case_if; eexists; reflexivity. }
  destruct E as [r E]. subst m'. rewrite E. cbn [snd calls world state report].
  repeat split; try reflexivity.
  rewrite clicks_app. cbn. apply app_nil_r.
Qed.

Lemma select_columns_idempotent_witness :
  clicks (calls first_select_run)
  = [selector_of "credit--body--checkbox"; selector_of "debit--body--checkbox"]
  /\ calls (_execute_select_columns (page_browser always_ok) two_columns_step
              first_select_run).2
     = calls first_select_run ++ [CallGetChecked; CallGetChecked]
  /\ clicks (calls (_execute_select_columns (page_browser always_ok)
                      two_columns_step first_select_run).2)
     = clicks (calls first_select_run).
Proof.
  split; [vm_compute; reflexivity|].
  destruct (select_columns_idempotent Page (page_browser always_ok)
              two_columns_step first_select_run
              (pg_checked (world first_select_run))
              (pg_checked (world first_select_run))
              (world first_select_run) (world first_select_run))
    as (Hc & Hk & _).
  - vm_compute. reflexivity.
  - vm_compute. reflexivity.
  - intros s. vm_compute. tauto.
  - intros s. vm_compute. tauto.
  - split; [exact Hc | exact Hk].
Defined.

(** ** The date filter of the loops *)

Lemma is_before_spec (fd rd : option datetime) :
  is_before fd rd = true <->
  exists f d, fd = Some f /\ rd = Some d /\ toordinal d < toordinal f.
Proof.
  unfold is_before, lt. split.
  - destruct fd as [f|]; [|discriminate]. destruct rd as [d|]; [|discriminate].
    intros H. exists f, d. repeat split. apply Z.ltb_lt, H.
  - intros (f & d & -> & -> & H). apply Z.ltb_lt, H.
Qed.

Lemma partition_vat_step (fd : option datetime) (vr : VatReturn)
    (rest : list VatReturn) :
  partition_vat fd (vr :: rest) =
  if is_before fd (_parse_date (startDate vr))
  then ((partition_vat fd rest).1, dateRange vr :: (partition_vat fd rest).2)
  else (vr :: (partition_vat fd rest).1, (partition_vat fd rest).2).
Proof.
  cbn [partition_vat]. unfold is_before.
  destruct (partition_vat fd rest) as [tp sk]. cbn [fst snd].
  destruct fd as [f|]; [|reflexivity].
  destruct (_parse_date (startDate vr)) as [d|]; reflexivity.
Qed.

Lemma partition_vat_In (fd : option datetime) (items : list VatReturn)
    (vr : VatReturn) :
  In vr (partition_vat fd items).1 <->
  In vr items /\ is_before fd (_parse_date (startDate vr)) = false.
Proof.
  induction items as [|x items IH].
  - simpl. tauto.
  - rewrite partition_vat_step.
    destruct (is_before fd (_parse_date (startDate x))) eqn:E; cbn [fst In].
    + rewrite IH. split; [tauto|]. intros [[->|H] Hb]; [congruence|tauto].
    + rewrite IH. split.
      * intros [->|[H Hb]]; auto.
      * intros [[->|H] Hb]; auto.
Qed.

Lemma partition_vat_length (fd : option datetime) (items : list VatReturn) :
  (length (partition_vat fd items).1 + length (partition_vat fd items).2
   = length items)%nat.
Proof.
  induction items as [|x items IH]; [reflexivity|].
  rewrite partition_vat_step. case_if; cbn [fst snd length]; lia.
Qed.

Lemma partition_vat_no_filter (items : list VatReturn) :
  partition_vat None items = (items, []).
Proof.
  induction items as [|x items IH]; [reflexivity|].
  rewrite partition_vat_step, IH. reflexivity.
Qed.

Lemma row_is_before_spec {W : Type} (br : Browser W) (step : Step)
    (fd : option datetime) (i : nat) (m : Machine W) :
  exists b,
    (row_is_before br step fd i m).1 = Ok b
    /\ (b = true <->
        exists text w,
          opt_truthy (date_field_selector step) = true
          /\ date_text br step i (world m) = (Reply (Some text), w)
          /\ truthy text = true
          /\ is_before fd (_extract_date_from_range text (date_extract_mode step))
             = true).
Proof.
  assert (No : forall P : Prop, (false = true <-> P) <-> ~ P).
  { intros P. split; [intros [_ H] HP; discriminate (H HP)|].
    intros H. split; [discriminate | intros HP; destruct (H HP)]. }
  unfold row_is_before. destruct fd as [f|].
  2:{ exists false. split; [reflexivity|]. apply No.
      intros (text & w & _ & _ & _ & H). discriminate. }
  destruct (opt_truthy (date_field_selector step)) eqn:Hsel.
  2:{ exists false. split; [reflexivity|]. apply No.
      intros (text & w & H & _). discriminate. }
  unfold call. destruct (date_text br step i (world m)) as [[t|e] w] eqn:Hdt.
  2:{ exists false. split; [reflexivity|]. apply No.
      intros (text & w' & _ & H & _). discriminate. }
  destruct t as [text|].
  2:{ exists false. split; [reflexivity|]. apply No.
      intros (text & w' & _ & H & _). discriminate. }
  cbn [opt_truthy default from_option id].
  destruct (truthy text) eqn:Ht.
  2:{ exists false. split; [reflexivity|]. apply No.
      intros (text' & w' & _ & H & Ht' & _).
      injection H as <- <-. congruence. }
  destruct (_extract_date_from_range text (date_extract_mode step)) as [d|] eqn:Hx.
  2:{ exists false. split; [reflexivity|]. apply No.
      intros (text' & w' & _ & H & _ & Hb).
      injection H as <- <-. rewrite Hx in Hb. discriminate. }
  exists (lt d f). split; [reflexivity|]. split.
  - intros Hlt. exists text, w. rewrite Hx. auto.
  - intros (text' & w' & _ & H & _ & Hb).
    injection H as <- <-. rewrite Hx in Hb. exact Hb.
Qed.

(** C4, as the spec words it, fails: a row whose date text holds no date
    has no extracted date on or after the filter date, and is processed
    all the same. *)
Lemma date_filter_iff_counterexample :
  ~ ((row_is_before (page_browser always_ok) (rows_step (Some "01 Apr 2024") [])
        (Some (mkDate 2024 4 1)) 0
        (start_machine (mkPage [] [] ["Not yet filed"]))).1 = Ok false
     <-> exists d, _extract_date_from_range "Not yet filed" "start" = Some d
                   /\ le (mkDate 2024 4 1) d = true)
  /\ processed_count
       (run_single always_ok (rows_step (Some "01 Apr 2024") [step_export])
          (mkPage [] [] ["Not yet filed"]))
     = Some (VInt 1).
Proof.
  split; [|vm_compute; reflexivity].
  intros [H _]. destruct (H eq_refl) as (d & Hd & _).
  vm_compute in Hd. discriminate.
Qed.

(** C4, amended. In both loops an item is skipped exactly when the filter
    date is known, the item's own date is extracted and parses, and that
    date is strictly earlier than the filter date; every other item goes
    on to processing, among them the items dated on the filter date, the
    items whose date cannot be read, and all items when there is no
    filter date. With the filter [01 Apr 2024] and items dated 31 Mar
    2024, 01 Apr 2024 and 15 Apr 2024, two items are processed and one is
    skipped. *)
Theorem date_filter_skips_only_earlier_dates :
  (forall fd rd,
      is_before fd rd = true <->
      exists f d, fd = Some f /\ rd = Some d /\ toordinal d < toordinal f)
  /\ (forall fd items vr,
        In vr (partition_vat fd items).1 <->
        In vr items /\ is_before fd (_parse_date (startDate vr)) = false)
  /\ (forall fd items,
        (length (partition_vat fd items).1 + length (partition_vat fd items).2
         = length items)%nat)
  /\ (forall items, partition_vat None items = (items, []))
  /\ (forall (W : Type) (br : Browser W) (step : Step) (fd : option datetime)
             (i : nat) (m : Machine W),
        exists b,
          (row_is_before br step fd i m).1 = Ok b
          /\ (b = true <->
              exists text w,
                opt_truthy (date_field_selector step) = true
                /\ date_text br step i (world m) = (Reply (Some text), w)
                /\ truthy text = true
                /\ is_before fd
                     (_extract_date_from_range text (date_extract_mode step))
                   = true))
  /\ (length (partition_vat (_parse_date "01 Apr 2024") (rev three_returns)).1
      = 2%nat
      /\ (partition_vat (_parse_date "01 Apr 2024") (rev three_returns)).2
         = ["31 Mar 2024 - 29 Jun 2024"])
  /\ processed_count
       (run_single always_ok
          (loop_step "loop_vat_returns" (Some "01 Apr 2024") None [step_export])
          (mkPage [] three_returns []))
     = Some (VInt 2)
  /\ processed_count
       (run_single always_ok (rows_step (Some "01 Apr 2024") [step_export])
          (mkPage [] [] three_rows))
     = Some (VInt 2).
Proof.
  split; [exact is_before_spec|].
  split; [exact partition_vat_In|].
  split; [exact partition_vat_length|].
  split; [exact partition_vat_no_filter|].
  split; [intros; apply row_is_before_spec|].
  split; [split; vm_compute; reflexivity|].
  split; vm_compute; reflexivity.
Qed.

Lemma date_filter_skips_only_earlier_dates_witness :
  In (vat_return "01 Apr 2024 - 30 Jun 2024" "01 Apr 2024" "30 Jun 2024" "btn-2" 1)
     (partition_vat (Some (mkDate 2024 4 1)) three_returns).1.
Proof.
  destruct date_filter_skips_only_earlier_dates as (_ & H & _).
  apply H. split; [right; left; reflexivity | reflexivity].
Defined.

(** ** The count of processed items *)

Lemma store_variable_lookup {W : Type} (key : string) (v : value)
    (m : Machine W) :
  (_store_variable key v m).1 = Ok tt
  /\ variables (state (_store_variable key v m).2) !! key = Some v.
Proof.
  unfold _store_variable. cbn [fst snd]. split; [reflexivity|].
  case_if; simpl; apply lookup_insert_eq.
Qed.

(** When [_execute_loop_elements] returns, a count is stored. *)
Lemma loop_elements_stores_count {W : Type} (br : Browser W)
    (env_vars : gmap string string) (step : Step)
    (subs : list (M W (option string))) (m m' : Machine W)
    (r : option string) :
  _execute_loop_elements br env_vars step subs m = (Ok r, m') ->
  exists n : nat,
    variables (state m') !! "loop_processed_count" = Some (VInt (Z.of_nat n)).
Proof.
  unfold _execute_loop_elements, bind.
  destruct (resolve_filter_date br env_vars _ m) as [[fd|e] m1]; [|discriminate].
  destruct (call CallCountRows _ m1) as [[count|e] m2]; [|discriminate].
  destruct (loop_rows br step subs fd _ 0 0 m2) as [[counts|e] m3];
    [|discriminate].
  destruct (store_variable_lookup "loop_processed_count"
              (VInt (Z.of_nat counts.1)) m3) as [Hr Hl].
  destruct (_store_variable "loop_processed_count" _ m3) as [[u|e] m4];
    [|discriminate].
  unfold ret. intros H. injection H as _ <-.
  exists counts.1. exact Hl.
Qed.

(** When [_execute_loop_vat_returns] returns, a count is stored. *)
Lemma loop_vat_returns_stores_count {W : Type} (br : Browser W)
    (env_vars : gmap string string) (step : Step)
    (subs : list (M W (option string))) (m m' : Machine W)
    (r : option string) :
  _execute_loop_vat_returns br env_vars step subs m = (Ok r, m') ->
  exists n : nat,
    variables (state m') !! "loop_processed_count" = Some (VInt (Z.of_nat n)).
Proof.
  unfold _execute_loop_vat_returns. unfold bind at 1. unfold swallow at 1.
  unfold bind at 1.
  destruct (call CallPageIssues _ _) as [[issues|e] m1]; [|discriminate].
  destruct (opt_truthy issues).
  - unfold bind.
    destruct (store_variable_lookup "loop_processed_count" (VInt 0) m1)
      as [Hr Hl].
    destruct (_store_variable "loop_processed_count" (VInt 0) m1)
      as [[u|e] m2]; [|discriminate].
    unfold log_skip, ret. intros H. injection H as _ <-.
    exists O. exact Hl.
  - unfold bind.
    destruct (resolve_filter_date br env_vars _ m1) as [[fd|e] m2];
      [|discriminate].
    destruct (call CallGetVatReturns _ m2) as [[vrs|e] m3]; [|discriminate].
    destruct (partition_vat fd _) as [to_process skipped].
    destruct (vat_items br subs _ 0 to_process [] 0 m3) as [[processed|e] m4];
      [|discriminate].
    destruct (store_variable_lookup "loop_processed_count"
                (VInt (Z.of_nat processed)) m4) as [Hr Hl].
    destruct (_store_variable "loop_processed_count" _ m4) as [[u|e] m5];
      [|discriminate].
    unfold ret. intros H. injection H as _ <-.
    exists processed. exact Hl.
Qed.

(** In the generic loop an item that was not filtered out and whose
    action button was clicked is counted whatever [run_sub_steps]
    reported. *)
Lemma loop_rows_counts_item {W : Type} (br : Browser W) (step : Step)
    (subs : list (M W (option string))) (fd : option datetime) (i : nat)
    (rest : list nat) (processed skipped : nat) (m m1 m2 m3 : Machine W)
    (sub_step_failed : bool) :
  row_is_before br step fd i m = (Ok false, m1) ->
  click_action br step i m1 = (Ok true, m2) ->
  run_sub_steps subs m2 = (Ok sub_step_failed, m3) ->
  loop_rows br step subs fd (i :: rest) processed skipped m
  = loop_rows br step subs fd rest (S processed) skipped m3.
Proof.
  intros H1 H2 H3. cbn [loop_rows]. unfold bind at 1. rewrite H1.
  unfold bind at 1. rewrite H2. cbn [negb]. unfold bind at 1. rewrite H3.
  reflexivity.
Qed.

(** C9. Both loops store a count under [loop_processed_count] when they
    return. On a page listing three items, with [reverse_order] and no
    filter date, both go through the items in the reverse of the order of
    discovery and store 3 when the sub-steps succeed. When the sub-step of
    every item raises [StepFailedError], [_execute_loop_vat_returns]
    stores 0, while [_execute_loop_elements] counts each item all the
    same, as it does in general, and stores 3. *)
Theorem loop_elements_counts_failed_items :
  (forall (W : Type) (br : Browser W) (env_vars : gmap string string)
          (kind : HandlerKind) (step : Step)
          (subs : list (M W (option string))) (m m' : Machine W)
          (r : option string),
      kind = HLoopElements \/ kind = HLoopVatReturns ->
      run_handler br env_vars kind step subs m = (Ok r, m') ->
      exists n : nat,
        variables (state m') !! "loop_processed_count"
        = Some (VInt (Z.of_nat n)))
  /\ (forall (W : Type) (br : Browser W) (step : Step)
             (subs : list (M W (option string))) (fd : option datetime)
             (i : nat) (rest : list nat) (processed skipped : nat)
             (m m1 m2 m3 : Machine W),
        row_is_before br step fd i m = (Ok false, m1) ->
        click_action br step i m1 = (Ok true, m2) ->
        run_sub_steps subs m2 = (Ok true, m3) ->
        loop_rows br step subs fd (i :: rest) processed skipped m
        = loop_rows br step subs fd rest (S processed) skipped m3)
  /\ processed_count
       (run_single always_ok
          (loop_step "loop_vat_returns" None None [step_export])
          (mkPage [] three_returns []))
     = Some (VInt 3)
  /\ reviewed
       (calls_of
          (run_single always_ok
             (loop_step "loop_vat_returns" None None [step_export])
             (mkPage [] three_returns [])))
     = rev (map buttonId three_returns)
  /\ processed_count
       (run_single always_ok (rows_step None [step_export])
          (mkPage [] [] three_rows))
     = Some (VInt 3)
  /\ rows_clicked
       (calls_of
          (run_single always_ok (rows_step None [step_export])
             (mkPage [] [] three_rows)))
     = [2; 1; 0]%nat
  /\ processed_count
       (run_single (fails_at_A (StepFailedError "No matching selector found"))
          (loop_step "loop_vat_returns" None None [step_A])
          (mkPage [] three_returns []))
     = Some (VInt 0)
  /\ processed_count
       (run_single (fails_at_A (StepFailedError "No matching selector found"))
          (rows_step None [step_A]) (mkPage [] [] three_rows))
     = Some (VInt 3).
Proof.
  split.
  { intros W br env kind step subs m m' r [-> | ->] H; simpl in H.
    - eapply loop_elements_stores_count, H.
    - eapply loop_vat_returns_stores_count, H. }
  split.
  { intros. eapply loop_rows_counts_item; eassumption. }
  repeat split; vm_compute; reflexivity.
Qed.

Lemma loop_elements_counts_failed_items_witness :
  exists n : nat,
    variables
      (state (run_handler (page_browser always_ok) ∅ HLoopElements
                (rows_step None []) [] (start_machine (mkPage [] [] three_rows))).2)
    !! "loop_processed_count" = Some (VInt (Z.of_nat n)).
Proof.
  destruct loop_elements_counts_failed_items as [H _].
  apply (H Page (page_browser always_ok) ∅ HLoopElements (rows_step None []) []
           (start_machine (mkPage [] [] three_rows)) _ None
           (or_introl eq_refl)).
  vm_compute. reflexivity.
Defined.

(** * Further properties of the code *)

Import Notions EngineNotions MoreFixtures Lookup Company Leaf LeafFixtures Downloading DownloadFixtures.

(** ** More on strings *)

Lemma lstrip_nonspace (c : ascii) (r : string) :
  is_space c = false -> lstrip (String c r) = String c r.
Proof. intros H. simpl. rewrite H. reflexivity. Qed.

Lemma rstrip_app_nonspace (s : string) (c : ascii) :
  is_space c = false ->
  rstrip (s +:+ String c EmptyString) = s +:+ String c EmptyString.
Proof.
  intros H. induction s as [|x s IH]; simpl.
  - rewrite H. reflexivity.
  - rewrite IH. destruct s; simpl; rewrite andb_false_r; reflexivity.
Qed.

Lemma digit_not_space (c : ascii) : is_digit c = true -> is_space c = false.
Proof.
  destruct c as [[] [] [] [] [] [] [] []]; vm_compute; congruence.
Qed.

(** Checking a property of the numbers of a range by running it. *)
Lemma forall_range (P : Z -> bool) (lo hi : Z) :
  forallb P (map (fun k => lo + Z.of_nat k) (seq 0 (Z.to_nat (hi - lo + 1))))
  = true ->
  forall z, lo <= z <= hi -> P z = true.
Proof.
  intros H z Hz. rewrite forallb_forall in H. apply H.
  apply in_map_iff. exists (Z.to_nat (z - lo)). split; [lia|].
  apply in_seq. lia.
Qed.


(** ** Numbers and their decimal writing *)

Lemma digits_value_acc (d : Decimal.uint) :
  forall acc : positive,
    digits_value (Z.pos acc) (NilEmpty.string_of_uint d)
    = Z.pos (Pos.of_uint_acc d acc).
Proof.
  induction d as [|d IH|d IH|d IH|d IH|d IH|d IH|d IH|d IH|d IH|d IH];
    intros acc; cbn [NilEmpty.string_of_uint digits_value Pos.of_uint_acc];
    [reflexivity|..];
    rewrite <- IH; f_equal;
    match goal with
    | |- context [Z.of_nat (code ?c)] =>
        let v := eval vm_compute in (Z.of_nat (code c)) in
        change (Z.of_nat (code c)) with v
    end; lia.
Qed.

Lemma digits_value_uint (d : Decimal.uint) :
  digits_value 0 (NilEmpty.string_of_uint d) = Z.of_N (Pos.of_uint d).
Proof.
  induction d as [|d IH|d IH|d IH|d IH|d IH|d IH|d IH|d IH|d IH|d IH];
    cbn [NilEmpty.string_of_uint digits_value Pos.of_uint];
    [reflexivity | exact IH |..];
    cbn [Z.of_N]; rewrite <- digits_value_acc; reflexivity.
Qed.

Lemma nilzero_string_of_pos (p : positive) :
  NilZero.string_of_uint (Pos.to_uint p) = NilEmpty.string_of_uint (Pos.to_uint p).
Proof.
  unfold NilZero.string_of_uint.
  pose proof (DecimalPos.Unsigned.to_uint_nonnil p).
  destruct (Pos.to_uint p); congruence.
Qed.

Lemma digits_nonempty (p : positive) :
  exists c r, NilEmpty.string_of_uint (Pos.to_uint p) = String c r
              /\ is_digit c = true.
Proof.
  pose proof (DecimalPos.Unsigned.to_uint_nonnil p) as H.
  destruct (Pos.to_uint p); [congruence|..];
    cbn [NilEmpty.string_of_uint]; eexists _, _; split; reflexivity.
Qed.

(** [int(str(n))] is [n]. *)
Lemma int_of_str_of_Z (n : Z) : int_of_str (str_of_Z n) = n.
Proof.
  unfold str_of_Z. destruct n as [|p|p]; [reflexivity|..];
    cbn [Z.to_int NilZero.string_of_int]; rewrite nilzero_string_of_pos.
  - destruct (digits_nonempty p) as (c & r & E & Hc).
    unfold int_of_str. rewrite E.
    assert (c <> "-"%char) by (intros ->; discriminate).
    rewrite <- E, digits_value_uint, DecimalPos.Unsigned.of_to.
    destruct c as [[] [] [] [] [] [] [] []]; try reflexivity; congruence.
  - unfold int_of_str.
    rewrite digits_value_uint, DecimalPos.Unsigned.of_to. reflexivity.
Qed.


(** The ten digits: the character of each, and what it adds to a number
    read from left to right. *)
Lemma decimal_digit (k : Z) :
  0 <= k <= 9 ->
  exists (D : Decimal.uint -> Decimal.uint) (ch : ascii),
    is_digit ch = true
    /\ (forall l, NilEmpty.string_of_uint (D l)
                  = String ch (NilEmpty.string_of_uint l))
    /\ (forall l acc, Pos.of_uint_acc (D l) acc
                      = Pos.of_uint_acc l (Z.to_pos (k + 10 * Z.pos acc)))
    /\ (k <> 0 -> forall l, Decimal.unorm (D l) = D l)
    /\ (k <> 0 -> forall l, Pos.of_uint (D l)
                            = N.pos (Pos.of_uint_acc l (Z.to_pos k))).
Proof.
  intros Hk.
  assert (k = 0 \/ k = 1 \/ k = 2 \/ k = 3 \/ k = 4 \/ k = 5 \/ k = 6 \/ k = 7
          \/ k = 8 \/ k = 9) as H by lia.
  repeat destruct H as [H|H]; subst k;
    [ exists Decimal.D0, "0"%char | exists Decimal.D1, "1"%char
    | exists Decimal.D2, "2"%char | exists Decimal.D3, "3"%char
    | exists Decimal.D4, "4"%char | exists Decimal.D5, "5"%char
    | exists Decimal.D6, "6"%char | exists Decimal.D7, "7"%char
    | exists Decimal.D8, "8"%char | exists Decimal.D9, "9"%char ];
    (split; [reflexivity|]); (split; [reflexivity|]);
    (split; [intros l acc; cbn [Pos.of_uint_acc]; f_equal; lia|]);
    split; intros H l; try congruence; reflexivity.
Qed.

(** A year of four digits is printed as its four digits. *)
Lemma year_digits (y : Z) :
  1000 <= y <= 9999 ->
  exists a b c e,
    zero_pad 4 y = String a (String b (String c (String e EmptyString)))
    /\ is_digit a = true /\ is_digit b = true
    /\ is_digit c = true /\ is_digit e = true
    /\ digits_value 0 (zero_pad 4 y) = y.
Proof.
  intros Hy.
  set (ka := y / 1000). set (kb := (y / 100) mod 10).
  set (kc := (y / 10) mod 10). set (ke := y mod 10).
  assert (Ey : y = ke + 10 * (kc + 10 * (kb + 10 * ka))
               /\ 1 <= ka <= 9 /\ 0 <= kb <= 9 /\ 0 <= kc <= 9 /\ 0 <= ke <= 9).
  { subst ka kb kc ke. Z.div_mod_to_equations. lia. }
  destruct Ey as (Ey & Ha & Hb & Hc & He).
  destruct (decimal_digit ka ltac:(lia)) as (Da & a & Ia & Sa & _ & Ua & Oa).
  destruct (decimal_digit kb ltac:(lia)) as (Db & b & Ib & Sb & Ab & _).
  destruct (decimal_digit kc ltac:(lia)) as (Dc & c & Ic & Sc & Ac & _).
  destruct (decimal_digit ke ltac:(lia)) as (De & e & Ie & Se & Ae & _).
  set (d := Da (Db (Dc (De Decimal.Nil)))).
  assert (Hof : Pos.of_uint d = N.pos (Z.to_pos y)).
  { subst d. rewrite Oa by lia. rewrite Ab, Ac, Ae. cbn [Pos.of_uint_acc].
    f_equal. rewrite !Z2Pos.id by lia. f_equal. lia. }
  assert (Hto : Pos.to_uint (Z.to_pos y) = d).
  { pose proof (DecimalPos.Unsigned.to_of d) as T. rewrite Hof in T.
    cbn [N.to_uint] in T. rewrite T. subst d. apply Ua. lia. }
  assert (Hs : str_of_Z y = String a (String b (String c (String e EmptyString)))).
  { unfold str_of_Z. destruct y as [|p|p]; try lia.
    cbn [Z.to_int NilZero.string_of_int]. rewrite nilzero_string_of_pos.
    change (Z.to_pos (Z.pos p)) with p in Hto. rewrite Hto. subst d.
    rewrite Sa, Sb, Sc, Se. reflexivity. }
  assert (Hz : zero_pad 4 y = str_of_Z y).
  { unfold zero_pad. rewrite Hs. reflexivity. }
  exists a, b, c, e. rewrite Hz. split; [exact Hs|].
  repeat (split; [assumption|]).
  unfold str_of_Z. destruct y as [|p|p]; try lia.
  cbn [Z.to_int NilZero.string_of_int]. rewrite nilzero_string_of_pos.
  rewrite digits_value_uint, DecimalPos.Unsigned.of_to. reflexivity.
Qed.

(** ** [strptime] after [strftime] *)

(** The first alternative of an item whose continuation parses decides. *)
Lemma run_items_first (it : fmt_item) (rest : list fmt_item) (acc : Z * Z * Z)
    (s : string) f v r l x :
  alts it s = (f, (v, r) :: l) ->
  run_items rest (set_field f v acc) r = Some x ->
  run_items (it :: rest) acc s = Some x.
Proof. intros Ha Hr. cbn [run_items]. rewrite Ha, Hr. reflexivity. Qed.

Lemma run_items_one (it : fmt_item) (rest : list fmt_item) (acc : Z * Z * Z)
    (s : string) f v r :
  alts it s = (f, [(v, r)]) ->
  run_items (it :: rest) acc s = run_items rest (set_field f v acc) r.
Proof.
  intros Ha. cbn [run_items]. rewrite Ha.
  destruct (run_items rest (set_field f v acc) r); reflexivity.
Qed.

Lemma run_items_two (it : fmt_item) (rest : list fmt_item) (acc : Z * Z * Z)
    (s : string) f v r v' r' :
  alts it s = (f, [(v, r); (v', r')]) ->
  run_items rest (set_field f v' acc) r' = None ->
  run_items (it :: rest) acc s = run_items rest (set_field f v acc) r.
Proof.
  intros Ha Hn. cbn [run_items]. rewrite Ha, Hn.
  destruct (run_items rest (set_field f v acc) r); reflexivity.
Qed.

Lemma run_items_none (it : fmt_item) (rest : list fmt_item) (acc : Z * Z * Z)
    (s : string) f :
  alts it s = (f, []) -> run_items (it :: rest) acc s = None.
Proof. intros Ha. cbn [run_items]. rewrite Ha. reflexivity. Qed.

(** White space in the format does not match at a character that is not
    white space. *)
Lemma alts_spaces_nonspace (c : ascii) (r : string) :
  is_space c = false -> alts FSpaces (String c r) = (Fnone, []).
Proof.
  intros H. cbn [alts]. unfold alts_spaces. cbn [span]. rewrite H. reflexivity.
Qed.

(** One blank before a character that is not white space is matched in
    one way. *)
Lemma alts_spaces_one (c : ascii) (r : string) :
  is_space c = false ->
  alts FSpaces (String " " (String c r)) = (Fnone, [(0, String c r)]).
Proof.
  intros H. cbn [alts]. unfold alts_spaces. cbn [span].
  change (is_space " ") with true. cbn iota. rewrite H. reflexivity.
Qed.

Lemma alts_lit_other (c a : ascii) (r : string) :
  Ascii.eqb (lower a) (lower c) = false -> alts (FLit c) (String a r) = (Fnone, []).
Proof. intros H. cbn [alts]. rewrite H. reflexivity. Qed.

Ltac enum_range d lo hi :=
  let H := fresh "H" in
  assert (H : In d (map (fun k => lo + Z.of_nat k) (seq 0 (Z.to_nat (hi - lo + 1)))))
    by (apply in_map_iff; exists (Z.to_nat (d - lo)); split;
        [lia | apply in_seq; lia]);
  vm_compute in H;
  repeat (destruct H as [<-|H]; [|]); [..|destruct H].

(** A day of the month printed with two digits, before a character that
    the next item of the format accepts only in one way: the day is read
    back, and no other reading of the two digits goes on. *)
Lemma run_day_then (d : Z) (it : fmt_item) (rest : list fmt_item)
    (acc : Z * Z * Z) (T : string) :
  1 <= d <= 31 ->
  (forall c r, is_digit c = true -> alts it (String c r) = (Fnone, [])) ->
  run_items (FDay :: it :: rest) acc (zero_pad 2 d +:+ T)
  = run_items (it :: rest) (set_field Fd d acc) T.
Proof.
  intros Hd Hit.
  enum_range d 1 31;
    first
      [ apply (run_items_one FDay _ _ _ Fd); vm_compute; reflexivity
      | eapply (run_items_two FDay _ _ _ Fd);
        [ vm_compute; reflexivity
        | eapply run_items_none; apply Hit; vm_compute; reflexivity ] ].
Qed.

Lemma run_items_all_fail (it : fmt_item) (rest : list fmt_item)
    (acc : Z * Z * Z) (s : string) f l :
  alts it s = (f, l) ->
  (forall v r, In (v, r) l -> run_items rest (set_field f v acc) r = None) ->
  run_items (it :: rest) acc s = None.
Proof.
  intros Ha H. cbn [run_items]. rewrite Ha. clear Ha.
  induction l as [|[v r] l IH]; [reflexivity|].
  rewrite (H v r) by (left; reflexivity).
  apply IH. intros v' r' Hin. apply H. right. exact Hin.
Qed.

(** What the readings of a day leave unread: all but the first two
    characters, or all but the first. *)
Lemma alts_day_rests (a b : ascii) (t : string) v r :
  In (v, r) (alts_day (String a (String b t))) -> r = t \/ r = String b t.
Proof.
  unfold alts_day, two, one. rewrite !in_app_iff.
  repeat case_if; cbn [In]; intuition congruence.
Qed.

(** A text whose second and third characters are not white space is not
    a day followed by white space. *)
Lemma run_day_spaces_none (a b c : ascii) (r : string) (rest : list fmt_item)
    (acc : Z * Z * Z) :
  is_space b = false -> is_space c = false ->
  run_items (FDay :: FSpaces :: rest) acc (String a (String b (String c r))) = None.
Proof.
  intros Hb Hc. eapply run_items_all_fail; [reflexivity|].
  intros v t Hin. apply alts_day_rests in Hin as [->| ->];
    eapply run_items_none; apply alts_spaces_nonspace; assumption.
Qed.

Lemma two_digits (n : Z) :
  0 <= n <= 99 ->
  exists a b, zero_pad 2 n = String a (String b EmptyString)
              /\ is_digit a = true /\ is_digit b = true.
Proof.
  intros Hn.
  pose (P := fun n =>
    match zero_pad 2 n with
    | String a (String b EmptyString) => is_digit a && is_digit b
    | _ => false
    end).
  assert (H : P n = true).
  { apply (forall_range P 0 99); [vm_compute; reflexivity | lia]. }
  unfold P in H.
  destruct (zero_pad 2 n) as [|a [|b [|? ?]]]; try discriminate.
  apply andb_true_iff in H as [Ha Hb]. exists a, b. auto.
Qed.

Lemma digit_not_lit (c x : ascii) :
  is_digit x = false -> is_digit c = true ->
  Ascii.eqb (lower c) (lower x) = false.
Proof.
  intros Hx Hc. destruct (Ascii.eqb (lower c) (lower x)) eqn:E; [|reflexivity].
  apply Ascii.eqb_eq in E. exfalso.
  assert (Hl : forall a, is_digit (lower a) = is_digit a).
  { intros a. destruct a as [[] [] [] [] [] [] [] []]; reflexivity. }
  rewrite <- (Hl c), E, Hl in Hc. congruence.
Qed.

Lemma alts_lit_digit (x c : ascii) (r : string) :
  is_digit x = false -> is_digit c = true ->
  alts (FLit x) (String c r) = (Fnone, []).
Proof. intros Hx Hc. apply alts_lit_other, digit_not_lit; assumption. Qed.

Lemma alts_spaces_digit (c : ascii) (r : string) :
  is_digit c = true -> alts FSpaces (String c r) = (Fnone, []).
Proof. intros Hc. apply alts_spaces_nonspace, digit_not_space, Hc. Qed.

Lemma alts_lit_same (x : ascii) (r : string) :
  alts (FLit x) (String x r) = (Fnone, [(0, r)]).
Proof. cbn [alts]. rewrite (proj2 (Ascii.eqb_eq _ _) eq_refl). reflexivity. Qed.

(** A month printed with two digits, as [run_day_then]. *)
Lemma run_month_then (m : Z) (it : fmt_item) (rest : list fmt_item)
    (acc : Z * Z * Z) (T : string) :
  1 <= m <= 12 ->
  (forall c r, is_digit c = true -> alts it (String c r) = (Fnone, [])) ->
  run_items (FMonthNum :: it :: rest) acc (zero_pad 2 m +:+ T)
  = run_items (it :: rest) (set_field Fm m acc) T.
Proof.
  intros Hm Hit.
  enum_range m 1 12;
    first
      [ apply (run_items_one FMonthNum _ _ _ Fm); vm_compute; reflexivity
      | eapply (run_items_two FMonthNum _ _ _ Fm);
        [ vm_compute; reflexivity
        | eapply run_items_none; apply Hit; vm_compute; reflexivity ] ].
Qed.

Lemma run_day_last (d : Z) (acc : Z * Z * Z) :
  1 <= d <= 31 ->
  run_items [FDay] acc (zero_pad 2 d) = Some (set_field Fd d acc, EmptyString).
Proof.
  intros Hd.
  enum_range d 1 31;
    (eapply (run_items_first FDay); [vm_compute; reflexivity | reflexivity]).
Qed.

Lemma alts_year_digits (a b c e : ascii) (r : string) :
  is_digit a = true -> is_digit b = true -> is_digit c = true ->
  is_digit e = true ->
  alts FYear (String a (String b (String c (String e r))))
  = (FY, [(digits_value 0 (String a (String b (String c (String e EmptyString)))), r)]).
Proof.
  intros Ha Hb Hc He. cbn [alts alts_year]. rewrite Ha, Hb, Hc, He. reflexivity.
Qed.

Lemma set_field_none (v : Z) (acc : Z * Z * Z) : set_field Fnone v acc = acc.
Proof. destruct acc as [[? ?] ?]. reflexivity. Qed.

(** A blank, the short name of a month, a blank and a year. *)
Lemma run_abbr_year (m : Z) (y0 m0 d0 : Z) (a b c e : ascii) :
  1 <= m <= 12 ->
  is_digit a = true -> is_digit b = true -> is_digit c = true ->
  is_digit e = true ->
  let Y := String a (String b (String c (String e EmptyString))) in
  run_items [FSpaces; FMonthAbbr; FSpaces; FYear] (y0, m0, d0)
    (String " " (nth (Z.to_nat (m - 1)) month_abbr_out EmptyString +:+ String " " Y))
  = Some (digits_value 0 Y, m, d0, EmptyString).
Proof.
  intros Hm Ha Hb Hc He Y.
  enum_range m 1 12;
    (erewrite run_items_one by (apply alts_spaces_one; reflexivity);
     erewrite run_items_one by (vm_compute; reflexivity);
     erewrite run_items_one
       by (apply alts_spaces_one, digit_not_space, Ha);
     erewrite run_items_one by (apply alts_year_digits; assumption);
     reflexivity).
Qed.

(** The same with the full name of the month. *)
Lemma run_full_year (m : Z) (y0 m0 d0 : Z) (a b c e : ascii) :
  1 <= m <= 12 ->
  is_digit a = true -> is_digit b = true -> is_digit c = true ->
  is_digit e = true ->
  let Y := String a (String b (String c (String e EmptyString))) in
  run_items [FSpaces; FMonthFull; FSpaces; FYear] (y0, m0, d0)
    (String " " (nth (Z.to_nat (m - 1)) month_full_out EmptyString +:+ String " " Y))
  = Some (digits_value 0 Y, m, d0, EmptyString).
Proof.
  intros Hm Ha Hb Hc He Y.
  enum_range m 1 12;
    (erewrite run_items_one by (apply alts_spaces_one; reflexivity);
     erewrite run_items_one by (vm_compute; reflexivity);
     erewrite run_items_one
       by (apply alts_spaces_one, digit_not_space, Ha);
     erewrite run_items_one by (apply alts_year_digits; assumption);
     reflexivity).
Qed.

(** The short names read at a full name: only May is both. *)
Lemma run_abbr_at_full (m : Z) (y0 m0 d0 : Z) (a b c e : ascii) :
  1 <= m <= 12 ->
  is_digit a = true -> is_digit b = true -> is_digit c = true ->
  is_digit e = true ->
  let Y := String a (String b (String c (String e EmptyString))) in
  run_items [FSpaces; FMonthAbbr; FSpaces; FYear] (y0, m0, d0)
    (String " " (nth (Z.to_nat (m - 1)) month_full_out EmptyString +:+ String " " Y))
  = if m =? 5 then Some (digits_value 0 Y, m, d0, EmptyString) else None.
Proof.
  intros Hm Ha Hb Hc He Y.
  enum_range m 1 12;
    erewrite run_items_one by (apply alts_spaces_one; reflexivity);
    erewrite run_items_one by (vm_compute; reflexivity);
    first
      [ erewrite run_items_none by (apply alts_spaces_nonspace; reflexivity);
        reflexivity
      | erewrite run_items_one
          by (apply alts_spaces_one, digit_not_space, Ha);
        erewrite run_items_one by (apply alts_year_digits; assumption);
        reflexivity ].
Qed.

Lemma rstrip_fixed_cons (x : ascii) (s : string) :
  rstrip s = s -> s <> EmptyString -> rstrip (String x s) = String x s.
Proof.
  intros H Hne. cbn [rstrip]. rewrite H.
  destruct s; [congruence|]. rewrite andb_false_r. reflexivity.
Qed.

Lemma append_nonempty_r (p s : string) : s <> EmptyString -> p +:+ s <> EmptyString.
Proof. destruct p; [auto|discriminate]. Qed.

Lemma rstrip_fixed_app (p s : string) :
  rstrip s = s -> s <> EmptyString -> rstrip (p +:+ s) = p +:+ s.
Proof.
  intros H Hne. induction p as [|x p IH]; [exact H|].
  cbn [String.append]. apply rstrip_fixed_cons; [exact IH|].
  apply append_nonempty_r, Hne.
Qed.

Lemma rstrip_four (a b c e : ascii) :
  is_space e = false ->
  rstrip (String a (String b (String c (String e EmptyString))))
  = String a (String b (String c (String e EmptyString))).
Proof.
  intros H.
  apply (rstrip_app_nonspace (String a (String b (String c EmptyString))) e H).
Qed.

Lemma rstrip_two (a b : ascii) :
  is_space b = false ->
  rstrip (String a (String b EmptyString)) = String a (String b EmptyString).
Proof. intros H. apply (rstrip_app_nonspace (String a EmptyString) b H). Qed.

(** A text that starts and ends with characters that are not white
    space is its own [strip]. *)
Lemma strip_fixed (c : ascii) (r : string) :
  is_space c = false -> rstrip (String c r) = String c r ->
  strip (String c r) = String c r.
Proof. intros Hc Hr. unfold strip. rewrite lstrip_nonspace by exact Hc. exact Hr. Qed.

Ltac rstrip_fixed :=
  repeat first
    [ apply rstrip_four; apply digit_not_space; assumption
    | apply rstrip_two; apply digit_not_space; assumption
    | apply rstrip_fixed_cons
    | apply rstrip_fixed_app
    | apply append_nonempty_r
    | discriminate ].

Lemma valid_date_bounds (y m d : Z) :
  valid_date y m d = true ->
  1 <= y <= 9999 /\ 1 <= m <= 12 /\ 1 <= d <= days_in_month y m /\ d <= 31.
Proof.
  unfold valid_date. intros H.
  repeat (apply andb_true_iff in H; destruct H as [H ?]).
  assert (days_in_month y m <= 31).
  { unfold days_in_month. repeat case_if; lia. }
  lia.
Qed.

Section RoundTrip.

Variables y m d : Z.
Hypothesis Hvalid : valid_date y m d = true.
Hypothesis Hyear : 1000 <= y.

Ltac setup :=
destruct (valid_date_bounds y m d Hvalid) as (Hy & Hm & Hd & Hd');
destruct (year_digits y ltac:(lia))
  as (a & b & c & e & EY & Ha & Hb & Hc & He & Hval);
destruct (two_digits d ltac:(lia)) as (d1 & d2 & ED & Hd1 & Hd2);
destruct (two_digits m ltac:(lia)) as (m1 & m2 & EM & Hm1 & Hm2);
rewrite EY in Hval;
cbn [strftime Ascii.eqb Bool.eqb year month day];
rewrite append_nil_r.

Lemma strftime_abbr_stripped :
strip (strftime (mkDate y m d) "%d %b %Y") = strftime (mkDate y m d) "%d %b %Y".
Proof.
setup. rewrite EY, ED. cbn [String.append].
apply strip_fixed; [apply digit_not_space, Hd1|]. rstrip_fixed.
Qed.

Lemma strftime_full_stripped :
strip (strftime (mkDate y m d) "%d %B %Y") = strftime (mkDate y m d) "%d %B %Y".
Proof.
setup. rewrite EY, ED. cbn [String.append].
apply strip_fixed; [apply digit_not_space, Hd1|]. rstrip_fixed.
Qed.

Lemma strftime_iso_stripped :
strip (strftime (mkDate y m d) "%Y-%m-%d") = strftime (mkDate y m d) "%Y-%m-%d".
Proof.
setup. rewrite EY, ED, EM. cbn [String.append].
apply strip_fixed; [apply digit_not_space, Ha|]. rstrip_fixed.
Qed.

Lemma strftime_slash_stripped :
strip (strftime (mkDate y m d) "%d/%m/%Y") = strftime (mkDate y m d) "%d/%m/%Y".
Proof.
setup. rewrite EY, ED, EM. cbn [String.append].
apply strip_fixed; [apply digit_not_space, Hd1|]. rstrip_fixed.
Qed.

Ltac items fmt l :=
unfold strptime; change (compile_format false fmt) with (Some l);
cbv iota beta.

Lemma strptime_abbr :
strptime (strftime (mkDate y m d) "%d %b %Y") "%d %b %Y" = Some (mkDate y m d).
Proof.
setup. rewrite EY.
items "%d %b %Y" [FDay; FSpaces; FMonthAbbr; FSpaces; FYear].
rewrite run_day_then by (lia || apply alts_spaces_digit).
cbn [set_field]. rewrite run_abbr_year by (lia || assumption).
rewrite Hval, Hvalid. reflexivity.
Qed.

Lemma strptime_abbr_at_full :
strptime (strftime (mkDate y m d) "%d %B %Y") "%d %b %Y"
= if m =? 5 then Some (mkDate y m d) else None.
Proof.
setup. rewrite EY.
items "%d %b %Y" [FDay; FSpaces; FMonthAbbr; FSpaces; FYear].
rewrite run_day_then by (lia || apply alts_spaces_digit).
cbn [set_field]. rewrite run_abbr_at_full by (lia || assumption).
destruct (m =? 5); [|reflexivity].
rewrite Hval, Hvalid. reflexivity.
Qed.

Lemma strptime_full :
strptime (strftime (mkDate y m d) "%d %B %Y") "%d %B %Y" = Some (mkDate y m d).
Proof.
setup. rewrite EY.
items "%d %B %Y" [FDay; FSpaces; FMonthFull; FSpaces; FYear].
rewrite run_day_then by (lia || apply alts_spaces_digit).
cbn [set_field]. rewrite run_full_year by (lia || assumption).
rewrite Hval, Hvalid. reflexivity.
Qed.

(** A date written with dashes or slashes is not a day followed by white
  space. *)
Lemma strptime_names_at_iso (fmt : string) :
fmt = "%d %b %Y" \/ fmt = "%d %B %Y" ->
strptime (strftime (mkDate y m d) "%Y-%m-%d") fmt = None.
Proof.
intros Hf. setup. rewrite EY. cbn [String.append].
destruct Hf as [-> | ->];
  [ items "%d %b %Y" [FDay; FSpaces; FMonthAbbr; FSpaces; FYear]
  | items "%d %B %Y" [FDay; FSpaces; FMonthFull; FSpaces; FYear] ];
  rewrite run_day_spaces_none by (apply digit_not_space; assumption);
  reflexivity.
Qed.

Lemma strptime_names_at_slash (fmt : string) :
fmt = "%d %b %Y" \/ fmt = "%d %B %Y" ->
strptime (strftime (mkDate y m d) "%d/%m/%Y") fmt = None.
Proof.
intros Hf. setup. rewrite ED. cbn [String.append].
destruct Hf as [-> | ->];
  [ items "%d %b %Y" [FDay; FSpaces; FMonthAbbr; FSpaces; FYear]
  | items "%d %B %Y" [FDay; FSpaces; FMonthFull; FSpaces; FYear] ];
  rewrite run_day_spaces_none
    by (reflexivity || apply digit_not_space; assumption);
  reflexivity.
Qed.

Lemma strptime_iso :
strptime (strftime (mkDate y m d) "%Y-%m-%d") "%Y-%m-%d" = Some (mkDate y m d).
Proof.
setup. rewrite EY. cbn [String.append].
items "%Y-%m-%d" [FYear; FLit "-"; FMonthNum; FLit "-"; FDay].
erewrite run_items_one by (apply alts_year_digits; assumption).
erewrite run_items_one by apply alts_lit_same.
rewrite run_month_then
  by (lia || (intros; apply alts_lit_digit; [reflexivity | assumption])).
erewrite run_items_one by apply alts_lit_same.
rewrite run_day_last by lia.
cbn [set_field]. rewrite Hval, Hvalid. reflexivity.
Qed.

Lemma strptime_iso_at_slash :
strptime (strftime (mkDate y m d) "%d/%m/%Y") "%Y-%m-%d" = None.
Proof.
setup. rewrite ED, EM. cbn [String.append].
items "%Y-%m-%d" [FYear; FLit "-"; FMonthNum; FLit "-"; FDay].
erewrite run_items_none; [reflexivity|].
cbn [alts alts_year]. rewrite Hd1, Hd2. reflexivity.
Qed.

Lemma strptime_slash :
strptime (strftime (mkDate y m d) "%d/%m/%Y") "%d/%m/%Y" = Some (mkDate y m d).
Proof.
setup. rewrite EY.
items "%d/%m/%Y" [FDay; FLit "/"; FMonthNum; FLit "/"; FYear].
rewrite run_day_then
  by (lia || (intros; apply alts_lit_digit; [reflexivity | assumption])).
erewrite run_items_one by apply alts_lit_same.
rewrite run_month_then
  by (lia || (intros; apply alts_lit_digit; [reflexivity | assumption])).
erewrite run_items_one by apply alts_lit_same.
erewrite run_items_one by (apply alts_year_digits; assumption).
cbn [set_field run_items]. rewrite Hval, Hvalid. reflexivity.
Qed.

Lemma parse_date_of_format (fmt : string) :
In fmt date_formats -> _parse_date (_format_date (mkDate y m d) fmt) = Some (mkDate y m d).
Proof.
intros Hin. unfold _format_date, _parse_date, date_formats in *.
cbn [In] in Hin. destruct Hin as [<-|[<-|[<-|[<-|[]]]]].
- rewrite strftime_abbr_stripped, strptime_abbr. reflexivity.
- rewrite strftime_full_stripped, strptime_abbr_at_full, strptime_full.
  destruct (m =? 5); reflexivity.
- rewrite strftime_iso_stripped.
  rewrite !strptime_names_at_iso by auto. rewrite strptime_iso. reflexivity.
- rewrite strftime_slash_stripped.
  rewrite !strptime_names_at_slash by auto.
  rewrite strptime_iso_at_slash, strptime_slash. reflexivity.
Qed.

End RoundTrip.

(** X1. Parsing inverts formatting: a calendar date of a year with four
    digits, written by [_format_date] in any of the four formats that
    [_parse_date] knows, is read back by [_parse_date] as the same
    date. *)
Theorem parse_date_inverts_format_date :
  forall (y m d : Z) (fmt : string),
    valid_date y m d = true ->
    1000 <= y ->
    In fmt date_formats ->
    _parse_date (_format_date (mkDate y m d) fmt) = Some (mkDate y m d).
Proof. intros y m d fmt Hv Hy Hin. apply parse_date_of_format; assumption. Qed.

Lemma parse_date_inverts_format_date_witness :
  _format_date (mkDate 2024 2 29) "%d %B %Y" = "29 February 2024"
  /\ _parse_date (_format_date (mkDate 2024 2 29) "%d %B %Y")
     = Some (mkDate 2024 2 29)
  /\ _parse_date (_format_date (mkDate 1999 12 31) "%d/%m/%Y")
     = Some (mkDate 1999 12 31).
Proof.
  split; [reflexivity|]. split.
  - apply (parse_date_inverts_format_date 2024 2 29 "%d %B %Y");
      [reflexivity | lia | right; left; reflexivity].
  - apply (parse_date_inverts_format_date 1999 12 31 "%d/%m/%Y");
      [reflexivity | lia | do 3 right; left; reflexivity].
Defined.

(** ** White space around a date *)

Lemma lstrip_all_space (a : string) :
  all_chars is_space a = true -> lstrip a = EmptyString.
Proof.
  induction a as [|c a IH]; [reflexivity|]. cbn [all_chars lstrip].
  intros H. apply andb_true_iff in H as [Hc Ha]. rewrite Hc. apply IH, Ha.
Qed.

Lemma rstrip_all_space (b : string) :
  all_chars is_space b = true -> rstrip b = EmptyString.
Proof.
  induction b as [|c b IH]; [reflexivity|]. cbn [all_chars rstrip].
  intros H. apply andb_true_iff in H as [Hc Hb]. rewrite (IH Hb), Hc. reflexivity.
Qed.

Lemma lstrip_app_space (a s : string) :
  all_chars is_space a = true -> lstrip (a +:+ s) = lstrip s.
Proof.
  induction a as [|c a IH]; [reflexivity|]. cbn [all_chars String.append lstrip].
  intros H. apply andb_true_iff in H as [Hc Ha]. rewrite Hc. apply IH, Ha.
Qed.

Lemma rstrip_app_space (s b : string) :
  all_chars is_space b = true -> rstrip (s +:+ b) = rstrip s.
Proof.
  intros Hb. induction s as [|c s IH].
  - cbn [String.append]. rewrite rstrip_all_space by exact Hb. reflexivity.
  - cbn [String.append rstrip]. rewrite IH. reflexivity.
Qed.

Lemma strip_app_space (a s b : string) :
  all_chars is_space a = true -> all_chars is_space b = true ->
  strip (a +:+ s +:+ b) = strip s.
Proof.
  intros Ha Hb. unfold strip. rewrite lstrip_app_space by exact Ha.
  induction s as [|c s IH].
  - cbn [String.append]. rewrite lstrip_all_space by exact Hb. reflexivity.
  - cbn [String.append lstrip]. destruct (is_space c); [exact IH|].
    apply (rstrip_app_space (String c s) b Hb).
Qed.

Lemma rstrip_idem (s : string) : rstrip (rstrip s) = rstrip s.
Proof.
  induction s as [|c s IH]; [reflexivity|]. cbn [rstrip].
  destruct (is_space c && is_empty (rstrip s)) eqn:E; [reflexivity|].
  cbn [rstrip]. rewrite IH, E. reflexivity.
Qed.

Lemma lstrip_rstrip_lstrip (s : string) :
  lstrip (rstrip (lstrip s)) = rstrip (lstrip s).
Proof.
  induction s as [|c s IH]; [reflexivity|]. cbn [lstrip].
  destruct (is_space c) eqn:Hc; [exact IH|].
  cbn [rstrip]. rewrite Hc. cbn [andb lstrip]. rewrite Hc. reflexivity.
Qed.

Lemma strip_idem (s : string) : strip (strip s) = strip s.
Proof. unfold strip. rewrite lstrip_rstrip_lstrip. apply rstrip_idem. Qed.

Lemma strptime_valid (s fmt : string) (dt : datetime) :
  strptime s fmt = Some dt -> valid_date (year dt) (month dt) (day dt) = true.
Proof.
  unfold strptime. destruct (compile_format false fmt); [|discriminate].
  destruct (run_items _ _ _) as [[[[y m] d] [|? ?]]|]; try discriminate.
  destruct (valid_date y m d) eqn:E; [|discriminate].
  intros H. injection H as <-. exact E.
Qed.

Lemma parse_date_valid (s : string) (dt : datetime) :
  _parse_date s = Some dt -> valid_date (year dt) (month dt) (day dt) = true.
Proof.
  unfold _parse_date, date_formats. cbv beta iota fix.
  destruct (strptime (strip s) "%d %b %Y") eqn:E1;
    [intros H; injection H as <-; exact (strptime_valid _ _ _ E1)|].
  destruct (strptime (strip s) "%d %B %Y") eqn:E2;
    [intros H; injection H as <-; exact (strptime_valid _ _ _ E2)|].
  destruct (strptime (strip s) "%Y-%m-%d") eqn:E3;
    [intros H; injection H as <-; exact (strptime_valid _ _ _ E3)|].
  destruct (strptime (strip s) "%d/%m/%Y") eqn:E4;
    [intros H; injection H as <-; exact (strptime_valid _ _ _ E4)|].
  discriminate.
Qed.

Lemma parse_date_of_strip (s s' : string) :
  strip s = strip s' -> _parse_date s = _parse_date s'.
Proof. intros H. unfold _parse_date. rewrite H. reflexivity. Qed.

(** X2. [_parse_date] does not see white space around the text: the
    text alone, its [strip], and the text between two runs of white space
    all give the same answer. What it returns is a date of the calendar:
    a text such as [31 Feb 2024] or [29 Feb 2023] is not parsed. *)
Theorem parse_date_ignores_outer_space :
  (forall s, _parse_date (strip s) = _parse_date s)
  /\ (forall a s b,
        all_chars is_space a = true -> all_chars is_space b = true ->
        _parse_date (a +:+ s +:+ b) = _parse_date s)
  /\ (forall s dt,
        _parse_date s = Some dt ->
        valid_date (year dt) (month dt) (day dt) = true)
  /\ _parse_date "31 Feb 2024" = None
  /\ _parse_date "29 Feb 2023" = None.
Proof.
  split; [|split; [|split; [|split]]].
  - intros s. apply parse_date_of_strip, strip_idem.
  - intros a s b Ha Hb. apply parse_date_of_strip, strip_app_space; assumption.
  - exact parse_date_valid.
  - reflexivity.
  - reflexivity.
Qed.

(** ** The compact form of a date *)

Lemma all_chars_app (p : ascii -> bool) (a b : string) :
  all_chars p (a +:+ b) = all_chars p a && all_chars p b.
Proof.
  induction a as [|c a IH]; [reflexivity|].
  cbn [String.append all_chars]. rewrite IH, andb_assoc. reflexivity.
Qed.

Lemma all_chars_not_mem (p : ascii -> bool) (c : ascii) (s : string) :
  all_chars p s = true -> p c = false -> mem_char c s = false.
Proof.
  intros Hs Hc. induction s as [|a s IH]; [reflexivity|].
  cbn [all_chars] in Hs. apply andb_true_iff in Hs as [Ha Hs].
  cbn [mem_char]. rewrite (IH Hs), orb_false_r.
  destruct (Ascii.eqb a c) eqn:E; [|reflexivity].
  apply Ascii.eqb_eq in E. congruence.
Qed.

Lemma string_of_uint_digits (d : Decimal.uint) :
  all_chars is_digit (NilEmpty.string_of_uint d) = true.
Proof. induction d; cbn [NilEmpty.string_of_uint all_chars]; auto. Qed.

(** A number that is not negative is printed with digits only. *)
Lemma str_of_Z_digits (n : Z) : 0 <= n -> all_chars is_digit (str_of_Z n) = true.
Proof.
  intros Hn. unfold str_of_Z, NilZero.string_of_int, NilZero.string_of_uint.
  destruct n as [|p|p]; [reflexivity| |lia].
  cbn [Z.to_int]. destruct (Pos.to_uint p) eqn:E; try reflexivity;
    rewrite <- E; apply string_of_uint_digits.
Qed.

Lemma zero_pad_digits (w : nat) (n : Z) :
  0 <= n -> all_chars is_digit (zero_pad w n) = true.
Proof.
  intros Hn. unfold zero_pad. rewrite all_chars_app, str_of_Z_digits by exact Hn.
  rewrite andb_true_r.
  induction (w - String.length (str_of_Z n))%nat as [|k IH]; [reflexivity|exact IH].
Qed.


Lemma length_app (a b : string) :
  String.length (a +:+ b) = (String.length a + String.length b)%nat.
Proof. induction a as [|c a IH]; [reflexivity|]. cbn. rewrite IH. reflexivity. Qed.




(** ** Date ranges *)

Lemma split_aux_nonempty (sep : string) (skip : nat) (cur s : string) :
  split_aux sep skip cur s <> [].
Proof.
  revert skip cur. induction s as [|c s IH]; intros skip cur; cbn [split_aux].
  - discriminate.
  - destruct skip; [|apply IH].
    destruct (strip_prefix sep (String c s)); [discriminate|apply IH].
Qed.

(** A text that holds the separator splits into two parts at least. *)
Lemma split_aux_two (sep : string) (cur s : string) :
  contains sep s = true -> sep <> EmptyString ->
  (2 <= length (split_aux sep 0 cur s))%nat.
Proof.
  intros H Hsep. revert cur H. induction s as [|c s IH]; intros cur H.
  - destruct sep; [congruence|discriminate].
  - cbn [split_aux]. cbn [contains] in H.
    destruct (strip_prefix sep (String c s)).
    + cbn [length].
      pose proof (split_aux_nonempty sep (String.length sep - 1) EmptyString s).
      destruct (split_aux sep (String.length sep - 1) EmptyString s);
        [congruence | cbn [length]; lia].
    + apply IH, H.
Qed.

Lemma strip_prefix_app (p r : string) : strip_prefix p (p +:+ r) = Some r.
Proof.
  induction p as [|a p IH]; [reflexivity|].
  cbn [String.append strip_prefix].
  rewrite (proj2 (Ascii.eqb_eq a a) eq_refl). exact IH.
Qed.

Lemma contains_app (sep a b : string) : contains sep (a +:+ sep +:+ b) = true.
Proof.
  induction a as [|c a IH].
  - cbn [String.append]. destruct (sep +:+ b) eqn:E;
      cbn [contains]; rewrite <- E, strip_prefix_app; reflexivity.
  - cbn [String.append contains].
    destruct (strip_prefix sep _); [reflexivity | exact IH].
Qed.

(** No separator [ - ] starts inside a text without a dash, or without
    a blank, whatever follows the text. *)
Lemma no_sep_inside (c : ascii) (a rest : string) :
  mem_char "-" (String c a) = false \/ mem_char " " (String c a) = false ->
  (a = EmptyString -> forall x r, rest = String x r -> x <> "-"%char) ->
  strip_prefix " - " (String c (a +:+ rest)) = None.
Proof.
  intros H Hrest. cbn [strip_prefix].
  destruct (Ascii.eqb " " c) eqn:Ec; [|reflexivity].
  apply Ascii.eqb_eq in Ec. subst c.
  destruct H as [H|H]; [|discriminate].
  cbn [mem_char] in H. apply orb_false_iff in H as [_ H].
  destruct a as [|x a].
  - cbn [String.append]. destruct rest as [|x r]; [reflexivity|].
    destruct (Ascii.eqb "-" x) eqn:E; [|reflexivity].
    apply Ascii.eqb_eq in E. exfalso. exact (Hrest eq_refl x r eq_refl (eq_sym E)).
  - cbn [String.append]. cbn [mem_char] in H. apply orb_false_iff in H as [Hx _].
    rewrite Ascii.eqb_sym, Hx. reflexivity.
Qed.

Lemma mem_char_tail (x c : ascii) (a : string) :
  mem_char x (String c a) = false -> mem_char x a = false.
Proof. cbn [mem_char]. intros H. apply orb_false_iff in H as [_ H]. exact H. Qed.

Lemma sep_free_tail (c : ascii) (a : string) :
  mem_char "-" (String c a) = false \/ mem_char " " (String c a) = false ->
  mem_char "-" a = false \/ mem_char " " a = false.
Proof. intros [H|H]; [left|right]; exact (mem_char_tail _ _ _ H). Qed.

(** The first part of the split ends where the separator stands. *)
Lemma split_aux_at_sep (cur a b : string) :
  mem_char "-" a = false \/ mem_char " " a = false ->
  split_aux " - " 0 cur (a +:+ " - " +:+ b)
  = (cur +:+ a) :: split_aux " - " 0 EmptyString b.
Proof.
  intros H. revert cur. induction a as [|c a IH]; intros cur.
  - cbn [String.append]. rewrite append_nil_r.
    change (split_aux " - " 0 cur (String " " (String "-" (String " " b))))
      with (cur :: split_aux " - " 2 EmptyString (String "-" (String " " b))).
    reflexivity.
  - change (String c a +:+ " - " +:+ b) with (String c (a +:+ " - " +:+ b)).
    cbn [split_aux].
    rewrite (no_sep_inside c a (" - " +:+ b) H)
      by (intros _ x r E; injection E as <- _; discriminate).
    rewrite (IH (sep_free_tail c a H)), append_assoc'. reflexivity.
Qed.

Lemma split_aux_sep_free (cur b : string) :
  mem_char "-" b = false \/ mem_char " " b = false ->
  split_aux " - " 0 cur b = [cur +:+ b].
Proof.
  intros H. revert cur. induction b as [|c b IH]; intros cur.
  - cbn [split_aux]. rewrite append_nil_r. reflexivity.
  - cbn [split_aux].
    pose proof (no_sep_inside c b EmptyString H) as N.
    rewrite append_nil_r in N. rewrite N by (intros _ x r E; discriminate).
    rewrite (IH (sep_free_tail c b H)), append_assoc'. reflexivity.
Qed.

Lemma contains_sep_free (b : string) :
  mem_char "-" b = false \/ mem_char " " b = false ->
  contains " - " b = false.
Proof.
  intros H. induction b as [|c b IH]; [reflexivity|].
  cbn [contains].
  pose proof (no_sep_inside c b EmptyString H) as N.
  rewrite append_nil_r in N. rewrite N by (intros _ x r E; discriminate).
  apply IH, (sep_free_tail c b H).
Qed.

Lemma parse_date_strip (s : string) : _parse_date (strip s) = _parse_date s.
Proof. apply parse_date_of_strip, strip_idem. Qed.

(** The two ends of a range. *)
Lemma extract_range_ends (a b mode : string) :
  strip (a +:+ " - " +:+ b) = a +:+ " - " +:+ b ->
  mem_char "-" a = false \/ mem_char " " a = false ->
  mem_char "-" b = false \/ mem_char " " b = false ->
  _extract_date_from_range (a +:+ " - " +:+ b) mode
  = if String.eqb mode "start" then _parse_date a else _parse_date b.
Proof.
  intros Hs Ha Hb. unfold _extract_date_from_range. rewrite Hs.
  rewrite contains_app. unfold split.
  rewrite split_aux_at_sep by exact Ha.
  rewrite split_aux_sep_free by exact Hb.
  cbn [nth String.append]. destruct (String.eqb mode "start");
    apply parse_date_strip.
Qed.

Lemma month_name_no_dash (m : Z) (names : list string) :
  names = month_abbr_out \/ names = month_full_out ->
  mem_char "-" (nth (Z.to_nat (m - 1)) names EmptyString) = false.
Proof.
  intros [-> | ->];
    (destruct (Z.to_nat (m - 1)) as [|[|[|[|[|[|[|[|[|[|[|[|k]]]]]]]]]]]];
     try reflexivity; destruct k; reflexivity).
Qed.

Lemma zero_pad_no_dash (w : nat) (n : Z) :
  0 <= n -> mem_char "-" (zero_pad w n) = false.
Proof.
  intros H. apply (all_chars_not_mem is_digit);
    [apply zero_pad_digits, H | reflexivity].
Qed.

Lemma zero_pad_no_blank (w : nat) (n : Z) :
  0 <= n -> mem_char " " (zero_pad w n) = false.
Proof.
  intros H. apply (all_chars_not_mem is_digit);
    [apply zero_pad_digits, H | reflexivity].
Qed.

(** What a date written in one of the four formats looks like: it starts
    with a digit, it is its own [strip], and it has no dash or no blank. *)
Lemma formatted_date_shape (y m d : Z) (fmt : string) :
  valid_date y m d = true -> 1000 <= y -> In fmt date_formats ->
  let s := _format_date (mkDate y m d) fmt in
  (exists c r, s = String c r /\ is_space c = false)
  /\ strip s = s
  /\ (mem_char "-" s = false \/ mem_char " " s = false).
Proof.
  intros Hv Hy Hin s. subst s. unfold _format_date.
  destruct (valid_date_bounds y m d Hv) as (Hy' & Hm & Hd & Hd').
  destruct (year_digits y ltac:(lia)) as (a & b & c & e & EY & Ha & _).
  destruct (two_digits d ltac:(lia)) as (d1 & d2 & ED & Hd1 & _).
  unfold date_formats in Hin. cbn [In] in Hin.
  destruct Hin as [<-|[<-|[<-|[<-|[]]]]].
  - split; [|split; [apply strftime_abbr_stripped; assumption|left]];
      cbn [strftime Ascii.eqb Bool.eqb year month day].
    + rewrite ED. cbn [String.append]. eexists _, _. split; [reflexivity|].
      apply digit_not_space, Hd1.
    + repeat (rewrite ?mem_char_app; cbn [mem_char]).
      rewrite !zero_pad_no_dash by lia.
      rewrite month_name_no_dash by auto. reflexivity.
  - split; [|split; [apply strftime_full_stripped; assumption|left]];
      cbn [strftime Ascii.eqb Bool.eqb year month day].
    + rewrite ED. cbn [String.append]. eexists _, _. split; [reflexivity|].
      apply digit_not_space, Hd1.
    + repeat (rewrite ?mem_char_app; cbn [mem_char]).
      rewrite !zero_pad_no_dash by lia.
      rewrite month_name_no_dash by auto. reflexivity.
  - split; [|split; [apply strftime_iso_stripped; assumption|right]];
      cbn [strftime Ascii.eqb Bool.eqb year month day].
    + rewrite EY. cbn [String.append]. eexists _, _. split; [reflexivity|].
      apply digit_not_space, Ha.
    + repeat (rewrite ?mem_char_app; cbn [mem_char]).
      rewrite !zero_pad_no_blank by lia. reflexivity.
  - split; [|split; [apply strftime_slash_stripped; assumption|left]];
      cbn [strftime Ascii.eqb Bool.eqb year month day].
    + rewrite ED. cbn [String.append]. eexists _, _. split; [reflexivity|].
      apply digit_not_space, Hd1.
    + repeat (rewrite ?mem_char_app; cbn [mem_char]).
      rewrite !zero_pad_no_dash by lia. reflexivity.
Qed.

Lemma strip_range (a b : string) :
  (exists c r, a = String c r /\ is_space c = false) ->
  (exists c r, b = String c r /\ is_space c = false) ->
  strip b = b ->
  strip (a +:+ " - " +:+ b) = a +:+ " - " +:+ b.
Proof.
  intros (c & r & -> & Hc) (c' & r' & -> & Hc') Hb.
  assert (Hr : rstrip (String c' r') = String c' r').
  { unfold strip in Hb. rewrite lstrip_nonspace in Hb by exact Hc'. exact Hb. }
  cbn [String.append]. apply strip_fixed; [exact Hc|].
  apply (rstrip_fixed_app (String c r) (" - " +:+ String c' r')); [|discriminate].
  apply (rstrip_fixed_app " - "); [exact Hr | discriminate].
Qed.

(** X4. [_extract_date_from_range] on a range whose two ends are dates
    written by [_format_date] in formats that [_parse_date] knows: the
    mode [start] gives the first date and every other mode the second. A
    text without the separator is parsed as one date; and whenever the
    separator is in the text, the split has the two parts that the code
    indexes. *)
Theorem extract_date_from_range_ends :
  (forall (y1 m1 d1 y2 m2 d2 : Z) (f1 f2 mode : string),
      valid_date y1 m1 d1 = true -> 1000 <= y1 -> In f1 date_formats ->
      valid_date y2 m2 d2 = true -> 1000 <= y2 -> In f2 date_formats ->
      _extract_date_from_range
        (_format_date (mkDate y1 m1 d1) f1 +:+ " - "
         +:+ _format_date (mkDate y2 m2 d2) f2) mode
      = Some (if String.eqb mode "start" then mkDate y1 m1 d1
              else mkDate y2 m2 d2))
  /\ (forall text mode,
        contains " - " (strip text) = false ->
        _extract_date_from_range text mode = _parse_date text)
  /\ (forall text,
        contains " - " text = true ->
        (2 <= length (split " - " text))%nat).
Proof.
  split; [|split].
  - intros y1 m1 d1 y2 m2 d2 f1 f2 mode Hv1 Hy1 Hf1 Hv2 Hy2 Hf2.
    destruct (formatted_date_shape y1 m1 d1 f1 Hv1 Hy1 Hf1) as (S1 & _ & F1).
    destruct (formatted_date_shape y2 m2 d2 f2 Hv2 Hy2 Hf2) as (S2 & T2 & F2).
    rewrite extract_range_ends by (auto using strip_range).
    destruct (String.eqb mode "start");
      apply parse_date_inverts_format_date; assumption.
  - intros text mode H. unfold _extract_date_from_range. rewrite H.
    apply parse_date_strip.
  - intros text H. apply split_aux_two; [exact H | discriminate].
Qed.

Lemma extract_date_from_range_ends_witness :
  _format_date (mkDate 2024 4 1) "%d %b %Y" +:+ " - "
  +:+ _format_date (mkDate 2024 6 30) "%d %b %Y"
  = "01 Apr 2024 - 30 Jun 2024"
  /\ _extract_date_from_range "01 Apr 2024 - 30 Jun 2024" "end"
     = Some (mkDate 2024 6 30).
Proof.
  split; [reflexivity|].
  exact (proj1 extract_date_from_range_ends 2024 4 1 2024 6 30
           "%d %b %Y" "%d %b %Y" "end"
           eq_refl ltac:(lia) ltac:(left; reflexivity)
           eq_refl ltac:(lia) ltac:(left; reflexivity)).
Defined.

(** ** The placeholder [TODAY] *)

Lemma month_name_no_dollar (m : Z) (names : list string) :
  names = month_abbr_out \/ names = month_full_out ->
  mem_char "$" (nth (Z.to_nat (m - 1)) names EmptyString) = false.
Proof.
  intros [-> | ->];
    (destruct (Z.to_nat (m - 1)) as [|[|[|[|[|[|[|[|[|[|[|[|k]]]]]]]]]]]];
     try reflexivity; destruct k; reflexivity).
Qed.

(** A date written in one of the four formats holds no placeholder. *)
Lemma formatted_date_no_placeholder (dt : datetime) (fmt : string) :
  In fmt date_formats -> has_placeholder (_format_date dt fmt) = false.
Proof.
  intros Hin. apply no_dollar_no_placeholder. unfold _format_date.
  unfold date_formats in Hin. cbn [In] in Hin.
  destruct Hin as [<-|[<-|[<-|[<-|[]]]]];
    cbn [strftime Ascii.eqb Bool.eqb];
    repeat (rewrite ?mem_char_app; cbn [mem_char]);
    rewrite ?zero_pad_no_dollar, ?month_name_no_dollar by auto; reflexivity.
Qed.

Lemma today_pass (now : datetime) (s : string) (g : option string) :
  match_today s = Some (g, EmptyString) ->
  re_sub match_today (replace_today now) s
  = Ok (_format_date now (default default_fmt g)).
Proof.
  intros H. unfold re_sub. destruct s as [|c r]; [discriminate|].
  cbn [re_sub_from]. rewrite H. cbn [replace_today bind_result].
  cbn [String.length].
  replace (S (String.length r) - 0 - 1)%nat with (String.length r) by lia.
  assert (K : forall t, re_sub_from match_today (replace_today now)
                          (String.length t) t = Ok EmptyString).
  { induction t as [|x t IH]; [reflexivity | exact IH]. }
  rewrite K. cbn [bind_result]. rewrite append_nil_r. reflexivity.
Qed.

Lemma resolve_today (now : datetime) (env : gmap string string)
    (vars : gmap string value) (s : string) (g : option string) :
  match_today s = Some (g, EmptyString) ->
  In (default default_fmt g) date_formats ->
  resolve_str now env vars s = Ok (_format_date now (default default_fmt g)).
Proof.
  intros H Hin. unfold resolve_str. rewrite (today_pass now s g H).
  cbn [bind_result].
  pose proof (formatted_date_no_placeholder now _ Hin) as N.
  rewrite (re_sub_no_placeholder _ _ match_date_add_placeholder _ N).
  cbn [bind_result].
  apply (re_sub_no_placeholder _ _ match_var_placeholder _ N).
Qed.

(** X5. The placeholder [TODAY], alone or with one of the four formats
    that [_parse_date] knows, resolves to the date of the clock written in
    that format, whatever the variables are; [_parse_date] reads the text
    back as that date, so a loop whose [filter_date_from] is [TODAY]
    filters on the date of the clock. *)
Theorem today_resolves_to_clock_date :
  forall (W : Type) (br : Browser W) (env : gmap string string)
         (m : Machine W) (fmt : string),
    let now := clock br (world m) in
    valid_date (year now) (month now) (day now) = true ->
    1000 <= year now ->
    In fmt date_formats ->
    resolve br env "${TODAY}" m = (Ok (_format_date now "%d %b %Y"), m)
    /\ resolve br env ("${TODAY:" +:+ fmt +:+ "}") m
       = (Ok (_format_date now fmt), m)
    /\ resolve_filter_date br env (Some "${TODAY}") m = (Ok (Some now), m)
    /\ resolve_filter_date br env (Some ("${TODAY:" +:+ fmt +:+ "}")) m
       = (Ok (Some now), m).
Proof.
  intros W br env m fmt now Hv Hy Hin.
  assert (Hnow : now = mkDate (year now) (month now) (day now))
    by (destruct now; reflexivity).
  assert (R0 : resolve br env "${TODAY}" m
               = (Ok (_format_date now "%d %b %Y"), m)).
  { unfold resolve. fold now.
    rewrite (resolve_today now env _ "${TODAY}" None);
      [reflexivity | reflexivity | left; reflexivity]. }
  assert (R1 : resolve br env ("${TODAY:" +:+ fmt +:+ "}") m
               = (Ok (_format_date now fmt), m)).
  { unfold resolve. fold now.
    rewrite (resolve_today now env _ _ (Some fmt));
      [reflexivity | | exact Hin].
    unfold date_formats in Hin. cbn [In] in Hin.
    destruct Hin as [<-|[<-|[<-|[<-|[]]]]]; reflexivity. }
  assert (P : forall f, In f date_formats ->
                        _parse_date (_format_date now f) = Some now).
  { intros f Hf. rewrite Hnow at 1 2.
    apply parse_date_inverts_format_date; assumption. }
  split; [exact R0|]. split; [exact R1|]. split.
  - unfold resolve_filter_date. cbn [opt_truthy truthy is_empty negb].
    unfold bind. cbn [default from_option id]. rewrite R0.
    unfold ret. rewrite P by (left; reflexivity). reflexivity.
  - unfold resolve_filter_date.
    replace (opt_truthy (Some ("${TODAY:" +:+ fmt +:+ "}"))) with true
      by reflexivity.
    unfold bind. cbn [default from_option id]. rewrite R1.
    unfold ret. rewrite P by exact Hin. reflexivity.
Qed.

Lemma today_resolves_to_clock_date_witness :
  resolve (page_browser always_ok) ∅ "${TODAY}" (start_machine empty_page)
  = (Ok "01 Jun 2024", start_machine empty_page)
  /\ resolve_filter_date (page_browser always_ok) ∅ (Some "${TODAY:%d/%m/%Y}")
       (start_machine empty_page)
     = (Ok (Some (mkDate 2024 6 1)), start_machine empty_page).
Proof.
  destruct (today_resolves_to_clock_date Page (page_browser always_ok) ∅
              (start_machine empty_page) "%d/%m/%Y"
              eq_refl ltac:(cbn; lia) ltac:(do 3 right; left; reflexivity))
    as (H0 & _ & _ & H3).
  split; [exact H0 | exact H3].
Defined.

(** ** The calendar *)

(** The days before a year, by the place of the year in its cycles of
    400, 100 and 4 years. *)
Lemma days_before_year_cycles (y : Z) :
  1 <= y ->
  let p := y - 1 in
  let a := p / 400 in
  let b := (p mod 400) / 100 in
  let c := (p mod 100) / 4 in
  let e := p mod 4 in
  days_before_year y = 146097 * a + 36524 * b + 1461 * c + 365 * e
  /\ 0 <= a /\ 0 <= b <= 3 /\ 0 <= c <= 24 /\ 0 <= e <= 3
  /\ y = 400 * a + 100 * b + 4 * c + e + 1
  /\ is_leap y = (e =? 3) && (negb (c =? 24) || (b =? 3)).
Proof.
  intros Hy p a b c e. unfold days_before_year. fold p.
  assert (E : is_leap y = (e =? 3) && (negb (c =? 24) || (b =? 3))).
  { unfold is_leap. subst a b c e p.
    destruct (y mod 4 =? 0) eqn:E4; destruct (y mod 100 =? 0) eqn:E100;
      destruct (y mod 400 =? 0) eqn:E400;
      destruct ((y - 1) mod 4 =? 3) eqn:F4;
      destruct ((y - 1) mod 100 / 4 =? 24) eqn:F24;
      destruct ((y - 1) mod 400 / 100 =? 3) eqn:F3;
      try reflexivity; exfalso;
      rewrite ?Z.eqb_eq, ?Z.eqb_neq in *;
      Z.div_mod_to_equations; lia. }
  subst a b c e p. repeat split; try exact E; Z.div_mod_to_equations; lia.
Qed.

(** [_ord2ymd] on a day given by its place in the cycles: [k] counts the
    days since the first of January. *)
Lemma fromordinal_cycles (a b c e k : Z) :
  0 <= a -> 0 <= b <= 3 -> 0 <= c <= 24 -> 0 <= e <= 3 ->
  let leap := (e =? 3) && (negb (c =? 24) || (b =? 3)) in
  0 <= k < 365 + (if leap then 1 else 0) ->
  let y := 400 * a + 100 * b + 4 * c + e + 1 in
  fromordinal (146097 * a + 36524 * b + 1461 * c + 365 * e + k + 1)
  = if k =? 365 then mkDate y 12 31
    else
      let m := (k + 50) / 32 in
      let preceding :=
        days_before_month_tbl m + (if (2 <? m) && leap then 1 else 0) in
      if k <? preceding then
        let m' := m - 1 in
        let dim :=
          if m' =? 2 then (if leap then 29 else 28)
          else if (m' =? 4) || (m' =? 6) || (m' =? 9) || (m' =? 11) then 30
          else 31 in
        mkDate y m' (k - (preceding - dim) + 1)
      else mkDate y m (k - preceding + 1).
Proof.
  intros Ha Hb Hc He leap Hk y.
  unfold fromordinal. cbv zeta.
  set (n := 146097 * a + 36524 * b + 1461 * c + 365 * e + k + 1 - 1).
  assert (Q400 : n / 146097 = a).
  { subst n leap. destruct ((e =? 3) && _) eqn:E in Hk;
      rewrite ?andb_true_iff, ?orb_true_iff, ?negb_true_iff,
              ?Z.eqb_eq, ?Z.eqb_neq in E;
      Z.div_mod_to_equations; lia. }
  assert (R400 : n mod 146097 = 36524 * b + 1461 * c + 365 * e + k).
  { subst n leap. destruct ((e =? 3) && _) eqn:E in Hk;
      rewrite ?andb_true_iff, ?orb_true_iff, ?negb_true_iff,
              ?Z.eqb_eq, ?Z.eqb_neq in E;
      Z.div_mod_to_equations; lia. }
  rewrite Q400, R400.
  destruct (k =? 365) eqn:Ek.
  - apply Z.eqb_eq in Ek. subst k.
    assert (L : leap = true) by (destruct leap; [reflexivity | lia]).
    subst leap. apply andb_true_iff in L as [Le Lc].
    apply Z.eqb_eq in Le. subst e.
    apply orb_true_iff in Lc as [Lc|Lc].
    + apply negb_true_iff, Z.eqb_neq in Lc.
      replace ((36524 * b + 1461 * c + 365 * 3 + 365) mod 36524 mod 1461 / 365)
        with 4 by (Z.div_mod_to_equations; lia).
      cbn [Z.eqb orb].
      replace ((36524 * b + 1461 * c + 365 * 3 + 365) / 36524) with b
        by (Z.div_mod_to_equations; lia).
      replace ((36524 * b + 1461 * c + 365 * 3 + 365) mod 36524 / 1461) with c
        by (Z.div_mod_to_equations; lia).
      subst y. f_equal. lia.
    + apply Z.eqb_eq in Lc. subst b.
      assert (c = 24 \/ c < 24) as [-> | Hc'] by lia.
      * replace ((36524 * 3 + 1461 * 24 + 365 * 3 + 365) / 36524) with 4
          by reflexivity.
        cbn [Z.eqb orb]. rewrite orb_true_r. subst y. f_equal.
        change ((36524 * 3 + 1461 * 24 + 365 * 3 + 365) mod 36524) with 0.
        change (0 mod 1461) with 0. change (0 / 1461) with 0.
        change (0 / 365) with 0. lia.
      * replace ((36524 * 3 + 1461 * c + 365 * 3 + 365) mod 36524 mod 1461 / 365)
          with 4 by (Z.div_mod_to_equations; lia).
        cbn [Z.eqb orb].
        replace ((36524 * 3 + 1461 * c + 365 * 3 + 365) / 36524) with 3
          by (Z.div_mod_to_equations; lia).
        replace ((36524 * 3 + 1461 * c + 365 * 3 + 365) mod 36524 / 1461) with c
          by (Z.div_mod_to_equations; lia).
        subst y. f_equal. lia.
  - apply Z.eqb_neq in Ek.
    assert (Hk' : 0 <= k < 365) by (destruct leap; lia).
    replace ((36524 * b + 1461 * c + 365 * e + k) / 36524) with b
      by (Z.div_mod_to_equations; lia).
    replace ((36524 * b + 1461 * c + 365 * e + k) mod 36524)
      with (1461 * c + 365 * e + k) by (Z.div_mod_to_equations; lia).
    replace ((1461 * c + 365 * e + k) / 1461) with c
      by (Z.div_mod_to_equations; lia).
    replace ((1461 * c + 365 * e + k) mod 1461) with (365 * e + k)
      by (Z.div_mod_to_equations; lia).
    replace ((365 * e + k) / 365) with e by (Z.div_mod_to_equations; lia).
    replace ((365 * e + k) mod 365) with k by (Z.div_mod_to_equations; lia).
    replace ((e =? 4) || (b =? 4)) with false
      by (symmetry; apply orb_false_iff; split; apply Z.eqb_neq; lia).
    fold leap. rewrite Z.shiftr_div_pow2 by lia.
    change (2 ^ 5) with 32.
    replace (a * 400 + 1 + b * 100 + c * 4 + e) with y by (subst y; lia).
    reflexivity.
Qed.

Ltac month_table :=
  repeat match goal with
         | |- context [days_before_month_tbl ?m] =>
             let m' := eval vm_compute in m in
             lazymatch m' with Z0 => idtac | Zpos _ => idtac | Zneg _ => idtac end;
             let v := eval vm_compute in (days_before_month_tbl m) in
             change (days_before_month_tbl m) with v
         end.

Ltac eval_if :=
  repeat match goal with
         | |- context [if ?b then _ else _] =>
             let v := eval vm_compute in b in
             match v with
             | true => change b with true
             | false => change b with false
             end; cbv iota
         end.

(** [fromordinal] inverts [toordinal] on the dates of the calendar. *)
Lemma fromordinal_toordinal (y m d : Z) :
  valid_date y m d = true -> fromordinal (toordinal (mkDate y m d)) = mkDate y m d.
Proof.
  intros Hv. destruct (valid_date_bounds y m d Hv) as (Hy & Hm & Hd & _).
  destruct (days_before_year_cycles y ltac:(lia))
    as (Hdby & Ha & Hb & Hc & He & Ey & Hleap).
  set (a := (y - 1) / 400) in *. set (b := (y - 1) mod 400 / 100) in *.
  set (c := (y - 1) mod 100 / 4) in *. set (e := (y - 1) mod 4) in *.
  unfold toordinal. cbn [year month day]. rewrite Hdby.
  unfold days_before_month, days_in_month in *. rewrite Hleap in *.
  set (leap := (e =? 3) && (negb (c =? 24) || (b =? 3))) in *.
  set (k := days_before_month_tbl m + (if (2 <? m) && leap then 1 else 0) + d - 1).
  replace (146097 * a + 36524 * b + 1461 * c + 365 * e
           + (days_before_month_tbl m + (if (2 <? m) && leap then 1 else 0)) + d)
    with (146097 * a + 36524 * b + 1461 * c + 365 * e + k + 1)
    by (subst k; lia).
  assert (Hk : 0 <= k < 365 + (if leap then 1 else 0)).
  { subst k. enum_range m 1 12; destruct leap; month_table; cbn in *; lia. }
  rewrite (fromordinal_cycles a b c e k Ha Hb Hc He Hk). fold leap.
  rewrite <- Ey. cbv zeta.
  subst k. clear Hk Hdby Hleap Ey Hv.
  enum_range m 1 12; destruct leap; cbn in Hd; month_table; eval_if;
    match goal with
    | |- context [?k =? 365] =>
        destruct (k =? 365) eqn:E365;
        [ apply Z.eqb_eq in E365; first [ f_equal; lia | exfalso; lia ] | clear E365 ]
    end;
    try solve [ exfalso; lia ];
    match goal with
    | |- context [(?k + 50) / 32] =>
        let q := fresh "q" in
        let Eq := fresh "Eq" in
        remember ((k + 50) / 32) as q eqn:Eq;
        let mz := lazymatch goal with |- _ = mkDate _ ?mz _ => mz end in
        let mz1 := eval vm_compute in (mz + 1) in
        assert (q = mz \/ q = mz1) as [-> | ->]
          by (subst q; Z.div_mod_to_equations; lia);
        month_table; eval_if;
        match goal with
        | |- context [?x <? ?p] =>
            destruct (x <? p) eqn:El;
            [ apply Z.ltb_lt in El | apply Z.ltb_ge in El ]
        end;
        first [ f_equal; lia
              | exfalso; Z.div_mod_to_equations; lia ]
    end.
Qed.

Lemma days_before_year_succ (y : Z) :
  1 <= y ->
  days_before_year (y + 1) = days_before_year y + (if is_leap y then 366 else 365).
Proof.
  intros Hy. unfold days_before_year, is_leap.
  replace (y + 1 - 1) with y by lia.
  destruct (y mod 4 =? 0) eqn:E4; destruct (y mod 100 =? 0) eqn:E100;
    destruct (y mod 400 =? 0) eqn:E400; cbn [andb orb negb];
    rewrite ?Z.eqb_eq, ?Z.eqb_neq in *; Z.div_mod_to_equations; lia.
Qed.

(** The day after a date of the calendar is one day later. *)
Lemma toordinal_next_day (y m d : Z) :
  valid_date y m d = true ->
  toordinal (next_day (mkDate y m d)) = toordinal (mkDate y m d) + 1.
Proof.
  intros Hv. destruct (valid_date_bounds y m d Hv) as (Hy & Hm & Hd & _).
  unfold next_day. cbn [year month day].
  destruct (d <? days_in_month y m) eqn:E1.
  - unfold toordinal. cbn [year month day]. lia.
  - apply Z.ltb_ge in E1. assert (d = days_in_month y m) as -> by lia.
    destruct (m <? 12) eqn:E2.
    + apply Z.ltb_lt in E2. unfold toordinal, days_before_month, days_in_month.
      cbn [year month day].
      enum_range m 1 11; destruct (is_leap y); month_table; eval_if; lia.
    + apply Z.ltb_ge in E2. assert (m = 12) as -> by lia.
      unfold toordinal, days_before_month, days_in_month. cbn [year month day].
      rewrite days_before_year_succ by lia.
      month_table. eval_if. change (2 <? 12) with true.
      destruct (is_leap y); cbn [andb]; lia.
Qed.

Lemma valid_next_day (y m d : Z) :
  valid_date y m d = true ->
  toordinal (mkDate y m d) < max_ordinal ->
  valid_date (year (next_day (mkDate y m d))) (month (next_day (mkDate y m d)))
             (day (next_day (mkDate y m d))) = true.
Proof.
  intros Hv Ho. destruct (valid_date_bounds y m d Hv) as (Hy & Hm & Hd & _).
  assert (Hlast : ~ (y = 9999 /\ m = 12 /\ d = 31)).
  { intros (-> & -> & ->). vm_compute in Ho. discriminate. }
  assert (Hdim : forall y' m', 1 <= m' <= 12 -> 28 <= days_in_month y' m' <= 31).
  { intros y' m' H. unfold days_in_month. repeat case_if; lia. }
  unfold next_day. cbn [year month day].
  destruct (d <? days_in_month y m) eqn:E1.
  - apply Z.ltb_lt in E1. cbn [year month day]. unfold valid_date.
    repeat (apply andb_true_iff; split); apply Z.leb_le; lia.
  - apply Z.ltb_ge in E1. destruct (m <? 12) eqn:E2.
    + apply Z.ltb_lt in E2. cbn [year month day]. unfold valid_date.
      pose proof (Hdim y (m + 1) ltac:(lia)).
      repeat (apply andb_true_iff; split); apply Z.leb_le; lia.
    + apply Z.ltb_ge in E2. cbn [year month day]. unfold valid_date.
      assert (m = 12) as -> by lia.
      assert (d = 31) as -> by (unfold days_in_month in *; cbn in *; lia).
      pose proof (Hdim (y + 1) 1 ltac:(lia)).
      repeat (apply andb_true_iff; split); apply Z.leb_le; lia.
Qed.

Lemma date_eta (dt : datetime) : dt = mkDate (year dt) (month dt) (day dt).
Proof. destruct dt; reflexivity. Qed.

(** Adding a number of days that is not negative is taking the next day
    that many times. *)
Lemma add_days_iter (n : nat) (dt : datetime) :
  valid_date (year dt) (month dt) (day dt) = true ->
  toordinal dt + Z.of_nat n <= max_ordinal ->
  add_days dt (Z.of_nat n) = Ok (Nat.iter n next_day dt)
  /\ valid_date (year (Nat.iter n next_day dt)) (month (Nat.iter n next_day dt))
                (day (Nat.iter n next_day dt)) = true
  /\ toordinal (Nat.iter n next_day dt) = toordinal dt + Z.of_nat n.
Proof.
  intros Hv Ho.
  assert (Hpos : 1 <= toordinal dt).
  { clear Ho. destruct dt as [y m d]. cbn [year month day] in Hv.
    destruct (valid_date_bounds _ _ _ Hv) as (Hy & Hm & Hd & _).
    unfold toordinal, days_before_year, days_before_month. cbn [year month day].
    assert (0 <= days_before_month_tbl m).
    { clear Hv Hd. enum_range m 1 12; month_table; lia. }
    destruct ((2 <? m) && is_leap y); Z.div_mod_to_equations; lia. }
  assert (I : valid_date (year (Nat.iter n next_day dt))
                (month (Nat.iter n next_day dt))
                (day (Nat.iter n next_day dt)) = true
              /\ toordinal (Nat.iter n next_day dt) = toordinal dt + Z.of_nat n).
  { induction n as [|n IH].
    - cbn [Nat.iter nat_rect]. split; [exact Hv | lia].
    - destruct IH as [IHv IHo]; [lia|].
      cbn [Nat.iter nat_rect]. fold (Nat.iter n next_day dt).
      rewrite (date_eta (Nat.iter n next_day dt)).
      split.
      + apply valid_next_day; [exact IHv|].
        rewrite <- date_eta, IHo. lia.
      + rewrite toordinal_next_day by exact IHv.
        rewrite <- date_eta, IHo. lia. }
  destruct I as [Iv Io]. split; [|split; assumption].
  unfold add_days.
  replace ((Z.of_nat n <? -999999999) || (999999999 <? Z.of_nat n)) with false.
  2:{ symmetry. apply orb_false_iff. unfold max_ordinal in Ho.
      split; [apply Z.ltb_ge | apply Z.ltb_ge]; lia. }
  replace ((1 <=? toordinal dt + Z.of_nat n)
           && (toordinal dt + Z.of_nat n <=? max_ordinal)) with true.
  2:{ symmetry. apply andb_true_iff. split; apply Z.leb_le; lia. }
  rewrite <- Io, (date_eta (Nat.iter n next_day dt)).
  rewrite fromordinal_toordinal by exact Iv. reflexivity.
Qed.

(** The writing of an integer: an optional sign, then digits. *)
Lemma str_of_Z_shape (n : Z) :
  exists sign ds c r,
    str_of_Z n = sign +:+ ds
    /\ (sign = EmptyString \/ sign = "-")
    /\ ds = String c r
    /\ all_chars is_digit ds = true.
Proof.
  unfold str_of_Z. destruct n as [|p|p].
  - exists EmptyString, "0", "0"%char, EmptyString. auto.
  - cbn [Z.to_int NilZero.string_of_int]. rewrite nilzero_string_of_pos.
    destruct (digits_nonempty p) as (c & r & E & Hc).
    exists EmptyString, (NilEmpty.string_of_uint (Pos.to_uint p)), c, r.
    split; [reflexivity|]. split; [auto|]. split; [exact E|].
    apply string_of_uint_digits.
  - cbn [Z.to_int NilZero.string_of_int]. rewrite nilzero_string_of_pos.
    destruct (digits_nonempty p) as (c & r & E & Hc).
    exists "-", (NilEmpty.string_of_uint (Pos.to_uint p)), c, r.
    split; [reflexivity|]. split; [auto|]. split; [exact E|].
    apply string_of_uint_digits.
Qed.

(** ** Substitution at one placeholder *)

Lemma span_all (p : ascii -> bool) (a b : string) :
  all_chars p a = true ->
  (forall c r, b = String c r -> p c = false) ->
  span p (a +:+ b) = (a, b).
Proof.
  intros Ha Hb. induction a as [|c a IH].
  - cbn [String.append]. destruct b as [|c r]; [reflexivity|].
    cbn [span]. rewrite (Hb c r eq_refl). reflexivity.
  - cbn [all_chars] in Ha. apply andb_true_iff in Ha as [Hc Ha].
    cbn [String.append span]. rewrite Hc, (IH Ha). reflexivity.
Qed.

Section OnePlaceholder.

Context {C : Type} (m : string -> option (C * string))
      (repl : C -> result string).

(** The pattern matches only at a dollar sign. *)
Hypothesis m_dollar : forall c r, m (String c r) <> None -> c = "$"%char.

Lemma m_empty_or_dollar (c : ascii) (r : string) :
Ascii.eqb c "$" = false -> m (String c r) = None.
Proof.
intros H. destruct (m (String c r)) eqn:E; [|reflexivity].
assert (c = "$"%char) as -> by (apply (m_dollar c r); congruence).
discriminate.
Qed.

Lemma re_sub_from_skip (a b : string) :
re_sub_from m repl (String.length a) (a +:+ b) = re_sub_from m repl 0 b.
Proof.
induction a as [|c a IH]; [destruct b; reflexivity|].
cbn [String.length String.append re_sub_from]. exact IH.
Qed.

Lemma re_sub_from_plain (pre s : string) :
mem_char "$" pre = false ->
re_sub_from m repl 0 (pre +:+ s)
= bind_result (re_sub_from m repl 0 s) (fun t => Ok (pre +:+ t)).
Proof.
induction pre as [|c pre IH]; intros H.
- cbn [String.append]. destruct (re_sub_from m repl 0 s); reflexivity.
- cbn [mem_char] in H. apply orb_false_iff in H as [Hc H].
  cbn [String.append re_sub_from]. rewrite (m_empty_or_dollar c _ Hc).
  rewrite (IH H). destruct (re_sub_from m repl 0 s); reflexivity.
Qed.

Lemma re_sub_from_plain_end (post : string) :
mem_char "$" post = false -> re_sub_from m repl 0 post = Ok post.
Proof.
intros H. pose proof (re_sub_from_plain post EmptyString H) as E.
rewrite append_nil_r in E. rewrite E. cbn. rewrite append_nil_r. reflexivity.
Qed.

(** A match at the start of the text, then text without a dollar sign. *)
Lemma re_sub_from_here (c : ascii) (p post : string) (g : C) :
m (String c (p +:+ post)) = Some (g, post) ->
mem_char "$" post = false ->
re_sub_from m repl 0 (String c (p +:+ post))
= bind_result (repl g) (fun out => Ok (out +:+ post)).
Proof.
intros Hm Hpost. cbn [re_sub_from]. rewrite Hm.
replace (String.length (String c (p +:+ post)) - String.length post - 1)%nat
  with (String.length p)
  by (cbn [String.length]; rewrite length_app; lia).
rewrite re_sub_from_skip, (re_sub_from_plain_end post Hpost).
destruct (repl g); reflexivity.
Qed.

(** One placeholder between two texts without a dollar sign. *)
Lemma re_sub_one (pre post : string) (c : ascii) (p : string) (g : C) :
mem_char "$" pre = false -> mem_char "$" post = false ->
m (String c (p +:+ post)) = Some (g, post) ->
re_sub m repl (pre +:+ String c (p +:+ post))
= bind_result (repl g) (fun out => Ok (pre +:+ out +:+ post)).
Proof.
intros Hpre Hpost Hm. unfold re_sub.
rewrite (re_sub_from_plain pre _ Hpre), (re_sub_from_here c p post g Hm Hpost).
destruct (repl g); reflexivity.
Qed.

(** A text where the pattern matches nowhere is left as it is. *)
Lemma re_sub_nowhere (pre post : string) (c : ascii) (p : string) :
mem_char "$" pre = false -> mem_char "$" p = false ->
mem_char "$" post = false ->
m (String c (p +:+ post)) = None ->
re_sub m repl (pre +:+ String c (p +:+ post))
= Ok (pre +:+ String c (p +:+ post)).
Proof.
intros Hpre Hp Hpost Hm. unfold re_sub.
rewrite (re_sub_from_plain pre _ Hpre). cbn [re_sub_from]. rewrite Hm.
rewrite (re_sub_from_plain p post Hp), (re_sub_from_plain_end post Hpost).
reflexivity.
Qed.

End OnePlaceholder.

(** ** A reference to a variable *)

Lemma strip_prefix_dollar (p : string) (c : ascii) (r : string) :
  strip_prefix (String "$" p) (String c r) <> None -> c = "$"%char.
Proof.
  cbn [strip_prefix]. destruct (Ascii.eqb "$" c) eqn:E; [|congruence].
  intros _. apply Ascii.eqb_eq in E. congruence.
Qed.

Lemma match_today_dollar (c : ascii) (r : string) :
  match_today (String c r) <> None -> c = "$"%char.
Proof.
  unfold match_today. intros H. apply (strip_prefix_dollar "{TODAY" c r).
  destruct (strip_prefix _ _); congruence.
Qed.

Lemma match_date_add_dollar (c : ascii) (r : string) :
  match_date_add (String c r) <> None -> c = "$"%char.
Proof.
  unfold match_date_add. intros H. apply (strip_prefix_dollar "{DATE_ADD:" c r).
  destruct (strip_prefix _ _); congruence.
Qed.

Lemma match_var_dollar (c : ascii) (r : string) :
  match_var (String c r) <> None -> c = "$"%char.
Proof.
  unfold match_var. intros H. apply (strip_prefix_dollar "{" c r).
  destruct (strip_prefix _ _); congruence.
Qed.

Lemma word_no_dollar (name : string) :
  all_chars is_word name = true -> mem_char "$" name = false.
Proof. intros H. apply (all_chars_not_mem is_word); [exact H | reflexivity]. Qed.

Lemma span_word_brace (name post : string) :
  all_chars is_word name = true ->
  span is_word (name +:+ String "}" post) = (name, String "}" post).
Proof.
  intros H. apply span_all; [exact H|].
  intros c r E. injection E as <- _. reflexivity.
Qed.

Lemma match_var_here (name post : string) :
  all_chars is_word name = true -> name <> EmptyString ->
  match_var (String "$" (String "{" (name +:+ String "}" post)))
  = Some (name, post).
Proof.
  intros Hw Hne. unfold match_var. cbn [strip_prefix Ascii.eqb Bool.eqb].
  rewrite (span_word_brace name post Hw).
  destruct name; [congruence|]. cbn [strip_prefix Ascii.eqb Bool.eqb].
  reflexivity.
Qed.

Lemma opt_fmt_close_start (r : string) :
  opt_fmt_close r <> None ->
  exists c r', r = String c r' /\ is_word c = false.
Proof.
  unfold opt_fmt_close. destruct r as [|c r']; [cbn; congruence|].
  cbn [strip_prefix].
  destruct (Ascii.eqb ":" c) eqn:E1.
  - apply Ascii.eqb_eq in E1. subst c. intros _. eexists _, _. split; reflexivity.
  - destruct (Ascii.eqb "}" c) eqn:E2; [|congruence].
    apply Ascii.eqb_eq in E2. subst c. intros _. eexists _, _. split; reflexivity.
Qed.

(** A reference to a variable is not the placeholder [TODAY], unless
    the variable is named so. *)
Lemma match_today_at_var (name post : string) :
  all_chars is_word name = true -> name <> "TODAY" ->
  match_today (String "$" (String "{" (name +:+ String "}" post))) = None.
Proof.
  intros Hw Hne. unfold match_today.
  change (strip_prefix "${TODAY" (String "$" (String "{" (name +:+ String "}" post))))
    with (strip_prefix "TODAY" (name +:+ String "}" post)).
  destruct (strip_prefix "TODAY" _) as [r|] eqn:E; [|reflexivity].
  destruct (opt_fmt_close r) eqn:Ec; [|reflexivity]. exfalso.
  destruct (opt_fmt_close_start r ltac:(congruence)) as (c & r' & -> & Hc).
  apply strip_prefix_Some in E.
  pose proof (span_word_brace name post Hw) as S1. rewrite E in S1.
  rewrite (span_all is_word "TODAY" (String c r')) in S1;
    [congruence | reflexivity |].
  intros ? ? H. injection H as <- _. exact Hc.
Qed.

(** Nor is it the placeholder [DATE_ADD]. *)
Lemma match_date_add_at_var (name post : string) :
  all_chars is_word name = true ->
  match_date_add (String "$" (String "{" (name +:+ String "}" post))) = None.
Proof.
  intros Hw. unfold match_date_add.
  change (strip_prefix "${DATE_ADD:"
            (String "$" (String "{" (name +:+ String "}" post))))
    with (strip_prefix "DATE_ADD:" (name +:+ String "}" post)).
  destruct (strip_prefix "DATE_ADD:" _) as [r|] eqn:E; [exfalso|reflexivity].
  apply strip_prefix_Some in E.
  pose proof (span_word_brace name post Hw) as S1. rewrite E in S1.
  change ("DATE_ADD:" +:+ r) with ("DATE_ADD" +:+ String ":" r) in S1.
  rewrite (span_all is_word "DATE_ADD" (String ":" r)) in S1;
    [congruence | reflexivity |].
  intros ? ? H. injection H as <- _. reflexivity.
Qed.

Lemma var_text (name post : string) :
  String "{" (name +:+ String "}" post)
  = (String "{" (name +:+ "}")) +:+ post.
Proof. cbn [String.append]. rewrite append_assoc'. reflexivity. Qed.

(** X7. A reference to a variable between two texts that hold no dollar
    sign: the reference is replaced by the value that [env_vars] gives
    to the name, else by the string the variable store holds for it, else
    by nothing; the texts around it stay. The value is put in as it is:
    placeholders in it are not resolved again. A stored value that is not
    a string raises an exception. *)
Theorem resolve_variable_reference :
  forall (now : datetime) (env : gmap string string) (vars : gmap string value)
         (name pre post : string),
    all_chars is_word name = true ->
    name <> EmptyString ->
    name <> "TODAY" ->
    mem_char "$" pre = false ->
    mem_char "$" post = false ->
    resolve_str now env vars (pre +:+ "${" +:+ name +:+ "}" +:+ post)
    = match env !! name with
      | Some s => Ok (pre +:+ s +:+ post)
      | None =>
          match vars !! name with
          | None => Ok (pre +:+ post)
          | Some (VStr s) => Ok (pre +:+ s +:+ post)
          | Some _ => Raise (Exception "TypeError: expected str instance")
          end
      end.
Proof.
  intros now env vars name pre post Hw Hne Htoday Hpre Hpost.
  change (pre +:+ "${" +:+ name +:+ "}" +:+ post)
    with (pre +:+ String "$" (String "{" (name +:+ String "}" post))).
  assert (Hp : mem_char "$" (String "{" (name +:+ "}")) = false).
  { cbn [mem_char]. rewrite mem_char_app, (word_no_dollar name Hw). reflexivity. }
  unfold resolve_str.
  pose proof (match_today_at_var name post Hw Htoday) as M1.
  pose proof (match_date_add_at_var name post Hw) as M2.
  pose proof (match_var_here name post Hw Hne) as M3.
  rewrite var_text in M1, M2, M3 |- *.
  rewrite (re_sub_nowhere match_today _ match_today_dollar
             pre post "$" _ Hpre Hp Hpost M1).
  cbn [bind_result].
  rewrite (re_sub_nowhere match_date_add _ match_date_add_dollar
             pre post "$" _ Hpre Hp Hpost M2).
  cbn [bind_result].
  rewrite (re_sub_one match_var _ match_var_dollar
             pre post "$" _ name Hpre Hpost M3).
  unfold replace.
  destruct (env !! name) as [s|]; [reflexivity|].
  destruct (vars !! name) as [[s|n|o]|]; reflexivity.
Qed.

Lemma resolve_variable_reference_witness :
  resolve_str (mkDate 2024 6 1) (<["USER" := "env"]> ∅)
    (<["USER" := VStr "stored"]> (<["next" := VStr "${USER}"]> ∅))
    "https://x/${next}/y"
  = Ok "https://x/${USER}/y"
  /\ resolve_str (mkDate 2024 6 1) (<["USER" := "env"]> ∅)
       (<["USER" := VStr "stored"]> ∅) "a ${USER} b"
     = Ok "a env b".
Proof.
  split.
  - exact (resolve_variable_reference (mkDate 2024 6 1) (<["USER" := "env"]> ∅)
             (<["USER" := VStr "stored"]> (<["next" := VStr "${USER}"]> ∅))
             "next" "https://x/" "/y"
             eq_refl ltac:(discriminate) ltac:(discriminate) eq_refl eq_refl).
  - exact (resolve_variable_reference (mkDate 2024 6 1) (<["USER" := "env"]> ∅)
             (<["USER" := VStr "stored"]> ∅)
             "USER" "a " " b"
             eq_refl ltac:(discriminate) ltac:(discriminate) eq_refl eq_refl).
Defined.

(** ** The placeholder [DATE_ADD] *)

(** Every day number of the calendar is the number of a date. *)
Lemma fromordinal_valid (o : Z) :
  1 <= o <= max_ordinal ->
  valid_date (year (fromordinal o)) (month (fromordinal o)) (day (fromordinal o))
  = true
  /\ toordinal (fromordinal o) = o.
Proof.
  intros Ho.
  destruct (add_days_iter (Z.to_nat (o - 1)) (mkDate 1 1 1) eq_refl)
    as (Ha & Hv & Ht).
  { change (toordinal (mkDate 1 1 1)) with 1. lia. }
  change (toordinal (mkDate 1 1 1)) with 1 in Ht.
  unfold add_days in Ha. change (toordinal (mkDate 1 1 1)) with 1 in Ha.
  replace (1 + Z.of_nat (Z.to_nat (o - 1))) with o in * by lia.
  replace ((Z.of_nat (Z.to_nat (o - 1)) <? -999999999)
           || (999999999 <? Z.of_nat (Z.to_nat (o - 1)))) with false in Ha.
  2:{ symmetry. apply orb_false_iff. unfold max_ordinal in Ho.
      split; apply Z.ltb_ge; lia. }
  replace ((1 <=? o) && (o <=? max_ordinal)) with true in Ha.
  2:{ symmetry. apply andb_true_iff. split; apply Z.leb_le; lia. }
  injection Ha as Ha. rewrite Ha. split; assumption.
Qed.

Lemma valid_toordinal_range (dt : datetime) :
  valid_date (year dt) (month dt) (day dt) = true ->
  1 <= toordinal dt <= max_ordinal.
Proof.
  intros Hv. destruct dt as [y m d]. cbn [year month day] in Hv.
  destruct (valid_date_bounds _ _ _ Hv) as (Hy & Hm & Hd & _).
  unfold toordinal, days_before_year, days_before_month, max_ordinal.
  cbn [year month day].
  assert (0 <= days_before_month_tbl m
          /\ days_before_month_tbl m + days_in_month y m
               + (if (2 <? m) && is_leap y then 1 else 0) <= 365 + (if is_leap y then 1 else 0)).
  { clear Hv. unfold days_in_month in *.
    enum_range m 1 12; destruct (is_leap y); month_table; eval_if; lia. }
  pose proof (days_before_year_succ y ltac:(lia)) as Hs.
  assert (days_before_year (y + 1) <= 3652059).
  { unfold days_before_year. Z.div_mod_to_equations. lia. }
  assert (0 <= days_before_year y).
  { unfold days_before_year. Z.div_mod_to_equations. lia. }
  fold (days_before_year y).
  destruct ((2 <? m) && is_leap y); destruct (is_leap y); lia.
Qed.

(** Adding days to a date of the calendar, inside the calendar. *)
Lemma add_days_in_range (dt : datetime) (n : Z) :
  valid_date (year dt) (month dt) (day dt) = true ->
  1 <= toordinal dt + n <= max_ordinal ->
  exists dt',
    add_days dt n = Ok dt'
    /\ valid_date (year dt') (month dt') (day dt') = true
    /\ toordinal dt' = toordinal dt + n.
Proof.
  intros Hv Ho. pose proof (valid_toordinal_range dt Hv) as Hr.
  exists (fromordinal (toordinal dt + n)).
  destruct (fromordinal_valid _ Ho) as [Hv' Ht']. split; [|split; assumption].
  unfold add_days.
  replace ((n <? -999999999) || (999999999 <? n)) with false.
  2:{ symmetry. apply orb_false_iff. unfold max_ordinal in *.
      split; apply Z.ltb_ge; lia. }
  replace ((1 <=? toordinal dt + n) && (toordinal dt + n <=? max_ordinal))
    with true; [reflexivity|].
  symmetry. apply andb_true_iff. split; apply Z.leb_le; lia.
Qed.

Lemma toordinal_inj (a b : datetime) :
  valid_date (year a) (month a) (day a) = true ->
  valid_date (year b) (month b) (day b) = true ->
  toordinal a = toordinal b -> a = b.
Proof.
  intros Ha Hb E.
  rewrite (date_eta a), (date_eta b).
  rewrite <- (fromordinal_toordinal _ _ _ Ha), <- (fromordinal_toordinal _ _ _ Hb).
  rewrite <- !date_eta, E. reflexivity.
Qed.

(** Going back [k] days gives the date from which [k] next days lead
    to the start. *)
Lemma add_days_back (dt : datetime) (k : nat) :
  valid_date (year dt) (month dt) (day dt) = true ->
  1 <= toordinal dt - Z.of_nat k ->
  exists dt',
    add_days dt (- Z.of_nat k) = Ok dt'
    /\ valid_date (year dt') (month dt') (day dt') = true
    /\ Nat.iter k next_day dt' = dt.
Proof.
  intros Hv Ho. pose proof (valid_toordinal_range dt Hv) as Hr.
  destruct (add_days_in_range dt (- Z.of_nat k) Hv ltac:(lia))
    as (dt' & Ha & Hv' & Ht').
  exists dt'. split; [exact Ha|]. split; [exact Hv'|].
  destruct (add_days_iter k dt' Hv' ltac:(lia)) as (_ & Hvi & Hti).
  apply toordinal_inj; [exact Hvi | exact Hv | lia].
Qed.

Lemma formatted_date_no_dollar (dt : datetime) :
  mem_char "$" (_format_date dt default_fmt) = false.
Proof.
  unfold _format_date, default_fmt. cbn [strftime Ascii.eqb Bool.eqb].
  repeat (rewrite ?mem_char_app; cbn [mem_char]).
  rewrite ?zero_pad_no_dollar, ?month_name_no_dollar by auto. reflexivity.
Qed.

Lemma match_date_add_here (name post : string) (n : Z) :
  all_chars is_word name = true -> name <> EmptyString ->
  match_date_add
    (String "$" (String "{" ("DATE_ADD:" +:+ name +:+ ":" +:+ str_of_Z n
                             +:+ String "}" post)))
  = Some (name, str_of_Z n, None, post).
Proof.
  intros Hw Hne. unfold match_date_add.
  change (strip_prefix "${DATE_ADD:"
            (String "$" (String "{" ("DATE_ADD:" +:+ name +:+ ":" +:+ str_of_Z n
                                     +:+ String "}" post))))
    with (Some (name +:+ String ":" (str_of_Z n +:+ String "}" post))).
  cbv iota beta.
  rewrite (span_all is_word name (String ":" _) Hw)
    by (intros ? ? E; injection E as <- _; reflexivity).
  destruct name as [|c0 name0] eqn:En; [congruence|]. rewrite <- En.
  change (strip_prefix ":" (String ":" (str_of_Z n +:+ String "}" post)))
    with (Some (str_of_Z n +:+ String "}" post)).
  cbv iota beta.
  destruct (str_of_Z_shape n) as (sign & ds & c & r & E & Hs & Hds & Hd).
  rewrite E. subst ds.
  assert (Hc : is_digit c = true).
  { cbn [all_chars] in Hd. apply andb_true_iff in Hd as [Hd _]. exact Hd. }
  assert (Sp : span is_digit (String c r +:+ String "}" post)
               = (String c r, String "}" post)).
  { apply span_all; [exact Hd|]. intros ? ? H. injection H as <- _. reflexivity. }
  destruct Hs as [-> | ->].
  - change ((EmptyString +:+ String c r) +:+ String "}" post)
      with (String c r +:+ String "}" post).
    assert (N : strip_prefix "-" (String c r +:+ String "}" post) = None).
    { cbn [String.append strip_prefix].
      destruct (Ascii.eqb "-" c) eqn:Ec; [|reflexivity].
      apply Ascii.eqb_eq in Ec. subst c. discriminate. }
    rewrite N, Sp. reflexivity.
  - change (strip_prefix "-" (("-" +:+ String c r) +:+ String "}" post))
      with (Some (String c r +:+ String "}" post)).
    cbv iota beta. rewrite Sp. reflexivity.
Qed.

Lemma date_add_text (name post : string) (n : Z) :
  String "{" ("DATE_ADD:" +:+ name +:+ ":" +:+ str_of_Z n +:+ String "}" post)
  = (String "{" ("DATE_ADD:" +:+ name +:+ ":" +:+ str_of_Z n +:+ "}")) +:+ post.
Proof.
  cbn [String.append].
  repeat (rewrite ?append_assoc'; cbn [String.append]). reflexivity.
Qed.

(** One placeholder [DATE_ADD] without a format, between two texts that
    hold no dollar sign. *)
Lemma resolve_date_add (now : datetime) (env : gmap string string)
    (vars : gmap string value) (name pre post s : string) (n : Z)
    (dt dt' : datetime) :
  all_chars is_word name = true -> name <> EmptyString ->
  mem_char "$" pre = false -> mem_char "$" post = false ->
  vars !! name = Some (VStr s) ->
  _parse_date s = Some dt ->
  add_days dt n = Ok dt' ->
  resolve_str now env vars
    (pre +:+ "${DATE_ADD:" +:+ name +:+ ":" +:+ str_of_Z n +:+ "}" +:+ post)
  = Ok (pre +:+ _format_date dt' default_fmt +:+ post).
Proof.
  intros Hw Hne Hpre Hpost Hvar Hparse Hadd.
  change (pre +:+ "${DATE_ADD:" +:+ name +:+ ":" +:+ str_of_Z n +:+ "}" +:+ post)
    with (pre +:+ String "$"
            (String "{" ("DATE_ADD:" +:+ name +:+ ":" +:+ str_of_Z n
                         +:+ String "}" post))).
  pose proof (match_date_add_here name post n Hw Hne) as M2.
  assert (M1 : match_today
                 (String "$"
                    (String "{" ("DATE_ADD:" +:+ name +:+ ":" +:+ str_of_Z n
                                 +:+ String "}" post))) = None)
    by reflexivity.
  assert (Hp : mem_char "$"
                 (String "{" ("DATE_ADD:" +:+ name +:+ ":" +:+ str_of_Z n +:+ "}"))
               = false).
  { repeat (rewrite ?mem_char_app;
            cbn [String.append mem_char Ascii.eqb Bool.eqb orb]).
    rewrite (word_no_dollar name Hw), str_of_Z_no_dollar.
    reflexivity. }
  rewrite date_add_text in M1, M2 |- *.
  unfold resolve_str.
  rewrite (re_sub_nowhere match_today _ match_today_dollar
             pre post "$" _ Hpre Hp Hpost M1).
  cbn [bind_result].
  rewrite (re_sub_one match_date_add _ match_date_add_dollar
             pre post "$" _ _ Hpre Hpost M2).
  unfold replace_date_add. rewrite Hvar.
  cbv [value_truthy]. rewrite (parse_date_truthy s dt Hparse), Hparse.
  cbn [negb default from_option id].
  rewrite int_of_str_of_Z, Hadd. cbn [bind_result].
  apply (re_sub_from_plain_end match_var _ match_var_dollar).
  rewrite !mem_char_app, Hpre, Hpost, formatted_date_no_dollar. reflexivity.
Qed.

(** X6. The placeholder [DATE_ADD] with an offset of [k] days and no
    format, for a variable that holds a text [_parse_date] reads: with the
    offset [k] the result is the date reached by taking the next calendar
    day [k] times, and with the offset [-k] it is the date from which [k]
    next days lead to the stored date; both are written in the default
    format, and the texts around the placeholder stay. The dates stay
    inside the calendar of the years 1 to 9999. *)
Theorem date_add_counts_calendar_days :
  forall (now : datetime) (env : gmap string string) (vars : gmap string value)
         (name pre post s : string) (dt : datetime) (k : nat),
    all_chars is_word name = true ->
    name <> EmptyString ->
    mem_char "$" pre = false ->
    mem_char "$" post = false ->
    vars !! name = Some (VStr s) ->
    _parse_date s = Some dt ->
    (toordinal dt + Z.of_nat k <= max_ordinal ->
     resolve_str now env vars
       (pre +:+ "${DATE_ADD:" +:+ name +:+ ":" +:+ str_of_Z (Z.of_nat k)
        +:+ "}" +:+ post)
     = Ok (pre +:+ _format_date (Nat.iter k next_day dt) "%d %b %Y" +:+ post))
    /\ (1 <= toordinal dt - Z.of_nat k ->
        exists dt',
          Nat.iter k next_day dt' = dt
          /\ resolve_str now env vars
               (pre +:+ "${DATE_ADD:" +:+ name +:+ ":"
                +:+ str_of_Z (- Z.of_nat k) +:+ "}" +:+ post)
             = Ok (pre +:+ _format_date dt' "%d %b %Y" +:+ post)).
Proof.
  intros now env vars name pre post s dt k Hw Hne Hpre Hpost Hvar Hparse.
  pose proof (parse_date_valid s dt Hparse) as Hv.
  split.
  - intros Ho. destruct (add_days_iter k dt Hv Ho) as (Ha & _).
    exact (resolve_date_add now env vars name pre post s _ dt _
             Hw Hne Hpre Hpost Hvar Hparse Ha).
  - intros Ho. destruct (add_days_back dt k Hv Ho) as (dt' & Ha & _ & Hi).
    exists dt'. split; [exact Hi|].
    exact (resolve_date_add now env vars name pre post s _ dt _
             Hw Hne Hpre Hpost Hvar Hparse Ha).
Qed.

Lemma date_add_counts_calendar_days_witness :
  resolve_str (mkDate 2024 6 1) ∅ (<["period_end" := VStr "28 Feb 2024"]> ∅)
    "from ${DATE_ADD:period_end:2}"
  = Ok "from 01 Mar 2024".
Proof.
  exact (proj1 (date_add_counts_calendar_days (mkDate 2024 6 1) ∅
                  (<["period_end" := VStr "28 Feb 2024"]> ∅)
                  "period_end" "from " EmptyString "28 Feb 2024"
                  (mkDate 2024 2 28) 2
                  eq_refl ltac:(discriminate) eq_refl eq_refl eq_refl eq_refl)
           ltac:(vm_compute; discriminate)).
Defined.

(** ** Looking a step up *)

Lemma get_step_index_from_spec (steps : list Step) (id : string) :
  forall base : Z,
    match _get_step_by_id steps id with
    | Some step =>
        exists j : nat,
          get_step_index_from base steps id = base + Z.of_nat j
          /\ nth_error steps j = Some step
          /\ step_id step = Some id
          /\ (forall k s, (k < j)%nat -> nth_error steps k = Some s ->
                          step_id s <> Some id)
    | None =>
        get_step_index_from base steps id = -1
        /\ (forall s, In s steps -> step_id s <> Some id)
    end.
Proof.
  induction steps as [|s0 steps IH]; intros base.
  - cbn. split; [reflexivity | intros s []].
  - cbn [_get_step_by_id get_step_index_from].
    destruct (bool_decide (step_id s0 = Some id)) eqn:E.
    + apply bool_decide_eq_true in E. exists O.
      split; [lia|]. split; [reflexivity|]. split; [exact E|].
      intros k s Hk. lia.
    + apply bool_decide_eq_false in E. specialize (IH (base + 1)).
      destruct (_get_step_by_id steps id) as [step|].
      * destruct IH as (j & Hi & Hn & Hid & Hfirst). exists (S j).
        split; [lia|]. split; [exact Hn|]. split; [exact Hid|].
        intros k s Hk Hs. destruct k as [|k].
        -- injection Hs as <-. exact E.
        -- apply (Hfirst k s); [lia | exact Hs].
      * destruct IH as [Hi Hnone]. split; [exact Hi|].
        intros s [<-|Hs]; [exact E | apply Hnone, Hs].
Qed.

(** X8. [_get_step_by_id] and [_get_step_index] agree: when a step has
    the id, the one returns the first such step and the other its
    position, which is inside the list; when none has it, the one returns
    nothing and the other -1. *)
Theorem get_step_by_id_agrees_with_index :
  forall (steps : list Step) (id : string),
    match _get_step_by_id steps id with
    | Some step =>
        step_id step = Some id
        /\ 0 <= _get_step_index steps id < Z.of_nat (length steps)
        /\ nth_error steps (Z.to_nat (_get_step_index steps id)) = Some step
        /\ (forall k s,
              (k < Z.to_nat (_get_step_index steps id))%nat ->
              nth_error steps k = Some s -> step_id s <> Some id)
    | None =>
        _get_step_index steps id = -1
        /\ (forall s, In s steps -> step_id s <> Some id)
    end.
Proof.
  intros steps id. unfold _get_step_index.
  pose proof (get_step_index_from_spec steps id 0) as H.
  destruct (_get_step_by_id steps id) as [step|]; [|exact H].
  destruct H as (j & Hi & Hn & Hid & Hfirst). rewrite Hi.
  replace (Z.to_nat (0 + Z.of_nat j)) with j by lia.
  split; [exact Hid|]. split; [|split; assumption].
  assert (j < length steps)%nat by (apply nth_error_Some; congruence). lia.
Qed.

(** ** What [_execute_step] and [run] keep *)

Section StepKeeps.

Context {W : Type} (br : Browser W) (env_vars : gmap string string).

Variable R : Machine W -> Machine W -> Prop.
Hypothesis R_trans : forall a b c, R a b -> R b c -> R a c.
Hypothesis R_prim : forall a b, unchanged a b -> R a b.
Hypothesis R_enter : forall step m, R m (entering step m).
Hypothesis R_log : forall c (m : Machine W), R m (log_call c m).
Hypothesis R_success : forall step (m : Machine W), R m (record_success step m).
Hypothesis R_fatal : forall step (m : Machine W), R m (record_fatal step m).
Hypothesis R_error :
forall step msg (m : Machine W), R m (record_error step msg m).

Lemma R_refl (m : Machine W) : R m m.
Proof.
apply R_prim. split; [reflexivity|]. exists []. rewrite app_nil_r. reflexivity.
Qed.

(** A relation that the writes of [_execute_step] keep is kept by
  [_execute_step], at any depth of nesting. *)
Lemma execute_step_keeps (step : Step) :
keeps R (_execute_step br env_vars step).
Proof.
induction step as [step IH] using Step_nested_ind.
intros m. rewrite execute_step_unfold.
destruct (handlers (action step)) as [kind|]; cbn [snd]; [|apply R_enter].
unfold dispatch.
pose proof (keeps_run_handler br env_vars R R_trans R_prim kind step
              (map (_execute_step br env_vars) (sub_steps step))
              ltac:(apply Forall_map; exact IH)
              (log_call (CallHandler (step_id step) kind) (entering step m)))
  as K.
assert (K' : R m (run_handler br env_vars kind step
                    (map (_execute_step br env_vars) (sub_steps step))
                    (log_call (CallHandler (step_id step) kind)
                       (entering step m))).2).
{ eapply R_trans; [apply R_enter|]. eapply R_trans; [apply R_log|]. exact K. }
destruct (run_handler _ _ _ _ _ _) as [[next|[msg|msg]] m']; cbn [snd] in *;
  (eapply R_trans; [exact K'|]);
  [apply R_success | apply R_fatal | apply R_error].
Qed.

Lemma run_loop_keeps (fuel : nat) (steps : list Step) :
forall i m r m',
  run_loop br env_vars fuel steps i m = Some (r, m') -> R m m'.
Proof.
induction fuel as [|fuel IH]; intros i m r m' H; [discriminate|].
cbn [run_loop] in H. destruct (nth_error steps i) as [step|].
- pose proof (execute_step_keeps step m) as K.
  destruct (_execute_step br env_vars step m) as [[next|e] m1]; cbn [snd] in K.
  + eapply R_trans; [exact K|]. eapply IH, H.
  + injection H as _ <-. exact K.
- injection H as _ <-. apply R_refl.
Qed.

End StepKeeps.

(** [_execute_step] turns every exception but [StepFailedError] into a
    return value. *)
Lemma execute_step_no_exception {W : Type} (br : Browser W)
    (env_vars : gmap string string) (step : Step) (m : Machine W) (msg : string) :
  (_execute_step br env_vars step m).1 <> Raise (Exception msg).
Proof.
  rewrite execute_step_unfold.
  destruct (handlers (action step)); [|discriminate].
  destruct (dispatch _ _ _ _ _) as [[next|[e|e]] m']; discriminate.
Qed.

Lemma run_loop_no_exception {W : Type} (br : Browser W)
    (env_vars : gmap string string) (fuel : nat) (steps : list Step) :
  forall i m m' msg,
    run_loop br env_vars fuel steps i m <> Some (Raise (Exception msg), m').
Proof.
  induction fuel as [|fuel IH]; intros i m m' msg; [discriminate|].
  cbn [run_loop]. destruct (nth_error steps i) as [step|]; [|discriminate].
  pose proof (execute_step_no_exception br env_vars step m) as N.
  destruct (_execute_step br env_vars step m) as [[next|[e|e]] m1];
    cbn [fst] in N.
  - apply IH.
  - discriminate.
  - exfalso. exact (N e eq_refl).
Qed.

Lemma has_fatal_error_app (a b : list ErrorEntry) :
  has_fatal_error (a ++ b) = has_fatal_error a || has_fatal_error b.
Proof. apply existsb_app. Qed.

Lemma errors_grow_trans {W : Type} (a b c : Machine W) :
  errors_grow a b -> errors_grow b c -> errors_grow a c.
Proof.
  intros (l1 & E1 & F1) (l2 & E2 & F2). exists (l1 ++ l2).
  rewrite E2, E1, app_assoc, has_fatal_error_app, F1, F2. auto.
Qed.

Lemma errors_grow_prim {W : Type} (a b : Machine W) :
  unchanged a b -> errors_grow a b.
Proof.
  intros [H _]. exists []. rewrite app_nil_r. split; [|reflexivity].
  unfold core in H. injection H as _ _ H _. congruence.
Qed.

Lemma errors_grow_same {W : Type} (a b : Machine W) :
  errors (state b) = errors (state a) -> errors_grow a b.
Proof. intros H. exists []. rewrite app_nil_r. auto. Qed.

Lemma run_loop_errors_grow {W : Type} (br : Browser W)
    (env_vars : gmap string string) (fuel : nat) (steps : list Step) i m r m' :
  run_loop br env_vars fuel steps i m = Some (r, m') -> errors_grow m m'.
Proof.
  apply (run_loop_keeps br env_vars errors_grow).
  - apply errors_grow_trans.
  - apply errors_grow_prim.
  - intros; apply errors_grow_same; reflexivity.
  - intros; apply errors_grow_same; reflexivity.
  - intros; apply errors_grow_same; reflexivity.
  - intros; apply errors_grow_same; reflexivity.
  - intros step msg m0. exists [mkError (step_id step) msg None].
    split; reflexivity.
Qed.

Lemma run_loop_report_grows {W : Type} (br : Browser W)
    (env_vars : gmap string string) (fuel : nat) (steps : list Step) i m r m' :
  run_loop br env_vars fuel steps i m = Some (r, m') -> report_grows m m'.
Proof.
  apply (run_loop_keeps br env_vars report_grows).
  - apply report_grows_trans.
  - apply report_grows_prim.
  - intros. exists []. rewrite app_nil_r. reflexivity.
  - intros. exists []. rewrite app_nil_r. reflexivity.
  - intros. eexists. reflexivity.
  - intros. eexists. cbn. rewrite <- app_assoc. reflexivity.
  - intros. eexists. cbn. rewrite <- app_assoc. reflexivity.
Qed.

(** X9. [run] ends in one of two ways and lets no exception escape:
    with the status [completed], or, after a [StepFailedError], with the
    status [failed]. The list [errors] only grows; the entries added are
    not fatal, except the one entry that [run] itself adds at the end of a
    failed run, which is fatal and names the step that was running. So
    the test that [app.py] makes, whether some entry is fatal, holds of
    the entries of a run exactly when the run failed. *)
Theorem run_status_and_fatal_entry :
  forall (W : Type) (br : Browser W) (env_vars : gmap string string)
         (fuel : nat) (wf : Workflow) (m m' : Machine W) (r : result unit),
    run br env_vars fuel wf m = Some (r, m') ->
    r = Ok tt
    /\ exists (added : list ErrorEntry) (events : list ReportEvent)
              (status : string),
         errors (state m') = errors (state m) ++ added
         /\ report m'
            = report m ++ events
              ++ [EvWorkflowEnd status (variables (state m'))]
         /\ ((status = "completed" /\ has_fatal_error added = false)
             \/ (status = "failed"
                 /\ exists msg before,
                      added = before
                              ++ [mkError (current_step (state m')) msg (Some true)]
                      /\ has_fatal_error before = false))
         /\ (has_fatal_error added = true <-> status = "failed").
Proof.
  intros W br env fuel wf m m' r H. unfold run in H.
  destruct (run_loop br env fuel (wf_steps wf) 0 (started wf m))
    as [[[u|[msg|msg]] m1]|] eqn:E; try discriminate.
  - injection H as <- <-. split; [reflexivity|].
    destruct (run_loop_errors_grow _ _ _ _ _ _ _ _ E) as (l & El & Fl).
    destruct (run_loop_report_grows _ _ _ _ _ _ _ _ E) as (evs & Ev).
    exists l, (EvWorkflowStart (wf_name wf)
                 (default (VStr EmptyString)
                    (variables (state m) !! "selected_client")) :: evs),
           "completed".
    cbn in *. rewrite El, Ev. split; [reflexivity|].
    split; [rewrite <- !app_assoc; reflexivity|].
    split; [left; auto|]. rewrite Fl. split; discriminate.
  - injection H as <- <-. split; [reflexivity|].
    destruct (run_loop_errors_grow _ _ _ _ _ _ _ _ E) as (l & El & Fl).
    destruct (run_loop_report_grows _ _ _ _ _ _ _ _ E) as (evs & Ev).
    exists (l ++ [mkError (current_step (state m1)) msg (Some true)]),
           (EvWorkflowStart (wf_name wf)
              (default (VStr EmptyString)
                 (variables (state m) !! "selected_client")) :: evs),
           "failed".
    cbn in *. rewrite El, Ev. split; [rewrite app_assoc; reflexivity|].
    split; [rewrite <- !app_assoc; reflexivity|].
    split; [right; split; [reflexivity|]; exists msg, l; auto|].
    rewrite has_fatal_error_app, Fl. split; reflexivity.
  - exfalso. exact (run_loop_no_exception br env fuel _ _ _ _ _ E).
Qed.

Lemma run_status_and_fatal_entry_witness :
  exists (r : result unit) (m' : Machine Page),
    run (page_browser (fails_at_A (StepFailedError "No matching selector found")))
      ∅ 3 (mkWorkflow "w" [step_A; step_B]) (start_machine empty_page)
    = Some (r, m')
    /\ r = Ok tt
    /\ exists (added : list ErrorEntry) (events : list ReportEvent)
              (status : string),
         errors (state m')
         = errors (state (start_machine empty_page)) ++ added
         /\ report m'
            = report (start_machine empty_page) ++ events
              ++ [EvWorkflowEnd status (variables (state m'))]
         /\ ((status = "completed" /\ has_fatal_error added = false)
             \/ (status = "failed"
                 /\ exists msg before,
                      added = before
                              ++ [mkError (current_step (state m')) msg (Some true)]
                      /\ has_fatal_error before = false))
         /\ (has_fatal_error added = true <-> status = "failed").
Proof.
  eexists _, _. split; [vm_compute; reflexivity|].
  apply (run_status_and_fatal_entry Page
           (page_browser (fails_at_A (StepFailedError "No matching selector found")))
           ∅ 3 (mkWorkflow "w" [step_A; step_B]) (start_machine empty_page)).
  vm_compute; reflexivity.
Defined.

(** ** The loops *)

Lemma bind_Ok {W A B : Type} (c : M W A) (k : A -> M W B) (m m' : Machine W)
    (b : B) :
  bind c k m = (Ok b, m') ->
  exists a m1, c m = (Ok a, m1) /\ k a m1 = (Ok b, m').
Proof. unfold bind. destruct (c m) as [[a|e] m1]; [eauto|discriminate]. Qed.

Ltac bind_inv H :=
  let a := fresh "a" in
  let m1 := fresh "m" in
  let E := fresh "E" in
  apply bind_Ok in H as (a & m1 & E & H).

Lemma call_Ok {W A : Type} (c : Call) (op : W -> reply A * W) (m m1 : Machine W)
    (a : A) :
  call c op m = (Ok a, m1) ->
  exists w, op (world m) = (Reply a, w) /\ world m1 = w.
Proof.
  unfold call. destruct (op (world m)) as [[a'|msg] w]; [|discriminate].
  intros H. injection H as <- <-. exists w. split; reflexivity.
Qed.

Lemma call_world {W A : Type} (c : Call) (op : W -> reply A * W) (m : Machine W) :
  world (call c op m).2 = (op (world m)).2.
Proof. unfold call. destruct (op (world m)) as [[a|msg] w]; reflexivity. Qed.

Lemma store_variable_Ok {W : Type} (key : string) (v : value) (m m1 : Machine W)
    (u : unit) :
  _store_variable key v m = (Ok u, m1) ->
  variables (state m1) !! key = Some v /\ world m1 = world m.
Proof.
  intros H. pose proof (store_variable_lookup key v m) as [_ Hl].
  rewrite H in Hl. split; [exact Hl|].
  replace m1 with (_store_variable key v m).2 by (rewrite H; reflexivity).
  unfold _store_variable. cbn [snd].
  match goal with |- context [if ?b then _ else _] => destruct b end;
    reflexivity.
Qed.

Lemma run_sub_steps_no_exception {W : Type} (br : Browser W)
    (env_vars : gmap string string) (steps : list Step) (m : Machine W)
    (msg : string) :
  (run_sub_steps (map (_execute_step br env_vars) steps) m).1
  <> Raise (Exception msg).
Proof.
  revert m. induction steps as [|step steps IH]; intros m; [discriminate|].
  cbn [map run_sub_steps].
  pose proof (execute_step_no_exception br env_vars step m) as N.
  destruct (_execute_step br env_vars step m) as [[next|[e|e]] m1];
    cbn [fst] in *;
    [apply IH | discriminate | exfalso; exact (N e eq_refl)].
Qed.

Lemma resolve_filter_date_machine {W : Type} (br : Browser W)
    (env_vars : gmap string string) (f : option string) (m : Machine W) :
  (resolve_filter_date br env_vars f m).2 = m.
Proof.
  unfold resolve_filter_date. destruct (opt_truthy f); [|reflexivity].
  unfold bind, resolve.
  destruct (resolve_str _ _ _ _); reflexivity.
Qed.

Lemma vat_items_bound {W : Type} (br : Browser W)
    (subs : list (M W (option string))) (total : nat) (items : list VatReturn) :
  forall i seen processed (m m' : Machine W) n,
    vat_items br subs total i items seen processed m = (Ok n, m') ->
    (processed <= n <= processed + length items)%nat.
Proof.
  induction items as [|vr items IH]; intros i seen processed m m' n H;
    cbn [vat_items length] in H |- *.
  - injection H as <- _. lia.
  - destruct (mem_str (buttonId vr) seen); [apply IH in H; lia|].
    do 4 bind_inv H. bind_inv H.
    destruct a3; cbn [negb] in H; [|apply IH in H; lia].
    bind_inv H. destruct a3.
    + do 2 bind_inv H. apply IH in H; lia.
    + bind_inv H. destruct a3; bind_inv H; apply IH in H; lia.
Qed.

Lemma loop_rows_bound {W : Type} (br : Browser W) (step : Step)
    (subs : list (M W (option string))) (fd : option datetime)
    (indices : list nat) :
  forall processed skipped (m m' : Machine W) counts,
    loop_rows br step subs fd indices processed skipped m = (Ok counts, m') ->
    (processed <= counts.1 /\ skipped <= counts.2
     /\ counts.1 + counts.2 <= processed + skipped + length indices)%nat.
Proof.
  induction indices as [|i rest IH]; intros processed skipped m m' counts H;
    cbn [loop_rows length] in H |- *.
  - injection H as <- _. cbn. lia.
  - bind_inv H. destruct a; [apply IH in H; lia|].
    bind_inv H. destruct a; cbn [negb] in H; [|apply IH in H; lia].
    bind_inv H. apply IH in H; lia.
Qed.

(** X10. A loop step never stops the workflow. Whatever its sub-steps
    do, [_execute_step] on a [loop_elements] or [loop_vat_returns] step
    returns to [run]: a [StepFailedError] of a sub-step is caught inside
    the loop. Either the loop ended, the step is appended to
    [completed_steps] and the next step is the following one, or a call
    of the loop itself raised, an entry for the step that is not fatal is
    appended to [errors] and the next step is the [on_error] of the
    step. No fatal entry is added to [errors] on the way. *)
Theorem loop_step_always_returns :
  forall (W : Type) (br : Browser W) (env_vars : gmap string string)
         (step : Step) (kind : HandlerKind) (m : Machine W),
    handlers (action step) = Some kind ->
    kind = HLoopElements \/ kind = HLoopVatReturns ->
    exists (next : option string) (m' : Machine W),
      _execute_step br env_vars step m = (Ok next, m')
      /\ errors_grow m m'
      /\ ((next = None
           /\ exists l, completed_steps (state m')
                        = completed_steps (state m) ++ l ++ [step_id step])
          \/ (next = on_error step
              /\ exists msg l,
                   errors (state m')
                   = errors (state m) ++ l ++ [mkError (step_id step) msg None])).
Proof.
  intros W br env step kind m Hh Hk.
  pose proof (execute_step_keeps br env errors_grow errors_grow_trans
                errors_grow_prim
                ltac:(intros; apply errors_grow_same; reflexivity)
                ltac:(intros; apply errors_grow_same; reflexivity)
                ltac:(intros; apply errors_grow_same; reflexivity)
                ltac:(intros; apply errors_grow_same; reflexivity)
                ltac:(intros s msg m0; exists [mkError (step_id s) msg None];
                      split; reflexivity)
                step m) as G.
  rewrite execute_step_unfold, Hh in G |- *. unfold dispatch in *.
  set (subs := map (_execute_step br env) (sub_steps step)) in *.
  set (m0 := log_call (CallHandler (step_id step) kind) (entering step m)) in *.
  assert (Hsubs : forall R : Machine W -> Machine W -> Prop,
             (forall a b c, R a b -> R b c -> R a c) ->
             (forall a b, unchanged a b -> R a b) ->
             (forall s m, R m (entering s m)) ->
             (forall c (m : Machine W), R m (log_call c m)) ->
             (forall s (m : Machine W), R m (record_success s m)) ->
             (forall s (m : Machine W), R m (record_fatal s m)) ->
             (forall s msg (m : Machine W), R m (record_error s msg m)) ->
             R m0 (run_handler br env kind step subs m0).2).
  { intros R T P En Lg Su Fa Er.
    apply (keeps_run_handler br env R T P kind step subs).
    apply Forall_map, Forall_forall. intros s _.
    apply (execute_step_keeps br env R T P En Lg Su Fa Er). }
  assert (N : forall msg,
             (run_handler br env kind step subs m0).1
             <> Raise (StepFailedError msg)).
  { intros msg. destruct Hk as [-> | ->]; cbn [run_handler];
      [apply nsf_loop_elements | apply nsf_loop_vat_returns]. }
  assert (None_ : forall r m1,
             run_handler br env kind step subs m0 = (Ok r, m1) -> r = None).
  { intros r m1 H. destruct Hk as [-> | ->]; cbn [run_handler] in H.
    - unfold _execute_loop_elements in H. do 4 bind_inv H.
      injection H as <- _. reflexivity.
    - unfold _execute_loop_vat_returns in H. do 2 bind_inv H.
      destruct (opt_truthy a0).
      + do 2 bind_inv H. injection H as <- _. reflexivity.
      + do 2 bind_inv H. destruct (partition_vat a1 _) as [tp sk].
        do 2 bind_inv H. injection H as <- _. reflexivity. }
  pose proof (Hsubs completed_grows completed_grows_trans completed_grows_prim
                ltac:(intros; exists []; rewrite app_nil_r; reflexivity)
                ltac:(intros; exists []; rewrite app_nil_r; reflexivity)
                ltac:(intros; eexists; reflexivity)
                ltac:(intros; exists []; rewrite app_nil_r; reflexivity)
                ltac:(intros; exists []; rewrite app_nil_r; reflexivity)) as C.
  pose proof (Hsubs errors_grow errors_grow_trans errors_grow_prim
                ltac:(intros; apply errors_grow_same; reflexivity)
                ltac:(intros; apply errors_grow_same; reflexivity)
                ltac:(intros; apply errors_grow_same; reflexivity)
                ltac:(intros; apply errors_grow_same; reflexivity)
                ltac:(intros s msg m1; exists [mkError (step_id s) msg None];
                      split; reflexivity)) as Er.
  destruct (run_handler br env kind step subs m0) as [[r|[msg|msg]] m1] eqn:E;
    cbn [fst snd] in *.
  - rewrite (None_ r m1 eq_refl). eexists _, _. split; [reflexivity|].
    split; [exact G|]. left. split; [reflexivity|].
    destruct C as [l C]. exists l. cbn in *. rewrite C.
    rewrite <- app_assoc. reflexivity.
  - exfalso. exact (N msg eq_refl).
  - eexists _, _. split; [reflexivity|]. split; [exact G|]. right.
    split; [reflexivity|]. destruct Er as (l & Er & _). exists msg, l.
    cbn in *. rewrite Er, <- app_assoc. reflexivity.
Qed.

Lemma loop_step_always_returns_witness :
  exists (next : option string) (m' : Machine Page),
    _execute_step (page_browser (fails_at_A (StepFailedError "No matching selector found")))
      ∅ (rows_step None [step_A]) (start_machine (mkPage [] [] three_rows))
    = (Ok next, m')
    /\ errors_grow (start_machine (mkPage [] [] three_rows)) m'
    /\ ((next = None
         /\ exists l, completed_steps (state m')
                      = completed_steps
                          (state (start_machine (mkPage [] [] three_rows)))
                        ++ l ++ [step_id (rows_step None [step_A])])
        \/ (next = on_error (rows_step None [step_A])
            /\ exists msg l,
                 errors (state m')
                 = errors (state (start_machine (mkPage [] [] three_rows)))
                   ++ l ++ [mkError (step_id (rows_step None [step_A])) msg None])).
Proof.
  apply (loop_step_always_returns Page _ ∅ (rows_step None [step_A])
           HLoopElements (start_machine (mkPage [] [] three_rows))).
  - reflexivity.
  - left. reflexivity.
Defined.

(** X11. The count that [_execute_loop_elements] stores is at most the
    number of rows the page reported. When the handler returns, what
    it returns is [None], the page had answered the count of rows, and
    [loop_processed_count] holds a number no greater than that count. *)
Theorem loop_elements_count_bounded :
  forall (W : Type) (br : Browser W) (env_vars : gmap string string)
         (step : Step) (subs : list (M W (option string)))
         (m m' : Machine W) (r : option string),
    _execute_loop_elements br env_vars step subs m = (Ok r, m') ->
    r = None
    /\ exists (count n : nat) (w : W),
         count_rows br step (world m) = (Reply count, w)
         /\ variables (state m') !! "loop_processed_count"
            = Some (VInt (Z.of_nat n))
         /\ (n <= count)%nat.
Proof.
  intros W br env step subs m m' r H. unfold _execute_loop_elements in H.
  bind_inv H.
  pose proof (resolve_filter_date_machine br env (filter_date_from step) m) as Em.
  rewrite E in Em. cbn [snd] in Em. subst m0.
  bind_inv H. bind_inv H. bind_inv H. injection H as <- <-.
  split; [reflexivity|].
  unfold call in E0.
  destruct (count_rows br step (world m)) as [[count|msg] w] eqn:Ec;
    [|discriminate].
  injection E0 as <- <-.
  apply loop_rows_bound in E1.
  assert (L : length (if reverse_order step then rev (seq 0 count)
                      else seq 0 count) = count).
  { destruct (reverse_order step); rewrite ?length_rev, length_seq; reflexivity. }
  rewrite L in E1.
  exists count, a1.1, w. split; [reflexivity|]. split; [|lia].
  pose proof (store_variable_lookup "loop_processed_count"
                (VInt (Z.of_nat a1.1)) m1) as [_ Hl].
  rewrite E2 in Hl. exact Hl.
Qed.

Lemma loop_elements_count_bounded_witness :
  exists (m' : Machine Page),
    _execute_loop_elements (page_browser always_ok) ∅ (rows_step None []) []
      (start_machine (mkPage [] [] three_rows)) = (Ok None, m')
    /\ @None string = None
    /\ exists (count n : nat) (w : Page),
         count_rows (page_browser always_ok) (rows_step None [])
           (world (start_machine (mkPage [] [] three_rows)))
         = (Reply count, w)
         /\ variables (state m') !! "loop_processed_count"
            = Some (VInt (Z.of_nat n))
         /\ (n <= count)%nat.
Proof.
  eexists. split; [vm_compute; reflexivity|].
  apply (loop_elements_count_bounded Page (page_browser always_ok) ∅
           (rows_step None []) [] (start_machine (mkPage [] [] three_rows))).
  vm_compute. reflexivity.
Defined.

(** X12. The count that [_execute_loop_vat_returns] stores is at most
    the number of VAT returns the page listed. When the handler returns,
    what it returns is [None] and the page had answered the question
    about page issues; if an issue was named the count stored is 0 and the
    list of returns was not what decided it, otherwise the page had
    answered the list of returns and [loop_processed_count] holds a
    number no greater than its length. *)
Theorem loop_vat_returns_count_bounded :
  forall (W : Type) (br : Browser W) (env_vars : gmap string string)
         (step : Step) (subs : list (M W (option string)))
         (m m' : Machine W) (r : option string),
    _execute_loop_vat_returns br env_vars step subs m = (Ok r, m') ->
    r = None
    /\ exists (n : nat) (issues : option string) (w : W),
         variables (state m') !! "loop_processed_count"
         = Some (VInt (Z.of_nat n))
         /\ vat_page_issues br (wait_for_list br (world m)).2
            = (Reply issues, w)
         /\ if opt_truthy issues then n = 0%nat
            else exists (vat_returns : list VatReturn) (w' : W),
                get_vat_returns br w = (Reply vat_returns, w')
                /\ (n <= length vat_returns)%nat.
Proof.
  intros W br env step subs m m' r H. unfold _execute_loop_vat_returns in H.
  bind_inv H. unfold swallow in E. injection E as _ Em0.
  assert (Ew0 : world m0 = (wait_for_list br (world m)).2)
    by (rewrite <- Em0; apply call_world).
  bind_inv H. apply call_Ok in E as (w & Ei & Ew1). rewrite Ew0 in Ei.
  rename a0 into issues.
  destruct (opt_truthy issues) eqn:Et.
  - do 2 bind_inv H. injection H as <- <-. split; [reflexivity|].
    exists 0%nat, issues, w. rewrite Et. split; [|split; [exact Ei|reflexivity]].
    unfold log_skip in E0. injection E0 as _ <-.
    apply store_variable_Ok in E as [Hl _]. exact Hl.
  - bind_inv H.
    pose proof (resolve_filter_date_machine br env (filter_date_from step) m1)
      as Em.
    rewrite E in Em. cbn [snd] in Em. subst m2.
    bind_inv H. apply call_Ok in E0 as (w' & Eg & _). rewrite Ew1 in Eg.
    rename a1 into vrs.
    pose proof (partition_vat_length a0
                  (if reverse_order step then rev vrs else vrs)) as PL.
    destruct (partition_vat a0 _) as [to_process skipped].
    cbn [fst snd] in PL.
    do 2 bind_inv H. injection H as <- <-. split; [reflexivity|].
    apply vat_items_bound in E0.
    exists a1, issues, w. rewrite Et. split; [|split; [exact Ei|]].
    + apply store_variable_Ok in E1 as [Hl _]. exact Hl.
    + exists vrs, w'. split; [exact Eg|].
      assert (length (if reverse_order step then rev vrs else vrs) = length vrs)
        by (destruct (reverse_order step); rewrite ?length_rev; reflexivity).
      lia.
Qed.

Lemma loop_vat_returns_count_bounded_witness :
  exists (m' : Machine Page),
    _execute_loop_vat_returns (page_browser always_ok) ∅
      (loop_step "loop_vat_returns" None None []) []
      (start_machine (mkPage [] three_returns [])) = (Ok None, m')
    /\ @None string = None
    /\ exists (n : nat) (issues : option string) (w : Page),
         variables (state m') !! "loop_processed_count"
         = Some (VInt (Z.of_nat n))
         /\ vat_page_issues (page_browser always_ok)
              (wait_for_list (page_browser always_ok)
                 (world (start_machine (mkPage [] three_returns [])))).2
            = (Reply issues, w)
         /\ if opt_truthy issues then n = 0%nat
            else exists (vat_returns : list VatReturn) (w' : Page),
                get_vat_returns (page_browser always_ok) w
                = (Reply vat_returns, w')
                /\ (n <= length vat_returns)%nat.
Proof.
  eexists. split; [vm_compute; reflexivity|].
  apply (loop_vat_returns_count_bounded Page (page_browser always_ok) ∅
           (loop_step "loop_vat_returns" None None []) []
           (start_machine (mkPage [] three_returns []))).
  vm_compute. reflexivity.
Defined.

(** ** A step that jumps to itself *)

(** X13. Nothing bounds the jumps of [run]. When the handler of a step
    raises an exception other than [StepFailedError] each time it is
    called, and the [on_error] of the step names the step itself, the
    loop of [run], once at that step, never ends: no number of turns
    is enough for it to return. *)
Theorem on_error_to_itself_never_ends :
  forall (W : Type) (br : Browser W) (env_vars : gmap string string)
         (steps : list Step) (i : nat) (step : Step) (id : string)
         (kind : HandlerKind),
    nth_error steps i = Some step ->
    handlers (action step) = Some kind ->
    on_error step = Some id ->
    truthy id = true ->
    _get_step_index steps id = Z.of_nat i ->
    (forall m, exists msg,
        (dispatch br env_vars kind step m).1 = Raise (Exception msg)) ->
    forall (fuel : nat) (m : Machine W),
      run_loop br env_vars fuel steps i m = None.
Proof.
  intros W br env steps i step id kind Hnth Hh Hon Ht Hidx Hfail fuel.
  induction fuel as [|fuel IH]; intros m; [reflexivity|].
  cbn [run_loop]. rewrite Hnth, execute_step_unfold, Hh.
  destruct (Hfail (entering step m)) as [msg Hm].
  destruct (dispatch br env kind step (entering step m)) as [r m1].
  cbn [fst] in Hm. subst r.
  replace (next_index steps i (on_error step)) with i; [apply IH|].
  unfold next_index. rewrite Hon. cbn [opt_truthy]. rewrite Ht.
  change (default EmptyString (Some id)) with id. rewrite Hidx.
  destruct (0 <=? Z.of_nat i) eqn:E; [rewrite Nat2Z.id; reflexivity|lia].
Qed.

Lemma on_error_to_itself_never_ends_witness :
  run_loop (page_browser (fails_at_A (Exception "Timeout 30000ms exceeded")))
    ∅ 1000 [step_A_on_error_A; step_B] 0 (start_machine empty_page) = None.
Proof.
  apply (on_error_to_itself_never_ends Page
           (page_browser (fails_at_A (Exception "Timeout 30000ms exceeded")))
           ∅ [step_A_on_error_A; step_B] 0 step_A_on_error_A "A" HClick).
  - reflexivity.
  - reflexivity.
  - reflexivity.
  - reflexivity.
  - reflexivity.
  - intros m. exists "Timeout 30000ms exceeded". reflexivity.
Defined.

(** ** What [_execute_select_columns] returns *)

Section SelectOutcome.

Context {W : Type} (br : Browser W).

Lemma deselect_each_Ok (l : list string) :
forall m : Machine W, exists m', deselect_each br l m = (Ok tt, m').
Proof.
induction l as [|s l IH]; intros m; cbn [deselect_each];
  [eexists; reflexivity|].
unfold bind, swallow. apply IH.
Qed.

Lemma select_each_Ok (checked : list string) (cols : list Column) :
forall failed (m : Machine W),
  exists n m',
    select_each br checked cols failed m = (Ok n, m')
    /\ (failed + length (without_selector cols) <= n
        <= failed + length cols)%nat.
Proof.
induction cols as [|col cols IH]; intros failed m;
  cbn [select_each without_selector List.filter length].
- exists failed, m. split; [reflexivity|lia].
- fold (without_selector cols).
  destruct (negb (opt_truthy (col_selector col))); cbn [length].
  + destruct (IH (S failed) m) as (n & m' & E & B).
    exists n, m'. split; [exact E|lia].
  + destruct (mem_str _ checked).
    * destruct (IH failed m) as (n & m' & E & B).
      exists n, m'. split; [exact E|lia].
    * destruct (scroll_and_click br _ m) as [[u|e] m1].
      -- destruct (IH failed m1) as (n & m' & E & B).
         exists n, m'. split; [exact E|lia].
      -- destruct (IH (S failed) m1) as (n & m' & E & B).
         exists n, m'. split; [exact E|lia].
Qed.

End SelectOutcome.

(** X14. On a page that answers which columns are checked,
    [_execute_select_columns] ends in one of two ways, decided by the
    number of columns it failed to select. That number counts at least
    the columns of the step without a selector and at most all of them.
    When it is positive and the step is not [optional], the handler
    raises [StepFailedError] with the number in its message; otherwise it
    returns [None]. A failed click is counted and never raised. *)
Theorem select_columns_outcome :
  forall (W : Type) (br : Browser W) (step : Step) (m : Machine W),
    (forall w, exists ids w', get_checked br w = (Reply ids, w')) ->
    exists (failed_count : nat) (m' : Machine W),
      (length (without_selector (columns step)) <= failed_count
       <= length (columns step))%nat
      /\ _execute_select_columns br step m
         = (if (0 <? failed_count)%nat && negb (optional step)
            then Raise (StepFailedError
                          ("Failed to select "
                           +:+ str_of_Z (Z.of_nat failed_count)
                           +:+ " columns"))
            else Ok None,
            m').
Proof.
  intros W br step m Hreply. unfold _execute_select_columns.
  destruct (Hreply (world m)) as (ids & w & E1).
  unfold bind at 1. rewrite (js_get_checked_reply br m ids w E1).
  set (m1 := set_world w (log_call CallGetChecked m)).
  unfold bind at 1.
  destruct (deselect_each_Ok br
              (List.filter
                 (fun c => negb (mem_str c (required_selectors_of (columns step))))
                 (map selector_of ids)) m1) as (m2 & E2).
  rewrite E2.
  destruct (Hreply (world m2)) as (ids' & w' & E3).
  unfold bind at 1. rewrite (js_get_checked_reply br m2 ids' w' E3).
  set (m3 := set_world w' (log_call CallGetChecked m2)).
  destruct (select_each_Ok br (map selector_of ids') (columns step) 0%nat m3)
    as (n & m4 & E4 & B).
  unfold bind. rewrite E4.
  exists n, m4. split; [lia|].
  destruct ((0 <? n)%nat && negb (optional step)); reflexivity.
Qed.

Lemma select_columns_outcome_witness :
  exists (failed_count : nat) (m' : Machine Page),
    (length (without_selector (columns column_without_selector_step))
     <= failed_count
     <= length (columns column_without_selector_step))%nat
    /\ _execute_select_columns (page_browser always_ok)
         column_without_selector_step (start_machine two_columns_page)
       = (if (0 <? failed_count)%nat
             && negb (optional column_without_selector_step)
          then Raise (StepFailedError
                        ("Failed to select "
                         +:+ str_of_Z (Z.of_nat failed_count)
                         +:+ " columns"))
          else Ok None,
          m').
Proof.
  apply (select_columns_outcome Page (page_browser always_ok)
           column_without_selector_step (start_machine two_columns_page)).
  intros w. exists (pg_checked w), w. reflexivity.
Defined.

(** ** The company name of a downloaded file *)

Lemma mem_char_replace (a b : ascii) (s : string) :
  a <> b -> mem_char a (replace_char a b s) = false.
Proof.
  intros Hab. induction s as [|c s IH]; [reflexivity|].
  cbn [replace_char mem_char]. rewrite IH, orb_false_r.
  destruct (Ascii.eqb c a) eqn:E.
  - apply Ascii.eqb_neq. congruence.
  - exact E.
Qed.

Lemma replace_char_absent (a b : ascii) (s : string) :
  mem_char a s = false -> replace_char a b s = s.
Proof.
  induction s as [|c s IH]; [reflexivity|]. cbn [mem_char replace_char].
  intros H. apply orb_false_iff in H as [Hc Hs]. rewrite Hc, (IH Hs).
  reflexivity.
Qed.

Lemma replace_char_back (a b : ascii) (s : string) :
  mem_char b s = false -> replace_char b a (replace_char a b s) = s.
Proof.
  induction s as [|c s IH]; [reflexivity|]. cbn [mem_char replace_char].
  intros H. apply orb_false_iff in H as [Hc Hs]. rewrite (IH Hs).
  destruct (Ascii.eqb c a) eqn:E.
  - apply Ascii.eqb_eq in E. subst c. rewrite Ascii.eqb_refl. reflexivity.
  - rewrite Hc. reflexivity.
Qed.

Lemma mem_char_replace_other (x a b : ascii) (s : string) :
  mem_char x s = false -> x <> b -> mem_char x (replace_char a b s) = false.
Proof.
  intros H Hb. induction s as [|c s IH]; [reflexivity|].
  cbn [mem_char replace_char] in *. apply orb_false_iff in H as [Hc Hs].
  rewrite (IH Hs), orb_false_r.
  destruct (Ascii.eqb c a); [|exact Hc].
  apply Ascii.eqb_neq. congruence.
Qed.

Lemma mem_char_lstrip (x : ascii) (s : string) :
  mem_char x s = false -> mem_char x (lstrip s) = false.
Proof.
  induction s as [|c s IH]; [reflexivity|]. cbn [lstrip]. intros H.
  destruct (is_space c); [apply IH, (mem_char_tail _ _ _ H) | exact H].
Qed.

Lemma mem_char_rstrip (x : ascii) (s : string) :
  mem_char x s = false -> mem_char x (rstrip s) = false.
Proof.
  induction s as [|c s IH]; [reflexivity|]. cbn [rstrip mem_char]. intros H.
  apply orb_false_iff in H as [Hc Hs].
  destruct (is_space c && is_empty (rstrip s)); [reflexivity|].
  cbn [mem_char]. rewrite Hc, (IH Hs). reflexivity.
Qed.

Lemma mem_char_strip (x : ascii) (s : string) :
  mem_char x s = false -> mem_char x (strip s) = false.
Proof. intros H. apply mem_char_rstrip, mem_char_lstrip, H. Qed.

(** [re.split] never returns an empty list. *)
Lemma re_split_runs_nonempty (in_run : bool) (cur s : string) :
  re_split_runs in_run cur s <> [].
Proof.
  revert in_run cur. induction s as [|c s IH]; intros in_run cur;
    cbn [re_split_runs]; [discriminate|].
  destruct (is_sep c && (in_run || starts_sep s)); [|apply IH].
  destruct in_run; [apply IH|discriminate].
Qed.

(** No [_-_] starts inside a text without a dash that is followed by
    one of the two markers. *)
Lemma no_mark_inside (c : ascii) (a rest : string) :
  mem_char "-" (String c a) = false ->
  (a = EmptyString ->
   strip_prefix "-_" rest = None) ->
  strip_prefix "_-_" (String c (a +:+ rest)) = None.
Proof.
  intros H Hrest. cbn [strip_prefix].
  destruct (Ascii.eqb "_" c); [|reflexivity].
  destruct a as [|x a].
  - cbn [String.append]. apply Hrest. reflexivity.
  - cbn [String.append strip_prefix].
    apply mem_char_tail in H. cbn [mem_char] in H.
    apply orb_false_iff in H as [Hx _].
    rewrite Ascii.eqb_sym, Hx. reflexivity.
Qed.

Lemma split_aux_at_mark (cur a b : string) :
  mem_char "-" a = false ->
  split_aux "_-_" 0 cur (a +:+ "_-_" +:+ b)
  = (cur +:+ a) :: split_aux "_-_" 0 EmptyString b.
Proof.
  intros H. revert cur. induction a as [|c a IH]; intros cur.
  - cbn [String.append]. rewrite append_nil_r.
    change (split_aux "_-_" 0 cur (String "_" (String "-" (String "_" b))))
      with (cur :: split_aux "_-_" 2 EmptyString (String "-" (String "_" b))).
    reflexivity.
  - change (String c a +:+ "_-_" +:+ b) with (String c (a +:+ "_-_" +:+ b)).
    cbn [split_aux].
    rewrite (no_mark_inside c a ("_-_" +:+ b) H) by reflexivity.
    rewrite (IH (mem_char_tail _ _ _ H)), append_assoc'. reflexivity.
Qed.

Lemma contains_after_dashless (a rest : string) :
  mem_char "-" a = false ->
  strip_prefix "-_" rest = None ->
  contains "_-_" (a +:+ rest) = contains "_-_" rest.
Proof.
  intros H Hrest. induction a as [|c a IH]; [reflexivity|].
  cbn [String.append]. cbn [contains].
  rewrite (no_mark_inside c a rest H (fun _ => Hrest)).
  apply IH, (mem_char_tail _ _ _ H).
Qed.

Lemma dash_vat_app (upper : bool) (r : string) :
  dash_vat ((if upper then "-VAT" else "-vat") +:+ r) = true.
Proof. destruct upper; reflexivity. Qed.

Lemma match_vat_cons (c : ascii) (r : string) :
  match_vat (String c r)
  = if Ascii.eqb c newline then None
    else if dash_vat r then Some (String c EmptyString)
    else option_map (String c) (match_vat r).
Proof. reflexivity. Qed.

Lemma match_vat_here (c : ascii) (a rest : string) :
  mem_char "-" (String c a) = false ->
  mem_char newline (String c a) = false ->
  dash_vat rest = true ->
  match_vat (String c a +:+ rest) = Some (String c a).
Proof.
  revert c. induction a as [|x a IH]; intros c Hd Hn Hr.
  - cbn [String.append]. rewrite match_vat_cons. cbn [mem_char] in Hn.
    apply orb_false_iff in Hn as [Hn _]. rewrite Hn, Hr. reflexivity.
  - change (String c (String x a) +:+ rest)
      with (String c (String x a +:+ rest)).
    rewrite match_vat_cons.
    pose proof Hn as Hn'. cbn [mem_char] in Hn'.
    apply orb_false_iff in Hn' as [Hc _]. rewrite Hc.
    assert (Hx : dash_vat (String x (a +:+ rest)) = false).
    { apply mem_char_tail in Hd. cbn [mem_char] in Hd.
      apply orb_false_iff in Hd as [Hx _].
      unfold dash_vat. cbn [strip_prefix]. rewrite Ascii.eqb_sym, Hx.
      reflexivity. }
    change (String x a +:+ rest) with (String x (a +:+ rest)) at 1.
    rewrite Hx.
    rewrite (IH x (mem_char_tail _ _ _ Hd) (mem_char_tail _ _ _ Hn) Hr).
    reflexivity.
Qed.

Section CompanyOfStem.

Variable stem : string -> string.

(** X15. The company name that [_extract_company_from_filename] returns
  never holds an underscore. It has no white space at either end when
  it comes from the standard pattern or from the fallback; under the
  VAT pattern [strip] is applied before dashes and underscores are
  turned into blanks, so that blanks may stay at the ends. The list
  that [re.split] returns is never empty: the last [return] of the
  function is never reached. *)
Theorem extract_company_no_underscore :
forall filename : string,
  let company := _extract_company_from_filename stem filename in
  mem_char "_" company = false
  /\ (contains "_-_" (stem filename) = true
      \/ match_vat (stem filename) = None ->
      strip company = company)
  /\ re_split_runs false EmptyString (stem filename) <> [].
Proof.
intros filename company. subst company.
unfold _extract_company_from_filename.
assert (U : forall s, mem_char "_" (strip (replace_char "_" " " s)) = false).
{ intros s. apply mem_char_strip, mem_char_replace. discriminate. }
pose proof (re_split_runs_nonempty false EmptyString (stem filename)) as N.
split; [|split; [|exact N]].
- destruct (contains "_-_" (stem filename)); [apply U|].
  destruct (match_vat (stem filename)) as [g|].
  + apply mem_char_replace. discriminate.
  + destruct (re_split_runs false EmptyString (stem filename));
      apply U.
- intros H. destruct (contains "_-_" (stem filename)); [apply strip_idem|].
  destruct H as [H|H]; [discriminate|]. rewrite H.
  destruct (re_split_runs false EmptyString (stem filename));
    apply strip_idem.
Qed.

(** X16. The standard pattern. For a file whose stem is a text without
  a dash, then [_-_], then anything, [_extract_company_from_filename]
  returns that text with its underscores turned into blanks and the
  white space at its ends removed. In particular a company name
  without underscore or dash and without white space at its ends, once
  written with underscores for its blanks, is read back as it was. *)
Theorem extract_company_standard_pattern :
forall (filename company_part report : string),
  stem filename = company_part +:+ "_-_" +:+ report ->
  mem_char "-" company_part = false ->
  _extract_company_from_filename stem filename
  = strip (replace_char "_" " " company_part)
  /\ (forall name : string,
        company_part = replace_char " " "_" name ->
        mem_char "_" name = false ->
        strip name = name ->
        _extract_company_from_filename stem filename = name).
Proof.
intros filename c r Hs Hd.
assert (E : _extract_company_from_filename stem filename
            = strip (replace_char "_" " " c)).
{ unfold _extract_company_from_filename. rewrite Hs, contains_app.
  unfold split. rewrite (split_aux_at_mark EmptyString c r Hd).
  reflexivity. }
split; [exact E|].
intros name Hc Hu Hst. rewrite E, Hc, replace_char_back by exact Hu.
exact Hst.
Qed.

(** X17. The VAT pattern. For a file whose stem is a non-empty text
  without dash or newline, then [-VAT] or [-vat], then a text that
  does not hold [_-_], [_extract_company_from_filename] returns the
  first text without the white space at its ends and with its
  underscores turned into blanks. *)
Theorem extract_company_vat_pattern :
forall (filename company_part rest : string) (upper : bool),
  stem filename
  = company_part +:+ (if upper then "-VAT" else "-vat") +:+ rest ->
  company_part <> EmptyString ->
  mem_char "-" company_part = false ->
  mem_char newline company_part = false ->
  contains "_-_" rest = false ->
  _extract_company_from_filename stem filename
  = replace_char "_" " " (strip company_part).
Proof.
intros filename c r upper Hs Hne Hd Hn Hr.
unfold _extract_company_from_filename. rewrite Hs.
assert (Hc : contains "_-_" (c +:+ (if upper then "-VAT" else "-vat") +:+ r)
             = false).
{ rewrite contains_after_dashless by (destruct upper; auto).
  destruct upper; cbn [String.append contains strip_prefix Ascii.eqb];
    cbn; exact Hr. }
rewrite Hc. destruct c as [|x a]; [congruence|].
rewrite (match_vat_here x a _ Hd Hn (dash_vat_app upper r)).
rewrite (replace_char_absent "-" " " (strip (String x a)));
  [reflexivity|].
apply mem_char_strip, Hd.
Qed.

End CompanyOfStem.

Lemma extract_company_standard_pattern_witness :
  _extract_company_from_filename (fun f => "Acme_Trading_Ltd_-_Trial_Balance")
    "Acme_Trading_Ltd_-_Trial_Balance.xlsx"
  = "Acme Trading Ltd".
Proof.
  apply (proj2 (extract_company_standard_pattern
                  (fun f => "Acme_Trading_Ltd_-_Trial_Balance")
                  "Acme_Trading_Ltd_-_Trial_Balance.xlsx" "Acme_Trading_Ltd"
                  "Trial_Balance" eq_refl eq_refl) "Acme Trading Ltd"
           eq_refl eq_refl eq_refl).
Defined.

Lemma extract_company_vat_pattern_witness :
  _extract_company_from_filename (fun f => "Acme_Trading-VAT-Return_2024")
    "Acme_Trading-VAT-Return_2024.pdf"
  = replace_char "_" " " (strip "Acme_Trading").
Proof.
  apply (extract_company_vat_pattern
           (fun f => "Acme_Trading-VAT-Return_2024")
           "Acme_Trading-VAT-Return_2024.pdf" "Acme_Trading"
           "-Return_2024" true eq_refl ltac:(discriminate) eq_refl eq_refl
           eq_refl).
Defined.

(** ** The handlers that drive one element of the page *)

Section LeafFacts.

Context {W : Type} (br : Browser W) (pw : Playwright W)
      (env_vars : gmap string string) (repr_list : list string -> string).

Lemma returns_flag_ret (b : bool) : returns_flag (@ret W bool b).
Proof. intros m. exists b. reflexivity. Qed.

Lemma returns_flag_attempt (body next : M W bool) :
returns_flag next -> returns_flag (attempt body next).
Proof.
intros H m. unfold attempt.
destruct (body m) as [[[|]|e] m']; [exists true; reflexivity | apply H..].
Qed.

Lemma fill_each_flag (args : StepArgs) (v : string) (l : list string) :
returns_flag (fill_each pw args v l).
Proof.
induction l; [apply returns_flag_ret | apply returns_flag_attempt; assumption].
Qed.

Lemma click_each_flag (args : StepArgs) (l : list string) :
returns_flag (click_each br pw env_vars args l).
Proof.
induction l; [apply returns_flag_ret | apply returns_flag_attempt; assumption].
Qed.

Lemma wait_url_each_flag (l : list string) : returns_flag (wait_url_each pw l).
Proof.
induction l; [apply returns_flag_ret | apply returns_flag_attempt; assumption].
Qed.

Lemma wait_selector_each_flag (l : list string) :
returns_flag (wait_selector_each br pw env_vars l).
Proof.
induction l; [apply returns_flag_ret | apply returns_flag_attempt; assumption].
Qed.

Lemma ensure_each_flag (b : bool) (l : list string) :
returns_flag (ensure_each pw b l).
Proof.
induction l; [apply returns_flag_ret | apply returns_flag_attempt; assumption].
Qed.

Lemma read_input_each_flag (args : StepArgs) (l : list string) :
returns_flag (read_input_each pw args l).
Proof.
induction l; [apply returns_flag_ret | apply returns_flag_attempt; assumption].
Qed.

Lemma read_text_each_flag (args : StepArgs) (l : list string) :
returns_flag (read_text_each pw args l).
Proof.
induction l; [apply returns_flag_ret | apply returns_flag_attempt; assumption].
Qed.

Lemma not_found_rule (step : Step) (msg : string) (target : option string)
  (m : Machine W) :
ends_by_rule step target (not_found step msg target m).1.
Proof.
unfold not_found, ends_by_rule. destruct (optional step); cbn; eauto 6.
Qed.

Lemma loop_rule (step : Step) (target : option string) (loop : M W bool)
  (fail : M W (option string)) (m : Machine W) :
returns_flag loop ->
(forall m', ends_by_rule step target (fail m').1) ->
ends_by_rule step target
  ((let* found := loop in if found : bool then ret None else fail) m).1.
Proof.
intros Hl Hf. unfold bind. destruct (Hl m) as [b Hb].
destruct (loop m) as [r m']. cbn [fst] in Hb. subst r.
destruct b; [left; reflexivity | apply Hf].
Qed.

Lemma timed_out_rule (step : Step) (msg : string) (m : Machine W) :
ends_by_rule step (on_timeout step) (timed_out pw step msg m).1.
Proof. unfold timed_out, bind, swallow. apply not_found_rule. Qed.

Lemma try_rule (step : Step) (target : option string) (body : M W (option string))
  (msg : exn -> string) (m : Machine W) :
(forall r m', body m = (Ok r, m') -> r = None) ->
ends_by_rule step target
  (try_except body (fun e => not_found step (msg e) target) m).1.
Proof.
intros Hb. unfold try_except. destruct (body m) as [[r|e] m'] eqn:E.
- left. rewrite (Hb r m' eq_refl). reflexivity.
- apply not_found_rule.
Qed.

Lemma bind_fst {A B : Type} (c : M W A) (k : A -> M W B) (m : Machine W) :
(bind c k m).1
= match c m with
  | (Ok a, m') => (k a m').1
  | (Raise e, _) => Raise e
  end.
Proof. unfold bind. destruct (c m) as [[a|e] m']; reflexivity. Qed.

Lemma resolve_never_step_failed (s : string) (m : Machine W) (msg : string) :
(resolve br env_vars s m).1 <> Raise (StepFailedError msg).
Proof. apply nsf_resolve. Qed.

End LeafFacts.

(** X18. How the handlers [fill], [press_key], [click],
    [ensure_checked], [wait_for_url], [wait_for_selector], [read_input],
    [read_text] and [execute_script] end. Each returns [None] when it did
    its work. When it could not, a step that is [optional] returns its
    [on_error] target, or its [on_timeout] target for the two waiting
    handlers, and a step that is not raises [StepFailedError]. Only
    [fill] can end otherwise, with the exception that resolving its
    value raised. So an optional step of these kinds never stops the
    workflow. *)
Theorem leaf_handlers_end_by_rule :
  forall (W : Type) (br : Browser W) (pw : Playwright W)
         (env_vars : gmap string string) (repr_list : list string -> string)
         (kind : HandlerKind) (handler : Step -> StepArgs -> M W (option string))
         (step : Step) (args : StepArgs) (m : Machine W),
    leaf_handler br pw env_vars repr_list kind = Some handler ->
    kind <> HGoto ->
    kind <> HCheckUrl ->
    let r := (handler step args m).1 in
    (r = Ok None
     \/ (optional step = true /\ r = Ok (failure_target kind step))
     \/ (optional step = false /\ exists msg, r = Raise (StepFailedError msg))
     \/ (kind = HFill /\ exists msg, r = Raise (Exception msg)))
    /\ (optional step = true -> forall msg, r <> Raise (StepFailedError msg)).
Proof.
  intros W br pw env repr kind handler step args m Hh Hg Hc r.
  assert (R : ends_by_rule step (failure_target kind step) r
              \/ (kind = HFill /\ exists msg, r = Raise (Exception msg))).
  { subst r. destruct kind; try discriminate; try congruence;
      injection Hh as <-; cbn [failure_target].
    - unfold _execute_fill. rewrite bind_fst.
      pose proof (resolve_never_step_failed br env
                    (default EmptyString (fill_value args)) m) as N.
      destruct (resolve br env _ m) as [[v|[msg|msg]] m1]; cbn [fst] in *.
      + left. apply (loop_rule step (on_error step)
                       (fill_each pw args v (selectors args)));
          [apply fill_each_flag|].
        intros m'. apply not_found_rule.
      + exfalso. exact (N msg eq_refl).
      + right. split; [reflexivity|]. exists msg. reflexivity.
    - left. unfold _execute_press_key. apply try_rule.
      intros r0 m' H. apply bind_Ok in H as (a & m1 & _ & H).
      injection H as <- _. reflexivity.
    - left. apply loop_rule; [apply click_each_flag|].
      intros m'. apply not_found_rule.
    - left. apply loop_rule; [apply ensure_each_flag|].
      intros m'. apply not_found_rule.
    - left. apply loop_rule; [apply wait_url_each_flag|].
      intros m'. apply timed_out_rule.
    - left. apply loop_rule; [apply wait_selector_each_flag|].
      intros m'. apply timed_out_rule.
    - left. apply loop_rule; [apply read_input_each_flag|].
      intros m'. apply not_found_rule.
    - left. apply loop_rule; [apply read_text_each_flag|].
      intros m'. apply not_found_rule.
    - left. unfold _execute_script. apply try_rule.
      intros r0 m' H. do 2 (apply bind_Ok in H as (? & ? & _ & H)).
      injection H as <- _. reflexivity. }
  split.
  - destruct R as [[R|[R|R]]|R]; auto.
  - intros Ho msg Hr.
    destruct R as [[R|[[_ R]|[R _]]]|[_ [msg' R]]]; congruence.
Qed.

Lemma leaf_handlers_end_by_rule_witness :
  let r := (_execute_click (page_browser always_ok) (simple_playwright [])
              ∅ repr_of_examples step_A (only_selectors ["#export"])
              (start_machine empty_page)).1 in
  (r = Ok None
   \/ (optional step_A = true /\ r = Ok (failure_target HClick step_A))
   \/ (optional step_A = false /\ exists msg, r = Raise (StepFailedError msg))
   \/ (HClick = HFill /\ exists msg, r = Raise (Exception msg)))
  /\ (optional step_A = true -> forall msg, r <> Raise (StepFailedError msg)).
Proof.
  apply (leaf_handlers_end_by_rule Page (page_browser always_ok)
           (simple_playwright []) ∅ repr_of_examples HClick _ step_A
           (only_selectors ["#export"]) (start_machine empty_page) eq_refl);
    discriminate.
Defined.

(** ** Navigation and branching on the URL *)

Section GotoFacts.

Context {W : Type} (br : Browser W) (pw : Playwright W)
      (env_vars : gmap string string).

Lemma resolve_machine (s : string) (m : Machine W) :
(resolve br env_vars s m).2 = m.
Proof. reflexivity. Qed.

Lemma bind_eq {A B : Type} (c : M W A) (k : A -> M W B) (m m1 : Machine W)
  (a : A) :
c m = (Ok a, m1) -> bind c k m = k a m1.
Proof. intros H. unfold bind. rewrite H. reflexivity. Qed.

Lemma page_call_no_step_failed {A : Type} (op : W -> reply A * W)
  (m : Machine W) (msg : string) :
(page_call op m).1 <> Raise (StepFailedError msg).
Proof.
unfold page_call. destruct (op (world m)) as [[a|e] w]; discriminate.
Qed.

Lemma try_goto_returns (step : Step) (body : M W (option string))
  (m : Machine W) :
(forall r m', body m = (Ok r, m') -> r = None) ->
exists m',
  try_except body (fun _ => ret (on_error step)) m = (Ok None, m')
  \/ (try_except body (fun _ => ret (on_error step)) m
      = (Ok (on_error step), m')
      /\ exists e, body m = (Raise e, m')).
Proof.
intros H. unfold try_except. destruct (body m) as [[r|e] m'] eqn:E.
- exists m'. left. rewrite (H r m' eq_refl). reflexivity.
- exists m'. right. split; [reflexivity|]. exists e. reflexivity.
Qed.

End GotoFacts.

(** X19. A navigation that fails never stops the workflow.
    [_execute_goto] never raises [StepFailedError], and it does not read
    the flag [optional]: once the URL of the step is resolved, the handler
    returns [None], or the [on_error] target of the step when a call on
    the page failed; a failed [goto] gives the [on_error] target at once
    and leaves the state and the report as they were. *)
Theorem goto_failure_never_stops :
  forall (W : Type) (br : Browser W) (pw : Playwright W)
         (env_vars : gmap string string) (step : Step) (args : StepArgs)
         (m : Machine W),
    (forall msg, (_execute_goto br pw env_vars step args m).1
                 <> Raise (StepFailedError msg))
    /\ (forall u target,
          url args = Some u ->
          (resolve br env_vars u m).1 = Ok target ->
          (exists m',
              _execute_goto br pw env_vars step args m = (Ok None, m')
              \/ _execute_goto br pw env_vars step args m
                 = (Ok (on_error step), m'))
          /\ (forall msg w,
                pw_goto pw target (world m) = (Fault msg, w) ->
                _execute_goto br pw env_vars step args m
                = (Ok (on_error step), set_world w m))).
Proof.
  intros W br pw env step args m. split.
  - intros msg. unfold _execute_goto. destruct (url args) as [u|];
      [|discriminate].
    unfold bind at 1.
    pose proof (nsf_resolve br env u m) as N.
    destruct (resolve br env u m) as [[t|e] m1]; cbn [fst] in *.
    + unfold try_except.
      match goal with
      | |- context [match ?b m1 with _ => _ end] => destruct (b m1) as [[r|e] m2]
      end; discriminate.
    + intros H. injection H as ->. exact (N msg eq_refl).
  - intros u target Hu Hr. unfold _execute_goto. rewrite Hu.
    assert (E : resolve br env u m = (Ok target, m)).
    { pose proof (resolve_machine br env u m) as Em.
      destruct (resolve br env u m) as [r m1]. cbn [fst snd] in *.
      subst r m1. reflexivity. }
    rewrite (bind_eq _ _ m m target E). split.
    + match goal with
      | |- context [try_except ?b _ m] =>
          destruct (try_goto_returns step b m) as (m' & [H|[H _]])
      end.
      * intros r m' H. do 3 (apply bind_Ok in H as (? & ? & _ & H)).
        injection H as <- _. reflexivity.
      * exists m'. left. exact H.
      * exists m'. right. exact H.
    + intros msg w Hg. unfold try_except, bind at 1, page_call.
      rewrite Hg. reflexivity.
Qed.

Lemma goto_failure_never_stops_witness :
  exists m',
    _execute_goto (page_browser always_ok) (simple_playwright []) ∅ step_A
      (mkArgs (Some "https://go.xero.com") [] None false None false None None
              None [] [] None None None)
      (start_machine empty_page) = (Ok None, m')
    \/ _execute_goto (page_browser always_ok) (simple_playwright []) ∅ step_A
         (mkArgs (Some "https://go.xero.com") [] None false None false None
                 None None [] [] None None None)
         (start_machine empty_page) = (Ok (on_error step_A), m').
Proof.
  exact (proj1 (proj2 (goto_failure_never_stops Page (page_browser always_ok)
                         (simple_playwright []) ∅ step_A
                         (mkArgs (Some "https://go.xero.com") [] None false None
                                 false None None None [] [] None None None)
                         (start_machine empty_page))
                  "https://go.xero.com" "https://go.xero.com"
                  eq_refl eq_refl)).
Defined.

Section CheckUrlFacts.

Context {W : Type} (pw : Playwright W).

Lemma check_conditions_skip (current_url : string) (d : option string)
  (l1 l2 : list Condition) (m : Machine W) :
Forall (fun c => condition_holds pw current_url c = Reply false) l1 ->
check_conditions pw current_url d (l1 ++ l2) m
= check_conditions pw current_url d l2 m.
Proof.
induction 1 as [|c l1 Hc _ IH]; [reflexivity|].
cbn [app check_conditions]. unfold condition_holds in Hc.
destruct (opt_truthy (cond_contains c) && _); [discriminate|].
destruct (opt_truthy (cond_matches c)); [|exact IH].
unfold bind, pure_call. rewrite Hc. exact IH.
Qed.

Lemma check_conditions_here (current_url : string) (d : option string)
  (c : Condition) (l : list Condition) (m : Machine W) :
check_conditions pw current_url d (c :: l) m
= match condition_holds pw current_url c with
  | Reply true => (Ok (cond_goto_step c), m)
  | Reply false => check_conditions pw current_url d l m
  | Fault msg => (Raise (Exception msg), m)
  end.
Proof.
cbn [check_conditions]. unfold condition_holds.
destruct (opt_truthy (cond_contains c) && _); [reflexivity|].
destruct (opt_truthy (cond_matches c)); [|reflexivity].
unfold bind, pure_call.
destruct (re_search pw _ current_url) as [[|]|msg]; reflexivity.
Qed.

End CheckUrlFacts.

(** X20. [_execute_check_url] returns the [goto_step] of the first
    condition that holds of the lower-cased URL, whatever follows it in
    the list and even when that condition has no [goto_step], in which
    case the result is [None] and [default_step] is not used. When no
    condition holds it returns [default_step]. A pattern that makes
    [re.search] fail raises that exception, unless an earlier condition
    holds. The handler changes nothing. *)
Theorem check_url_first_condition_wins :
  forall (W : Type) (pw : Playwright W) (step : Step) (args : StepArgs)
         (m : Machine W),
    let current_url := lower_str (pw_url pw (world m)) in
    (forall l1 c l2,
        conditions args = l1 ++ c :: l2 ->
        Forall (fun c' => condition_holds pw current_url c' = Reply false) l1 ->
        condition_holds pw current_url c = Reply true ->
        _execute_check_url pw step args m = (Ok (cond_goto_step c), m))
    /\ (Forall (fun c' => condition_holds pw current_url c' = Reply false)
          (conditions args) ->
        _execute_check_url pw step args m = (Ok (default_step args), m))
    /\ (forall l1 c l2 msg,
          conditions args = l1 ++ c :: l2 ->
          Forall (fun c' => condition_holds pw current_url c' = Reply false) l1 ->
          condition_holds pw current_url c = Fault msg ->
          _execute_check_url pw step args m = (Raise (Exception msg), m)).
Proof.
  intros W pw step args m current_url. unfold _execute_check_url.
  fold current_url. split; [|split].
  - intros l1 c l2 -> H1 Hc.
    rewrite (check_conditions_skip pw current_url _ l1 (c :: l2) m H1).
    rewrite check_conditions_here, Hc. reflexivity.
  - intros H.
    rewrite <- (app_nil_r (conditions args)).
    rewrite (check_conditions_skip pw current_url _ _ [] m H). reflexivity.
  - intros l1 c l2 msg -> H1 Hc.
    rewrite (check_conditions_skip pw current_url _ l1 (c :: l2) m H1).
    rewrite check_conditions_here, Hc. reflexivity.
Qed.

Lemma check_url_first_condition_wins_witness :
  _execute_check_url (simple_playwright []) step_probe
    (mkArgs None [] None false None false None None None []
            [ mkCondition (Some "/Login") None (Some "login");
              mkCondition (Some "XERO.com") None None;
              mkCondition (Some "dashboard") None (Some "done") ]
            (Some "fallback") None None)
    (start_machine empty_page)
  = (Ok None, start_machine empty_page).
Proof.
  apply (proj1 (check_url_first_condition_wins Page (simple_playwright [])
                  step_probe
                  (mkArgs None [] None false None false None None None []
                          [ mkCondition (Some "/Login") None (Some "login");
                            mkCondition (Some "XERO.com") None None;
                            mkCondition (Some "dashboard") None (Some "done") ]
                          (Some "fallback") None None)
                  (start_machine empty_page))
           [mkCondition (Some "/Login") None (Some "login")]
           (mkCondition (Some "XERO.com") None None)
           [mkCondition (Some "dashboard") None (Some "done")]).
  - reflexivity.
  - constructor; [reflexivity|constructor].
  - reflexivity.
Defined.

(** ** The first selector that works *)

Section ClickFacts.

Context {W : Type} (br : Browser W) (pw : Playwright W)
      (env_vars : gmap string string).

Lemma click_each_app (args : StepArgs) (l1 l2 : list string) :
forall m : Machine W,
  click_each br pw env_vars args (l1 ++ l2) m
  = match click_each br pw env_vars args l1 m with
    | (Ok true, m') => (Ok true, m')
    | (Ok false, m') => click_each br pw env_vars args l2 m'
    | (Raise e, m') => (Raise e, m')
    end.
Proof.
induction l1 as [|s l1 IH]; intros m; [reflexivity|].
cbn [app click_each]. unfold attempt.
match goal with
| |- context [match ?b m with _ => _ end] =>
    destruct (b m) as [[[|]|e] m1]
end; [reflexivity | apply IH | apply IH].
Qed.

End ClickFacts.

Section Records.

Context {W : Type} (br : Browser W) (pw : Playwright W)
      (env_vars : gmap string string).

Lemma same_records_refl (m : Machine W) : same_records m m.
Proof. repeat split. Qed.

Lemma same_records_trans (a b c : Machine W) :
same_records a b -> same_records b c -> same_records a c.
Proof. unfold same_records. intuition congruence. Qed.

Lemma sr_ret {A : Type} (a : A) : keeps same_records (@ret W A a).
Proof. intros m. apply same_records_refl. Qed.

Lemma sr_raise {A : Type} (e : exn) : keeps same_records (@raise W A e).
Proof. intros m. apply same_records_refl. Qed.

Lemma sr_bind {A B : Type} (c : M W A) (k : A -> M W B) :
keeps same_records c -> (forall a, keeps same_records (k a)) ->
keeps same_records (bind c k).
Proof.
intros Hc Hk m. unfold bind. specialize (Hc m).
destruct (c m) as [[a|e] m1]; cbn [snd] in *; [|exact Hc].
eapply same_records_trans; [exact Hc | apply Hk].
Qed.

Lemma sr_page_call {A : Type} (op : W -> reply A * W) :
keeps same_records (page_call op).
Proof.
intros m. unfold page_call.
destruct (op (world m)) as [[a|e] w]; repeat split.
Qed.

Lemma sr_pure_call {A : Type} (r : reply A) :
keeps same_records (@pure_call W A r).
Proof. intros m. destruct r; apply same_records_refl. Qed.

Lemma sr_resolve (s : string) : keeps same_records (resolve br env_vars s).
Proof. intros m. apply same_records_refl. Qed.

Lemma sr_swallow {A : Type} (c : M W A) :
keeps same_records c -> keeps same_records (swallow c).
Proof. intros H m. exact (H m). Qed.

Lemma sr_try_except {A : Type} (c : M W A) (h : exn -> M W A) :
keeps same_records c -> (forall e, keeps same_records (h e)) ->
keeps same_records (try_except c h).
Proof.
intros Hc Hh m. unfold try_except. specialize (Hc m).
destruct (c m) as [[a|e] m1]; cbn [snd] in *; [exact Hc|].
eapply same_records_trans; [exact Hc | apply Hh].
Qed.

Lemma sr_attempt (body next : M W bool) :
keeps same_records body -> keeps same_records next ->
keeps same_records (attempt body next).
Proof.
intros Hb Hn m. unfold attempt. specialize (Hb m).
destruct (body m) as [[[|]|e] m1]; cbn [snd] in *;
  [exact Hb | eapply same_records_trans; [exact Hb | apply Hn]..].
Qed.

Lemma sr_not_found (step : Step) (msg : string) (target : option string) :
keeps same_records (@not_found W step msg target).
Proof.
unfold not_found. destruct (negb (optional step));
  [apply sr_raise | apply sr_ret].
Qed.

Lemma sr_if {A : Type} (b : bool) (c1 c2 : M W A) :
keeps same_records c1 -> keeps same_records c2 ->
keeps same_records (if b then c1 else c2).
Proof. destruct b; auto. Qed.

Lemma sr_click_each (args : StepArgs) (l : list string) :
keeps same_records (click_each br pw env_vars args l).
Proof.
induction l as [|s l IH]; [apply sr_ret|]. cbn [click_each].
apply sr_attempt; [|exact IH].
apply sr_bind; [apply sr_resolve|]. intros r.
apply sr_bind; [apply sr_page_call|]. intros visible.
apply sr_if; [|apply sr_ret].
apply sr_bind; [apply sr_if; apply sr_page_call|]. intros _. apply sr_ret.
Qed.

Lemma sr_fill_each (args : StepArgs) (v : string) (l : list string) :
keeps same_records (fill_each pw args v l).
Proof.
induction l as [|s l IH]; [apply sr_ret|]. cbn [fill_each].
apply sr_attempt; [|exact IH].
apply sr_bind; [apply sr_if; [apply sr_page_call | apply sr_ret]|].
intros _. apply sr_bind; [apply sr_page_call|]. intros _. apply sr_ret.
Qed.

Lemma sr_ensure_each (b : bool) (l : list string) :
keeps same_records (ensure_each pw b l).
Proof.
induction l as [|s l IH]; [apply sr_ret|]. cbn [ensure_each].
apply sr_attempt; [|exact IH].
apply sr_bind; [apply sr_page_call|]. intros visible.
apply sr_if; [|apply sr_ret].
apply sr_bind; [apply sr_page_call|]. intros is_checked.
apply sr_bind; [apply sr_if; [apply sr_page_call | apply sr_ret]|].
intros _. apply sr_ret.
Qed.

Lemma sr_wait_url_each (l : list string) :
keeps same_records (wait_url_each pw l).
Proof.
induction l as [|s l IH]; [apply sr_ret|]. cbn [wait_url_each].
apply sr_attempt; [|exact IH].
apply sr_bind; [apply sr_page_call|]. intros _. apply sr_ret.
Qed.

Lemma sr_wait_selector_each (l : list string) :
keeps same_records (wait_selector_each br pw env_vars l).
Proof.
induction l as [|s l IH]; [apply sr_ret|]. cbn [wait_selector_each].
apply sr_attempt; [|exact IH].
apply sr_bind; [apply sr_resolve|]. intros r.
apply sr_bind; [apply sr_page_call|]. intros _. apply sr_ret.
Qed.

Lemma sr_timed_out (step : Step) (msg : string) :
keeps same_records (timed_out pw step msg).
Proof.
unfold timed_out. apply sr_bind; [apply sr_swallow, sr_page_call|].
intros _. apply sr_not_found.
Qed.

Lemma sr_check_conditions (u : string) (d : option string)
  (l : list Condition) :
keeps same_records (check_conditions pw u d l).
Proof.
induction l as [|c l IH]; [apply sr_ret|]. cbn [check_conditions].
apply sr_if; [apply sr_ret|]. apply sr_if; [|exact IH].
apply sr_bind; [apply sr_pure_call|]. intros found.
apply sr_if; [apply sr_ret | exact IH].
Qed.

End Records.

(** X21. [_execute_click] clicks the first selector that works and looks
    no further. If the loop over a first part of the selectors ends with
    a click, the handler returns [None] with the page as that click left
    it, whatever selectors follow and whether or not the step is
    optional. If the loop over all the selectors ends without a click,
    the handler returns the [on_error] target of an optional step, and
    raises [StepFailedError] with the list of selectors for a step that
    is not. In both cases the state, the report and the record of calls
    are as before. *)
Theorem click_first_working_selector :
  forall (W : Type) (br : Browser W) (pw : Playwright W)
         (env_vars : gmap string string) (repr_list : list string -> string)
         (step : Step) (args : StepArgs) (m m' : Machine W),
    (forall l1 l2,
        selectors args = l1 ++ l2 ->
        click_each br pw env_vars args l1 m = (Ok true, m') ->
        _execute_click br pw env_vars repr_list step args m = (Ok None, m'))
    /\ (click_each br pw env_vars args (selectors args) m = (Ok false, m') ->
        _execute_click br pw env_vars repr_list step args m
        = (if optional step then Ok (on_error step)
           else Raise (StepFailedError
                         ("No matching selector found for click: "
                          +:+ repr_list (selectors args))),
           m'))
    /\ (forall found,
          click_each br pw env_vars args (selectors args) m = (Ok found, m') ->
          same_records m m').
Proof.
  intros W br pw env repr step args m m'. split; [|split].
  - intros l1 l2 Hs H. unfold _execute_click, bind.
    rewrite Hs, click_each_app, H. reflexivity.
  - intros H. unfold _execute_click, bind. rewrite H.
    unfold not_found. destruct (optional step); reflexivity.
  - intros found H.
    pose proof (sr_click_each br pw env args (selectors args) m) as R.
    rewrite H in R. exact R.
Qed.

Lemma click_first_working_selector_witness :
  exists m',
    _execute_click (page_browser always_ok) (simple_playwright ["#export"])
      ∅ repr_of_examples step_A
      (only_selectors ["#missing"; "#export"; "#other"])
      (start_machine empty_page) = (Ok None, m').
Proof.
  eexists.
  apply (proj1 (click_first_working_selector Page (page_browser always_ok)
                  (simple_playwright ["#export"]) ∅ repr_of_examples step_A
                  (only_selectors ["#missing"; "#export"; "#other"])
                  (start_machine empty_page) _)
           ["#missing"; "#export"] ["#other"]).
  - reflexivity.
  - vm_compute. reflexivity.
Defined.

(** X22. The handlers [goto], [fill], [press_key], [click],
    [ensure_checked], [check_url], [wait_for_url] and
    [wait_for_selector] act on the page only: whether they return or
    raise, the variables, the results, the lists of completed steps and of
    errors, the report and the record of calls are as they were
    before. *)
Theorem page_handlers_write_nothing :
  forall (W : Type) (br : Browser W) (pw : Playwright W)
         (env_vars : gmap string string) (repr_list : list string -> string)
         (kind : HandlerKind) (handler : Step -> StepArgs -> M W (option string))
         (step : Step) (args : StepArgs) (m : Machine W),
    leaf_handler br pw env_vars repr_list kind = Some handler ->
    kind <> HReadInput ->
    kind <> HReadText ->
    kind <> HExecuteScript ->
    same_records m (handler step args m).2.
Proof.
  intros W br pw env repr kind handler step args m Hh H1 H2 H3.
  revert m. change (keeps same_records (handler step args)).
  destruct kind; try discriminate; try congruence; injection Hh as <-.
  - unfold _execute_goto. destruct (url args); [|apply sr_raise].
    apply sr_bind; [apply sr_resolve|]. intros u m.
    apply sr_try_except; [|intros _; apply sr_ret].
    apply sr_bind; [apply sr_page_call|]. intros _.
    apply sr_bind; [intros m1; apply same_records_refl|]. intros reload.
    apply sr_bind; [|intros _; apply sr_ret].
    apply sr_if; [|apply sr_ret].
    apply sr_bind; [apply sr_page_call|]. intros _. apply sr_page_call.
  - unfold _execute_fill. apply sr_bind; [apply sr_resolve|]. intros v.
    apply sr_bind; [apply sr_fill_each|]. intros filled.
    apply sr_if; [apply sr_ret | apply sr_not_found].
  - unfold _execute_press_key.
    apply sr_try_except; [|intros e; apply sr_not_found].
    apply sr_bind; [apply sr_page_call|]. intros _. apply sr_ret.
  - unfold _execute_click. apply sr_bind; [apply sr_click_each|].
    intros clicked. apply sr_if; [apply sr_ret | apply sr_not_found].
  - unfold _execute_ensure_checked. apply sr_bind; [apply sr_ensure_each|].
    intros found. apply sr_if; [apply sr_ret | apply sr_not_found].
  - intros m. apply sr_check_conditions.
  - unfold _execute_wait_for_url. apply sr_bind; [apply sr_wait_url_each|].
    intros ready. apply sr_if; [apply sr_ret | apply sr_timed_out].
  - unfold _execute_wait_for_selector.
    apply sr_bind; [apply sr_wait_selector_each|].
    intros found. apply sr_if; [apply sr_ret | apply sr_timed_out].
Qed.

Lemma page_handlers_write_nothing_witness :
  same_records (start_machine empty_page)
    (_execute_fill (page_browser always_ok) (simple_playwright []) ∅
       repr_of_examples step_B (only_selectors ["#user"])
       (start_machine empty_page)).2.
Proof.
  apply (page_handlers_write_nothing Page (page_browser always_ok)
           (simple_playwright []) ∅ repr_of_examples HFill _ step_B
           (only_selectors ["#user"]) (start_machine empty_page) eq_refl);
    discriminate.
Defined.

(** ** The two download handlers *)

Lemma store_company_name {W : Type} (v : value) (m : Machine W) :
  _store_variable "company_name" v m
  = (Ok tt, log_report (EvFilter "company_name" (value_str v))
              (with_state (set_variable "company_name" v) m)).
Proof. reflexivity. Qed.

Lemma store_downloaded_file {W : Type} (v : value) (m : Machine W) :
  _store_variable "downloaded_file" v m
  = (Ok tt, with_state (set_variable "downloaded_file" v) m).
Proof. reflexivity. Qed.

Lemma page_call_Ok {W A : Type} (op : W -> reply A * W) (m m1 : Machine W)
    (a : A) :
  page_call op m = (Ok a, m1) ->
  exists w, op (world m) = (Reply a, w) /\ m1 = set_world w m.
Proof.
  unfold page_call. destruct (op (world m)) as [[a'|msg] w]; [|discriminate].
  intros H. injection H as <- <-. exists w. split; reflexivity.
Qed.

Lemma page_call_Raise {W A : Type} (op : W -> reply A * W) (m m1 : Machine W)
    (e : exn) :
  page_call op m = (Raise e, m1) -> same_records m m1.
Proof.
  intros H. pose proof (sr_page_call op m) as R. rewrite H in R. exact R.
Qed.

Section DownloadFacts.

Context {W : Type} (pw : Playwright W) (fs : Files W)
      (repr_list : list string -> string) (stem suffix : string -> string)
      (join : string -> string -> string)
      (is_asyncio_timeout : string -> bool) (workflow_name : string).

Lemma find_element_returns (l : list string) :
forall m : Machine W,
  exists r m',
    find_element pw l m = (Ok r, m')
    /\ same_records m m'
    /\ (forall s, r = Some s -> In s l)
    /\ (l = [] -> r = None).
Proof.
induction l as [|s l IH]; intros m.
- exists None, m. split; [reflexivity|].
  split; [apply same_records_refl|].
  split; [intros s H; discriminate | reflexivity].
- cbn [find_element].
  pose proof (sr_page_call (pw_is_visible pw s) m) as R.
  destruct (page_call (pw_is_visible pw s) m) as [[[|]|e] m1];
    cbn [snd] in R.
  + exists (Some s), m1. split; [reflexivity|]. split; [exact R|].
    split; [|discriminate].
    intros x H. injection H as <-. left. reflexivity.
  + destruct (IH m1) as (r & m' & E & R' & Hin & _).
    exists r, m'. split; [exact E|].
    split; [eapply same_records_trans; eassumption|].
    split; [|discriminate]. intros x H. right. apply Hin, H.
  + destruct (IH m1) as (r & m' & E & R' & Hin & _).
    exists r, m'. split; [exact E|].
    split; [eapply same_records_trans; eassumption|].
    split; [|discriminate]. intros x H. right. apply Hin, H.
Qed.

Lemma save_download_Ok (save_to original_filename : string)
  (company_name : value) (m m' : Machine W) (r : option string) :
save_download fs suffix join workflow_name save_to original_filename
  company_name m = (Ok r, m') ->
r = None
/\ exists new_filename client_folder file_path,
     format_download_filename_value (variables_for_name company_name m)
       workflow_name company_name (suffix original_filename)
     = Ok (new_filename, client_folder, EmptyString)
     /\ file_path
        = join (join (join save_to client_folder) EmptyString) new_filename
     /\ variables (state m')
        = <["downloaded_file" := VStr file_path]>
            (variables_for_name company_name m)
     /\ report m'
        = report m
          ++ (if value_truthy company_name
              then [EvFilter "company_name" (value_str company_name)]
              else [])
          ++ [EvDownload new_filename file_path].
Proof.
unfold save_download. intros H.
apply bind_Ok in H as (u & m1 & E1 & H).
assert (V : variables (state m1) = variables_for_name company_name m
            /\ report m1
               = report m
                 ++ (if value_truthy company_name
                     then [EvFilter "company_name" (value_str company_name)]
                     else [])).
{ unfold variables_for_name. destruct (value_truthy company_name).
  - rewrite store_company_name in E1. injection E1 as _ <-.
    split; reflexivity.
  - injection E1 as _ <-. rewrite app_nil_r. split; reflexivity. }
destruct V as [V1 V2].
apply bind_Ok in H as (names & m2 & E2 & H).
injection E2 as E2 <-. rewrite V1 in E2.
destruct names as [[new_filename client_folder] subfolder].
assert (Hsub : subfolder = EmptyString).
{ clear H.
  assert (F : forall vars s,
             _format_download_filename vars workflow_name s
               (suffix original_filename)
             = Ok (new_filename, client_folder, subfolder) ->
             subfolder = EmptyString).
  { intros vars s. unfold _format_download_filename.
    destruct (_get_report_prefix workflow_name) as [[code name] is_vat].
    match goal with
    | |- bind_result ?x _ = _ -> _ => destruct x as [fn|e]
    end; cbn [bind_result]; [|discriminate].
    intros H. injection H as _ _ <-. reflexivity. }
  unfold format_download_filename_value in E2.
  destruct company_name as [s|n|o].
  - exact (F _ _ E2).
  - destruct (value_truthy (VInt n)); [discriminate | exact (F _ _ E2)].
  - destruct (value_truthy (VObj o)); [discriminate | exact (F _ _ E2)]. }
subst subfolder.
apply bind_Ok in H as (u1 & m3 & E3 & H).
apply page_call_Ok in E3 as (w3 & _ & ->).
apply bind_Ok in H as (u2 & m4 & E4 & H).
apply page_call_Ok in E4 as (w4 & _ & ->).
apply bind_Ok in H as (final_size & m5 & E5 & H).
apply page_call_Ok in E5 as (w5 & _ & ->).
destruct (Nat.eqb final_size 0); [discriminate|].
apply bind_Ok in H as (u3 & m6 & E6 & H).
rewrite store_downloaded_file in E6. injection E6 as _ <-.
apply bind_Ok in H as (u4 & m7 & E7 & H).
unfold log_download in E7. injection E7 as _ <-.
injection H as <- <-. split; [reflexivity|].
exists new_filename, client_folder,
       (join (join (join save_to client_folder) EmptyString) new_filename).
split; [exact E2|]. split; [reflexivity|].
cbn. rewrite V1, V2, <- app_assoc. split; reflexivity.
Qed.

End DownloadFacts.

Section DownloadOutcomes.

Context {W : Type} (pw : Playwright W) (fs : Files W)
      (repr_list : list string -> string) (stem suffix : string -> string)
      (join : string -> string -> string)
      (is_asyncio_timeout : string -> bool) (workflow_name : string).

Lemma bind_Raise {A B : Type} (c : M W A) (k : A -> M W B) (m m' : Machine W)
  (e : exn) :
bind c k m = (Raise e, m') ->
c m = (Raise e, m')
\/ exists a m1, c m = (Ok a, m1) /\ k a m1 = (Raise e, m').
Proof.
unfold bind. destruct (c m) as [[a|e'] m1]; [eauto|].
intros H. injection H as <- <-. left. reflexivity.
Qed.

Lemma save_download_returns_None (save_to original_filename : string)
  (company_name : value) (m m' : Machine W) (r : option string) :
save_download fs suffix join workflow_name save_to original_filename
  company_name m = (Ok r, m') ->
r = None.
Proof. intros H. apply save_download_Ok in H as [H _]. exact H. Qed.

Lemma save_download_Raise (save_to original_filename : string)
  (company_name : value) (m m' : Machine W) (e : exn) :
save_download fs suffix join workflow_name save_to original_filename
  company_name m = (Raise e, m') ->
variables (state m') = variables_for_name company_name m
/\ report m'
   = report m
     ++ (if value_truthy company_name
         then [EvFilter "company_name" (value_str company_name)]
         else []).
Proof.
unfold save_download. intros H.
apply bind_Raise in H as [H|(u & m1 & E1 & H)].
{ destruct (value_truthy company_name);
    [rewrite store_company_name in H|]; discriminate. }
assert (V : variables (state m1) = variables_for_name company_name m
            /\ report m1
               = report m
                 ++ (if value_truthy company_name
                     then [EvFilter "company_name" (value_str company_name)]
                     else [])).
{ unfold variables_for_name. destruct (value_truthy company_name).
  - rewrite store_company_name in E1. injection E1 as _ <-.
    split; reflexivity.
  - injection E1 as _ <-. rewrite app_nil_r. split; reflexivity. }
apply bind_Raise in H as [H|(names & m2 & E2 & H)].
{ injection H as _ <-. exact V. }
injection E2 as _ <-.
destruct names as [[new_filename client_folder] subfolder].
assert (P : forall A (op : W -> reply A * W) (ma mb : Machine W) x,
           page_call op ma = (x, mb) ->
           variables (state mb) = variables (state ma)
           /\ report mb = report ma).
{ intros A op ma mb x Hx. pose proof (sr_page_call op ma) as (S1 & S2 & _).
  rewrite Hx in S1, S2. cbn [snd] in *. rewrite S1, S2. auto. }
apply bind_Raise in H as [H|(u1 & m3 & E3 & H)].
{ apply P in H as [H1 H2]. rewrite H1, H2. exact V. }
apply P in E3 as [A1 A2].
apply bind_Raise in H as [H|(u2 & m4 & E4 & H)].
{ apply P in H as [H1 H2]. rewrite H1, H2, A1, A2. exact V. }
apply P in E4 as [B1 B2].
apply bind_Raise in H as [H|(final_size & m5 & E5 & H)].
{ apply P in H as [H1 H2]. rewrite H1, H2, B1, B2, A1, A2. exact V. }
apply P in E5 as [C1 C2].
destruct (Nat.eqb final_size 0).
{ injection H as _ <-. rewrite C1, C2, B1, B2, A1, A2. exact V. }
apply bind_Raise in H as [H|(u3 & m6 & E6 & H)];
  [rewrite store_downloaded_file in H; discriminate|].
apply bind_Raise in H as [H|(u4 & m7 & E7 & H)]; discriminate.
Qed.

Lemma wait_for_download_body_None (args : StepArgs) (m m' : Machine W)
  (r : option string) :
wait_for_download_body fs suffix join workflow_name args m = (Ok r, m') ->
r = None.
Proof.
unfold wait_for_download_body. intros H.
do 3 (apply bind_Ok in H as (? & ? & _ & H)).
eapply save_download_returns_None, H.
Qed.

Lemma click_and_download_body_None (args : StepArgs) (element : string)
  (m m' : Machine W) (r : option string) :
click_and_download_body fs stem suffix join workflow_name args element m
= (Ok r, m') ->
r = None.
Proof.
unfold click_and_download_body. intros H.
do 3 (apply bind_Ok in H as (? & ? & _ & H)).
eapply save_download_returns_None, H.
Qed.

End DownloadOutcomes.

(** X23. The flag [optional] does not cover the element of
    [_execute_click_and_download]. The search for the element always
    ends; when no selector shows a visible element, and so when the step
    has no selectors, the handler raises [StepFailedError] whether or not
    the step is optional. Once the element is found the usual rule
    holds: the handler returns [None], or the [on_error] target of an
    optional step, or raises [StepFailedError] for a step that is not
    optional, and no other exception leaves it. *)
Theorem click_and_download_needs_element :
  forall (W : Type) (pw : Playwright W) (fs : Files W)
         (repr_list : list string -> string) (stem suffix : string -> string)
         (join : string -> string -> string)
         (is_asyncio_timeout : string -> bool) (workflow_name : string)
         (step : Step) (args : StepArgs) (m : Machine W),
    let run_it :=
      _execute_click_and_download pw fs repr_list stem suffix join
        is_asyncio_timeout workflow_name step args m in
    exists (element : option string) (m1 : Machine W),
      find_element pw (selectors args) m = (Ok element, m1)
      /\ (selectors args = [] -> element = None)
      /\ match element with
         | None =>
             run_it
             = (Raise (StepFailedError
                         ("No element found to click: "
                          +:+ repr_list (selectors args))), m1)
         | Some _ => ends_by_rule step (on_error step) run_it.1
         end.
Proof.
  intros W pw fs repr stem suffix join is_to wf step args m run_it.
  subst run_it.
  destruct (find_element_returns pw (selectors args) m)
    as (element & m1 & E & _ & _ & Hnil).
  exists element, m1. split; [exact E|]. split; [exact Hnil|].
  unfold _execute_click_and_download, bind. rewrite E.
  destruct element as [element|]; [|reflexivity].
  apply try_rule. intros r m'. apply click_and_download_body_None.
Qed.

(** X24. [_execute_wait_for_download] ends by the usual rule: it returns
    [None], or the [on_error] target of an optional step, or raises
    [StepFailedError] for a step that is not optional; no other
    exception leaves it. The errors raised inside its [try] block are
    caught by its own [except Exception]: when Playwright reports a
    failure of the download, an optional step goes on to its [on_error]
    target, and a step that is not optional fails with a message that
    carries the words [Download failed] twice. In both cases nothing was
    stored or logged. *)
Theorem wait_for_download_failure_rule :
  forall (W : Type) (fs : Files W) (suffix : string -> string)
         (join : string -> string -> string) (workflow_name : string)
         (step : Step) (args : StepArgs) (m : Machine W),
    ends_by_rule step (on_error step)
      (_execute_wait_for_download fs suffix join workflow_name step args m).1
    /\ (forall (download : DownloadInfo) (w : W) (temp_path : option string)
               (failure : string),
          fs_expect_download fs (world m) = (Reply download, w) ->
          dl_path download = Reply temp_path ->
          dl_failure download = Reply (Some failure) ->
          truthy failure = true ->
          _execute_wait_for_download fs suffix join workflow_name step args m
          = (if optional step then Ok (on_error step)
             else Raise (StepFailedError
                           ("Download failed: Download failed: " +:+ failure)),
             set_world w m)).
Proof.
  intros W fs suffix join wf step args m. split.
  - apply try_rule. intros r m'. apply wait_for_download_body_None.
  - intros download w temp_path failure Hd Hp Hf Ht.
    unfold _execute_wait_for_download, try_except, wait_for_download_body.
    unfold bind at 1. unfold page_call at 1. rewrite Hd.
    unfold bind at 1. unfold check_download.
    unfold bind at 1. rewrite Hp. unfold pure_call at 1.
    unfold bind at 1. rewrite Hf. unfold pure_call at 1.
    cbn [opt_truthy]. rewrite Ht. cbn [raise default].
    unfold raise, not_found. cbn [exn_msg].
    destruct (optional step); reflexivity.
Qed.

Lemma wait_for_download_failure_rule_witness :
  _execute_wait_for_download
    (simple_files "Acme_-_Trial_Balance.xlsx" (Some "canceled") 10)
    xlsx_suffix slash_join "trial_balance_report" step_export_optional
    (only_selectors []) (start_machine empty_page)
  = (Ok (Some "retry"), start_machine empty_page).
Proof.
  exact (proj2 (wait_for_download_failure_rule Page
                  (simple_files "Acme_-_Trial_Balance.xlsx" (Some "canceled") 10)
                  xlsx_suffix slash_join "trial_balance_report"
                  step_export_optional (only_selectors [])
                  (start_machine empty_page))
           _ empty_page (Some "/tmp/download") "canceled"
           eq_refl eq_refl eq_refl eq_refl).
Defined.

(** X25. A download is recorded only when the file was saved. In both
    download handlers, when the lines that save the file return, they
    return [None]; the file name and the client folder are those that
    [_format_download_filename] gives for the name of the workflow, the
    company name and the suffix of the suggested name, read after the
    company name was stored; the file was saved under [save_to], the
    client folder and that name; [downloaded_file] holds this path; and
    the report gained the filter event of the company name, if it was
    stored, and then the download event. When they raise, no download
    event was logged and [downloaded_file] was not written. *)
Theorem download_recorded_only_when_saved :
  forall (W : Type) (fs : Files W) (suffix : string -> string)
         (join : string -> string -> string) (workflow_name : string)
         (save_to original_filename : string) (company_name : value)
         (m m' : Machine W) (outcome : result (option string)),
    save_download fs suffix join workflow_name save_to original_filename
      company_name m = (outcome, m') ->
    let stored :=
      if value_truthy company_name
      then [EvFilter "company_name" (value_str company_name)]
      else [] in
    match outcome with
    | Ok r =>
        r = None
        /\ exists new_filename client_folder file_path,
             format_download_filename_value
               (variables_for_name company_name m) workflow_name
               company_name (suffix original_filename)
             = Ok (new_filename, client_folder, EmptyString)
             /\ file_path
                = join (join (join save_to client_folder) EmptyString)
                    new_filename
             /\ variables (state m')
                = <["downloaded_file" := VStr file_path]>
                    (variables_for_name company_name m)
             /\ report m'
                = report m ++ stored ++ [EvDownload new_filename file_path]
    | Raise _ =>
        variables (state m') = variables_for_name company_name m
        /\ report m' = report m ++ stored
    end.
Proof.
  intros W fs suffix join wf save_to orig company m m' outcome H stored.
  subst stored. destruct outcome as [r|e].
  - eapply save_download_Ok, H.
  - eapply save_download_Raise, H.
Qed.

Lemma download_recorded_only_when_saved_witness :
  exists m',
    save_download (simple_files "Acme_-_Trial_Balance.xlsx" None 10)
      xlsx_suffix slash_join "trial_balance_report" "downloads"
      "Acme_-_Trial_Balance.xlsx" (VStr "Acme") (start_machine empty_page)
    = (Ok None, m')
    /\ variables (state m') !! "downloaded_file"
       = Some (VStr "downloads/Acme/1 Trial Balance_Acme.xlsx")
    /\ report m'
       = [ EvFilter "company_name" "Acme";
           EvDownload "1 Trial Balance_Acme.xlsx"
             "downloads/Acme/1 Trial Balance_Acme.xlsx" ].
Proof.
  eexists. split; [vm_compute; reflexivity|].
  pose proof (download_recorded_only_when_saved Page
                (simple_files "Acme_-_Trial_Balance.xlsx" None 10)
                xlsx_suffix slash_join "trial_balance_report" "downloads"
                "Acme_-_Trial_Balance.xlsx" (VStr "Acme")
                (start_machine empty_page) _ _
                ltac:(vm_compute; reflexivity))
    as (_ & fn & folder & path & Hn & Hp & Hv & Hr).
  vm_compute in Hn. injection Hn as <- <-. vm_compute in Hp. subst path.
  split.
  - rewrite Hv. apply lookup_insert_eq.
  - rewrite Hr. reflexivity.
Defined.
